(** * conch: voice capture, transcription backend and graceful shutdown

    A shallow embedding of the Go packages [speech], [status], [common] and
    [terminal] and of the WAV helpers of the audio test tool, with the
    properties of the specification stated and proved (or refuted) against
    it, and further properties of the code.

    Conventions.
    - Go integers are [Z]; an [int16] conversion is written [wrap16] and a
      [uint32] conversion [wrapU32].  Bytes are [Z] in [0, 256).
    - A buffered Go channel is a FIFO list with a capacity; the
      [select { case ch <- v: ... default: ... }] idiom is [try_send] and
      [select { case v := <-ch: ... default: ... }] is [try_recv].
    - Effects that leave the process (log lines, sleeps, SDL calls, files,
      HTTP requests, signals) are recorded in a trace of [Event]s; what the
      outside world answers is an explicit input of the function.
    - A Go panic is an explicit outcome.
    - [debugLog] prints only when a debug mode is set and changes no state;
      it is left out of the model. *)

From Stdlib Require Import ZArith Lia Bool Ascii String DecimalString.
From stdpp Require Import base list.

Local Open Scope Z_scope.

(** ** Integer conversions *)

Module GoInt.

(** Conversions to [int16], [uint16], [uint32] and [int64] (two's complement
    wrap-around); [int] is 64 bits wide. *)
Definition wrap16 (z : Z) : Z := (z + 32768) mod 65536 - 32768.
Definition wrapU16 (z : Z) : Z := z mod 65536.
Definition wrapU32 (z : Z) : Z := z mod 4294967296.
Definition wrap64 (z : Z) : Z :=
  (z + 9223372036854775808) mod 18446744073709551616 - 9223372036854775808.
Definition wrapInt (z : Z) : Z := wrap64 z.

Definition is_int16 (z : Z) : Prop := -32768 <= z <= 32767.
Definition is_byte (z : Z) : Prop := 0 <= z < 256.

End GoInt.

Import GoInt.

(** ** Buffered channels *)

Module Chan.

Record chan (A : Type) := Mk { cap : nat; buf : list A }.
Arguments Mk {A} _ _.
Arguments cap {A} _.
Arguments buf {A} _.

(** [make(chan A, n)] *)
Definition make (A : Type) (n : nat) : chan A := Mk n [].

(** [select { case c <- a: (true) default: (false) }] *)
Definition try_send {A} (c : chan A) (a : A) : chan A * bool :=
  if (length (buf c) <? cap c)%nat then (Mk (cap c) (buf c ++ [a]), true)
  else (c, false).

(** [select { case a := <-c: (Some a) default: (None) }] *)
Definition try_recv {A} (c : chan A) : chan A * option A :=
  match buf c with
  | [] => (c, None)
  | a :: rest => (Mk (cap c) rest, Some a)
  end.

Definition wf {A} (c : chan A) : Prop := (length (buf c) <= cap c)%nat.

End Chan.

Import Chan.

(** ** Package speech: audio capture *)

Module Speech.

(** Constants of the package. *)
Definition AudioFrequency : Z := 16000.
Definition AudioChannels : Z := 1.
Definition AudioSamples : Z := 4096.
Definition AudioBufferSize : Z := 1024 * 1024.
Definition VadThreshold : Z := 100.
Definition VadSilenceFrames : Z := 10.

(** [AudioData]: a captured segment. *)
Record AudioData := mkAudioData { Samples : list Z; SampleRate : Z }.

(** The fields of [SpeechService] that the code reads or writes (the
    [callback] field is never read after [Initialize]). *)
Record SpeechService := mkSpeechService {
  deviceID : Z;
  isInitialized : bool;
  isListening : bool;
  isRecording : bool;
  isTranscribing : bool;
  isShutdown : bool;
  audioData : AudioData;
  recordingStarted : chan unit;
  recordingStopped : chan AudioData;
  stopListening : chan unit
}.

Definition set_isInitialized b s :=
  mkSpeechService (deviceID s) b (isListening s) (isRecording s) (isTranscribing s)
    (isShutdown s) (audioData s) (recordingStarted s) (recordingStopped s) (stopListening s).
Definition set_deviceID d s :=
  mkSpeechService d (isInitialized s) (isListening s) (isRecording s) (isTranscribing s)
    (isShutdown s) (audioData s) (recordingStarted s) (recordingStopped s) (stopListening s).
Definition set_isListening b s :=
  mkSpeechService (deviceID s) (isInitialized s) b (isRecording s) (isTranscribing s)
    (isShutdown s) (audioData s) (recordingStarted s) (recordingStopped s) (stopListening s).
Definition set_isRecording b s :=
  mkSpeechService (deviceID s) (isInitialized s) (isListening s) b (isTranscribing s)
    (isShutdown s) (audioData s) (recordingStarted s) (recordingStopped s) (stopListening s).
Definition set_isTranscribing b s :=
  mkSpeechService (deviceID s) (isInitialized s) (isListening s) (isRecording s) b
    (isShutdown s) (audioData s) (recordingStarted s) (recordingStopped s) (stopListening s).
Definition set_isShutdown b s :=
  mkSpeechService (deviceID s) (isInitialized s) (isListening s) (isRecording s)
    (isTranscribing s) b (audioData s) (recordingStarted s) (recordingStopped s)
    (stopListening s).
Definition set_samples l s :=
  mkSpeechService (deviceID s) (isInitialized s) (isListening s) (isRecording s)
    (isTranscribing s) (isShutdown s) (mkAudioData l (SampleRate (audioData s)))
    (recordingStarted s) (recordingStopped s) (stopListening s).
Definition set_recordingStarted c s :=
  mkSpeechService (deviceID s) (isInitialized s) (isListening s) (isRecording s)
    (isTranscribing s) (isShutdown s) (audioData s) c (recordingStopped s) (stopListening s).
Definition set_recordingStopped c s :=
  mkSpeechService (deviceID s) (isInitialized s) (isListening s) (isRecording s)
    (isTranscribing s) (isShutdown s) (audioData s) (recordingStarted s) c (stopListening s).
Definition set_stopListening c s :=
  mkSpeechService (deviceID s) (isInitialized s) (isListening s) (isRecording s)
    (isTranscribing s) (isShutdown s) (audioData s) (recordingStarted s)
    (recordingStopped s) c.

(** What the capture code does to the outside world. *)
Inductive Event :=
| LogErrorReading                      (* "Error reading audio: ..." *)
| LogEndOfSpeech (n : nat)             (* "End of speech detected (recorded n samples)..." *)
| LogChannelFull                       (* "Warning: recordingStopped channel full, dropping audio" *)
| LogTooShort                          (* "Recording too short, discarded" *)
| LogGoroutineExited                   (* "Audio capture goroutine exited" *)
| LogStartedListening
| LogStoppedListening
| LogCleanupStart
| LogStoppingListening
| LogSdlReleased
| LogCleanupDone
| Sleep (ms : Z)
| SdlPauseAudioDevice (dev : Z) (pause_on : bool)
| SdlCloseAudioDevice (dev : Z)
| SdlQuit
| SpawnCaptureAudio                    (* go s.captureAudio() *)
| ChanOffer (a : AudioData) (sent : bool). (* the select on recordingStopped *)

(** [NewSpeechService] (the DEBUG environment variable only selects a debug
    mode). *)
Definition NewSpeechService : SpeechService :=
  {| deviceID := 0;
     isInitialized := false; isListening := false; isRecording := false;
     isTranscribing := false; isShutdown := false;
     audioData := {| Samples := []; SampleRate := AudioFrequency |};
     recordingStarted := Chan.make unit 1;
     recordingStopped := Chan.make AudioData 1;
     stopListening := Chan.make unit 1 |}.

(** *** The capture loop *)

(** Result of [sdl.DequeueAudio(deviceID, buffer)]: an error, or the bytes
    read, [buffer[:bytesRead]]. *)
Inductive Dequeue :=
| DequeueErr
| DequeueOk (bytes : list Z).

(** [samples[i] = int16(buffer[i*2]) | (int16(buffer[i*2+1]) << 8)] for
    [i < bytesRead/2]. *)
Fixpoint bytesToSamples (buffer : list Z) : list Z :=
  match buffer with
  | lo :: hi :: rest => Z.lor lo (wrap16 (Z.shiftl hi 8)) :: bytesToSamples rest
  | _ => []
  end.

(** The sum of absolute values, accumulated in an [int64]. *)
Definition sumAbs (samples : list Z) : Z :=
  fold_left (fun sum sample =>
               let value := sample in
               let value := if value <? 0 then wrap64 (- value) else value in
               wrap64 (sum + value)) samples 0.

(** [average := sum / int64(len(samples))]; dividing by zero panics. *)
Definition averageLevel (samples : list Z) : option Z :=
  match samples with
  | [] => None
  | _ => Some (Z.quot (sumAbs samples) (Z.of_nat (length samples)))
  end.

(** The local variables of [captureAudio]. *)
Record Locals := mkLocals { silenceFrames : Z; locRecording : bool }.

Inductive IterResult :=
| IterContinue (s : SpeechService) (l : Locals) (out : list Event)
| IterReturn (s : SpeechService) (out : list Event)
| IterPanic.

(** [if !isRecording { if average > localVadThreshold { ... } }] *)
Definition detectStart (average : Z) (s : SpeechService) (l : Locals)
  : SpeechService * Locals :=
  if negb (locRecording l) then
    if VadThreshold <? average then
      let s := set_isRecording true s in
      let s := set_samples [] s in
      let s := set_recordingStarted (fst (try_send (recordingStarted s) tt)) s in
      (s, mkLocals (silenceFrames l) true)
    else (s, l)
  else (s, l).

(** [if isRecording { append; end-of-speech check }] *)
Definition recordFrame (average : Z) (samples : list Z) (s : SpeechService) (l : Locals)
  : SpeechService * Locals * list Event :=
  if locRecording l then
    let s := set_samples (Samples (audioData s) ++ samples) s in
    if VadThreshold <? average then
      (s, mkLocals 0 (locRecording l), [])
    else
      let sf := silenceFrames l + 1 in
      if VadSilenceFrames <=? sf then
        let s := set_isRecording false s in
        if AudioFrequency / 4 <? Z.of_nat (length (Samples (audioData s))) then
          let audio := {| Samples := Samples (audioData s);
                          SampleRate := SampleRate (audioData s) |} in
          let '(c, sent) := try_send (recordingStopped s) audio in
          (set_recordingStopped c s, mkLocals 0 false,
           if sent then [ChanOffer audio true; LogEndOfSpeech (length (Samples audio))]
           else [ChanOffer audio false; LogChannelFull])
        else
          (s, mkLocals 0 false, [LogTooShort])
      else (s, mkLocals sf (locRecording l), [])
  else (s, l, []).

(** One iteration of the [for] loop of [captureAudio], given what
    [DequeueAudio] returns in it. *)
Definition captureIter (s : SpeechService) (l : Locals) (d : Dequeue) : IterResult :=
  match try_recv (stopListening s) with
  | (c, Some _) => IterReturn (set_stopListening c s) []
  | (_, None) =>
    if negb (isListening s) then IterReturn s []
    else
      match d with
      | DequeueErr =>
        if negb (isListening s) then IterReturn s []
        else IterContinue s l [LogErrorReading; Sleep 100]
      | DequeueOk buffer =>
        if (length buffer =? 0)%nat then IterContinue s l [Sleep 10]
        else
          let samples := bytesToSamples buffer in
          match averageLevel samples with
          | None => IterPanic
          | Some average =>
            let '(s, l) := detectStart average s l in
            let '(s, l, out) := recordFrame average samples s l in
            IterContinue s l (out ++ [Sleep 10])
          end
      end
  end.

(** The deferred function of [captureAudio]. *)
Definition captureExit (s : SpeechService) : SpeechService * list Event :=
  (set_isListening false (set_isRecording false s),
   [SdlPauseAudioDevice (deviceID s) true; LogGoroutineExited]).

Inductive RunResult :=
| Running (s : SpeechService) (l : Locals) (out : list Event)
| Exited (s : SpeechService) (out : list Event)
| Panicked.

(** The loop of [captureAudio] over the successive answers of the device;
    [Running] when the answers are used up and the loop is still going. *)
Fixpoint captureLoop (ds : list Dequeue) (s : SpeechService) (l : Locals)
  (acc : list Event) : RunResult :=
  match ds with
  | [] => Running s l acc
  | d :: ds =>
    match captureIter s l d with
    | IterContinue s l out => captureLoop ds s l (acc ++ out)
    | IterReturn s out =>
      let '(s, out') := captureExit s in Exited s (acc ++ out ++ out')
    | IterPanic => Panicked
    end
  end.

(** [captureAudio]: unpause the device, then loop. *)
Definition captureAudio (ds : list Dequeue) (s : SpeechService) : RunResult :=
  captureLoop ds s (mkLocals 0 false) [SdlPauseAudioDevice (deviceID s) false].

(** *** Public operations *)

Definition Error := string.

(** [Initialize], given whether [sdl.Init] succeeds and what
    [sdl.OpenAudioDevice] returns ([None] for an error). *)
Definition Initialize (sdlInitOk : bool) (openDevice : option Z) (s : SpeechService)
  : SpeechService * option Error :=
  if isInitialized s then (s, None)
  else if negb sdlInitOk then (s, Some "failed to initialize SDL audio"%string)
  else match openDevice with
       | None => (s, Some "failed to open audio device"%string)
       | Some dev => (set_isInitialized true (set_deviceID dev s), None)
       end.

Definition StartListening (s : SpeechService) : SpeechService * option Error * list Event :=
  if negb (isInitialized s) then (s, Some "speech service not initialized"%string, [])
  else if isListening s then (s, Some "already listening"%string, [])
  else (set_isListening true s, None, [SpawnCaptureAudio; LogStartedListening]).

Definition StopListening (s : SpeechService) : SpeechService * option Error * list Event :=
  if negb (isListening s) then (s, Some "not currently listening"%string, [])
  else
    let s := set_isListening false s in
    let s := set_stopListening (fst (try_send (stopListening s) tt)) s in
    (s, None, [SdlPauseAudioDevice (deviceID s) true; LogStoppedListening]).

Definition SetTranscribing (transcribing : bool) (s : SpeechService) : SpeechService :=
  set_isTranscribing transcribing s.

(** [detectVoice] *)
Definition detectVoice (samples : list Z) : option bool :=
  match averageLevel samples with
  | None => None
  | Some average => Some (VadThreshold <? average)
  end.

Inductive WaitResult :=
| WaitGot (a : AudioData)
| WaitErr (e : Error)
| WaitAgain.


(** One pass of the loop of [WaitForRecording]: the receive fires when an
    utterance is pending, the one-second timer otherwise. *)
Definition waitPoll (s : SpeechService) : SpeechService * WaitResult :=
  if isShutdown s then (s, WaitErr "service is shutting down"%string)
  else
    match try_recv (recordingStopped s) with
    | (c, Some a) => (set_recordingStopped c s, WaitGot a)
    | (_, None) =>
      if isShutdown s then (s, WaitErr "service is shutting down"%string)
      else if negb (isListening s) then (s, WaitErr "listening stopped"%string)
      else (s, WaitAgain)
    end.

(** [Cleanup] *)
Definition Cleanup (s : SpeechService) : SpeechService * option Error * list Event :=
  let s := set_isShutdown true s in
  let listening := isListening s in
  let '(s, out1) :=
    if listening then
      let '(s', _, o) := StopListening s in
      (s', [LogStoppingListening] ++ o ++ [Sleep 200])
    else (s, []) in
  let isInit := isInitialized s in
  let dev := deviceID s in
  let s := set_isInitialized false s in
  let out2 :=
    if isInit then
      (if 0 <? dev then [SdlPauseAudioDevice dev true; SdlCloseAudioDevice dev] else [])
        ++ [SdlQuit; LogSdlReleased]
    else [] in
  (s, None, [LogCleanupStart] ++ out1 ++ out2 ++ [LogCleanupDone]).

(** [Shutdown] implements [Shutdownable]. *)
Definition Shutdown (s : SpeechService) := Cleanup s.

Fixpoint CleanupTimes (k : nat) (s : SpeechService) : SpeechService :=
  match k with
  | O => s
  | S k => CleanupTimes k (fst (fst (Cleanup s)))
  end.

(** *** The service and the goroutines around it

    The capture goroutines, the consumer and the controlling goroutine run
    concurrently; a schedule is the order in which their steps happen.  A
    step of a capture goroutine is one iteration of its loop. *)

Inductive Action :=
| ActInitialize (sdlInitOk : bool) (openDevice : option Z)
| ActStartListening
| ActCapture (g : nat) (d : Dequeue)   (* goroutine [g] runs one iteration *)
| ActWaitPoll                          (* the consumer runs one pass of WaitForRecording *)
| ActStopListening
| ActSetTranscribing (b : bool)
| ActCleanup.

Record System := mkSystem {
  svc : SpeechService;
  goroutines : list Locals;            (* the live capture goroutines *)
  delivered : list AudioData;          (* what WaitForRecording returned, in order *)
  trace : list Event
}.

Definition sysStep (a : Action) (y : System) : option System :=
  match a with
  | ActInitialize sdlInitOk openDevice =>
    Some (mkSystem (fst (Initialize sdlInitOk openDevice (svc y)))
            (goroutines y) (delivered y) (trace y))
  | ActStartListening =>
    let '(s, err, out) := StartListening (svc y) in
    Some (mkSystem s
            (match err with
             | None => goroutines y ++ [mkLocals 0 false]
             | Some _ => goroutines y
             end)
            (delivered y)
            (trace y ++ out ++
               match err with
               | None => [SdlPauseAudioDevice (deviceID s) false]
               | Some _ => []
               end))
  | ActCapture g d =>
    match goroutines y !! g with
    | None => Some y
    | Some l =>
      match captureIter (svc y) l d with
      | IterContinue s l out =>
        Some (mkSystem s (<[g := l]> (goroutines y)) (delivered y) (trace y ++ out))
      | IterReturn s out =>
        let '(s, out') := captureExit s in
        Some (mkSystem s (delete g (goroutines y)) (delivered y) (trace y ++ out ++ out'))
      | IterPanic => None
      end
    end
  | ActWaitPoll =>
    match waitPoll (svc y) with
    | (s, WaitGot a) => Some (mkSystem s (goroutines y) (delivered y ++ [a]) (trace y))
    | (s, _) => Some (mkSystem s (goroutines y) (delivered y) (trace y))
    end
  | ActStopListening =>
    let '(s, _, out) := StopListening (svc y) in
    Some (mkSystem s (goroutines y) (delivered y) (trace y ++ out))
  | ActSetTranscribing b =>
    Some (mkSystem (SetTranscribing b (svc y)) (goroutines y) (delivered y) (trace y))
  | ActCleanup =>
    let '(s, _, out) := Cleanup (svc y) in
    Some (mkSystem s (goroutines y) (delivered y) (trace y ++ out))
  end.

(** A whole schedule; [None] when a goroutine panicked. *)
Fixpoint sysRun (sched : list Action) (y : System) : option System :=
  match sched with
  | [] => Some y
  | a :: sched =>
    match sysStep a y with
    | Some y => sysRun sched y
    | None => None
    end
  end.

(** A new service, not yet initialized, with no goroutine. *)
Definition sysInit : System := mkSystem NewSpeechService [] [] [].

(** The utterances offered to the hand-off channel, in order, with whether
    each was taken by the channel. *)
Fixpoint offers (out : list Event) : list (AudioData * bool) :=
  match out with
  | [] => []
  | ChanOffer a sent :: out => (a, sent) :: offers out
  | _ :: out => offers out
  end.

Definition isTooShort (e : Event) : bool :=
  match e with LogTooShort => true | _ => false end.

(** What a run of the loop shows from outside: the utterances offered,
    whether a segment was logged as too short, and what is left in the
    hand-off channel. *)
Definition observe (r : RunResult)
  : option (list (AudioData * bool) * bool * list AudioData) :=
  match r with
  | Running s _ out =>
    Some (offers out, existsb isTooShort out, buf (recordingStopped s))
  | _ => None
  end.

(** The number of samples of each utterance offered. *)
Definition offeredLengths (r : RunResult) : list Z :=
  match r with
  | Running _ _ out => map (fun p => Z.of_nat (length (Samples (fst p)))) (offers out)
  | _ => []
  end.

(** *** Frames, as the loop classifies them *)

(** A frame is voiced when its average level exceeds the threshold, silent
    when it has a level that does not. *)
Definition voiced (buffer : list Z) : bool :=
  match averageLevel (bytesToSamples buffer) with
  | Some average => VadThreshold <? average
  | None => false
  end.

Definition silent (buffer : list Z) : bool :=
  match averageLevel (bytesToSamples buffer) with
  | Some average => negb (VadThreshold <? average)
  | None => false
  end.

(** The samples of a sequence of frames, in order. *)
Definition samplesOf (frames : list (list Z)) : list Z :=
  concat (map bytesToSamples frames).

(** The service while a segment is being recorded with [acc] accumulated. *)
Definition recState (s : SpeechService) (acc : list Z) : SpeechService :=
  set_samples acc
    (set_recordingStarted (fst (try_send (recordingStarted s) tt))
       (set_isRecording true s)).

(** The service after a segment was closed with [acc] accumulated and the
    channel left as [c]. *)
Definition closedState (s : SpeechService) (acc : list Z) (c : chan AudioData) :=
  set_recordingStopped c (set_isRecording false (recState s acc)).

(** The loop goes on only while the service listens and nobody asked it to
    stop. *)
Definition goesOn (s : SpeechService) : Prop :=
  isListening s = true /\ buf (stopListening s) = [].

(** The hand-off channel has its one slot and no more than one utterance. *)
Definition handoffOk (s : SpeechService) : Prop :=
  cap (recordingStopped s) = 1%nat /\ (length (buf (recordingStopped s)) <= 1)%nat.

(** A service that was initialized on device [dev] and started listening. *)
Definition startedService (dev : Z) : SpeechService :=
  fst (fst (StartListening (fst (Initialize true (Some dev) NewSpeechService)))).

(** A schedule in which two utterances are produced before the consumer
    runs: initialize, start listening, then twice a voiced frame of 4001
    samples and ten silent frames of one sample, then one pass of
    [WaitForRecording]. *)
Definition twoUtterances (voicedF silentF : list Z) : list Action :=
  let segment := ActCapture 0 (DequeueOk voicedF)
                   :: replicate 10 (ActCapture 0 (DequeueOk silentF)) in
  [ActInitialize true (Some 2); ActStartListening] ++ segment ++ segment ++ [ActWaitPoll].

(** Frames for a replaying device: [n] samples of value 1000, and [n]
    samples of value 0. *)
Definition voicedFrame (n : nat) : list Z := concat (replicate n [232; 3]).
Definition silentFrame (n : nat) : list Z := replicate (2 * n) 0.

(** *** More about the loop *)

(** A read that cannot open a segment: an error of the device, no byte at
    all, or a silent frame. *)
Definition quiet (d : Dequeue) : bool :=
  match d with
  | DequeueErr => true
  | DequeueOk buffer => (length buffer =? 0)%nat || silent buffer
  end.

(** The sum of the absolute values, in unbounded integers. *)
Definition sumAbsZ (samples : list Z) : Z :=
  fold_right (fun sample sum => Z.abs sample + sum) 0 samples.

(** The number of silent frames in a row at the end of [frames], counting
    from [sf], when every frame is voiced or silent and the count stays
    below the limit all along; [None] otherwise. *)
Fixpoint silenceAfter (sf : Z) (frames : list (list Z)) : option Z :=
  match frames with
  | [] => Some sf
  | f :: frames =>
    if voiced f then silenceAfter 0 frames
    else if silent f && (sf + 1 <? VadSilenceFrames) then silenceAfter (sf + 1) frames
    else None
  end.

(** The utterances the hand-off channel took, in order. *)
Fixpoint accepted (out : list Event) : list AudioData :=
  match out with
  | [] => []
  | ChanOffer a true :: out => a :: accepted out
  | _ :: out => accepted out
  end.

(** The fields an iteration of the loop never writes. *)
Definition control (s : SpeechService) : Z * bool * bool * bool :=
  (deviceID s, isInitialized s, isTranscribing s, isShutdown s).

(** Stop and start again before the goroutine has seen the stop, then let
    the two goroutines run once each. *)
Definition quickRestart (dev : Z) (d1 d2 : Dequeue) : list Action :=
  [ActInitialize true (Some dev); ActStartListening; ActStopListening;
   ActStartListening; ActCapture 0 d1; ActCapture 0 d2].

Definition isSpawnOrExit (e : Event) : bool :=
  match e with SpawnCaptureAudio | LogGoroutineExited => true | _ => false end.

End Speech.

(** ** WAV files: [writeWavFile], [saveWavFile] and the test's [readWavFile] *)

Module Wav.

Import Speech.

(** [binary.LittleEndian] encodings of a [uint16] and a [uint32]. *)
Definition le16 (v : Z) : list Z := [Z.land v 255; Z.land (Z.shiftr v 8) 255].
Definition le32 (v : Z) : list Z :=
  [Z.land v 255; Z.land (Z.shiftr v 8) 255;
   Z.land (Z.shiftr v 16) 255; Z.land (Z.shiftr v 24) 255].

Record wavHeader := mkWavHeader {
  ChunkID : list Z;        (* [4]byte *)
  ChunkSize : Z;           (* uint32 *)
  Format : list Z;         (* [4]byte *)
  SubChunk1ID : list Z;    (* [4]byte *)
  SubChunk1Size : Z;       (* uint32 *)
  AudioFormat : Z;         (* uint16 *)
  NumChannels : Z;         (* uint16 *)
  hSampleRate : Z;         (* uint32 *)
  ByteRate : Z;            (* uint32 *)
  BlockAlign : Z;          (* uint16 *)
  BitsPerSample : Z;       (* uint16 *)
  SubChunk2ID : list Z;    (* [4]byte *)
  SubChunk2Size : Z        (* uint32 *)
}.

(** The header both writers build. *)
Definition makeHeader (samples : list Z) (sampleRate : Z) : wavHeader :=
  let dataSize := wrapU32 (wrapInt (Z.of_nat (length samples) * 2)) in
  {| ChunkID := [82; 73; 70; 70];                     (* 'R','I','F','F' *)
     ChunkSize := wrapU32 (36 + dataSize);
     Format := [87; 65; 86; 69];                      (* 'W','A','V','E' *)
     SubChunk1ID := [102; 109; 116; 32];              (* 'f','m','t',' ' *)
     SubChunk1Size := 16;
     AudioFormat := 1;
     NumChannels := 1;
     hSampleRate := wrapU32 sampleRate;
     ByteRate := wrapU32 (Z.quot (wrapInt (wrapInt (sampleRate * 1) * 16)) 8);
     BlockAlign := 2;
     BitsPerSample := 16;
     SubChunk2ID := [100; 97; 116; 97];               (* 'd','a','t','a' *)
     SubChunk2Size := dataSize |}.

(** [binary.Write(file, binary.LittleEndian, header)] *)
Definition encodeHeader (h : wavHeader) : list Z :=
  ChunkID h ++ le32 (ChunkSize h) ++ Format h ++ SubChunk1ID h
    ++ le32 (SubChunk1Size h) ++ le16 (AudioFormat h) ++ le16 (NumChannels h)
    ++ le32 (hSampleRate h) ++ le32 (ByteRate h) ++ le16 (BlockAlign h)
    ++ le16 (BitsPerSample h) ++ SubChunk2ID h ++ le32 (SubChunk2Size h).

(** [binary.Write(file, binary.LittleEndian, samples)] for [[]int16]. *)
Fixpoint encodeSamples (samples : list Z) : list Z :=
  match samples with
  | [] => []
  | x :: samples => le16 (wrapU16 x) ++ encodeSamples samples
  end.

(** What the file system answers to the writer. *)
Record WriteWorld := mkWriteWorld {
  createOk : bool;
  writeHeaderOk : bool;
  writeSamplesOk : bool
}.

Definition allOk : WriteWorld := mkWriteWorld true true true.

(** [writeWavFile] (and the body of [saveWavFile]): the error, if any, and
    the content of the file when both writes went through. *)
Definition writeWavFile (w : WriteWorld) (samples : list Z) (sampleRate : Z)
  : option Error * option (list Z) :=
  if negb (createOk w) then (Some "create"%string, None)
  else
    let header := makeHeader samples sampleRate in
    if negb (writeHeaderOk w) then (Some "write header"%string, None)
    else if negb (writeSamplesOk w) then (Some "write samples"%string, None)
    else (None, Some (encodeHeader header ++ encodeSamples samples)).

(** The reader of [whisper_test.go]. *)
Definition bufferSize : nat := 1024.

(** [int16(binary.LittleEndian.Uint16(buffer[i : i+2]))] for even [i] with
    [i+1 < bytesRead]. *)
Fixpoint chunkSamples (chunk : list Z) : list Z :=
  match chunk with
  | lo :: hi :: rest => wrap16 (Z.lor lo (Z.shiftl hi 8)) :: chunkSamples rest
  | _ => []
  end.

(** The read loop: [file.Read] on a regular file fills the buffer until the
    end of the file, then reports [io.EOF].  [None] when out of fuel. *)
Fixpoint readLoop (fuel : nat) (rest : list Z) (samples : list Z) : option (list Z) :=
  match fuel with
  | O => None
  | S fuel =>
    match rest with
    | [] => Some samples
    | _ => readLoop fuel (drop bufferSize rest)
             (samples ++ chunkSamples (take bufferSize rest))
    end
  end.

(** [readWavFile] on the content of the file ([None]: it cannot be opened). *)
Definition readWavFile (file : option (list Z)) : option AudioData :=
  match file with
  | None => None
  | Some content =>
    let rest := drop 44 content in
    match readLoop (S (length rest)) rest [] with
    | None => None
    | Some samples => Some {| Samples := samples; SampleRate := 16000 |}
    end
  end.

(** The number a sequence of bytes stands for, least significant byte
    first. *)
Definition leValue (bytes : list Z) : Z :=
  fold_right (fun b v => b + 256 * v) 0 bytes.

End Wav.

(** ** Package speech: the whisper server backend *)

Module Whisper.

Import Speech.

Record Cmd := mkCmd { Process : option Z }.   (* the pid of [cmd.Process] *)

Record WhisperServerService := mkWhisper {
  cmd : option Cmd;
  serverURL : string;
  isRunning : bool;
  maxRetries : Z
}.

Definition set_isRunning b s := mkWhisper (cmd s) (serverURL s) b (maxRetries s).

(** [NewWhisperServerService] *)
Definition NewWhisperServerService : WhisperServerService :=
  {| cmd := None; serverURL := ""; isRunning := false; maxRetries := 3 |}.

Record WhisperServerResult := mkResult {
  Text : string;
  Language : string;
  Success : bool
}.

(** The errors of [Transcribe], one constructor per [errors.New] or
    [fmt.Errorf] of the function. *)
Inductive TranscribeError :=
| ErrNotRunning                          (* "whisper server not running" *)
| ErrNoAudio                             (* "no audio data to transcribe" *)
| ErrSaveAudio                           (* "failed to save audio data" *)
| ErrOpenTemp                            (* "failed to open temporary file" *)
| ErrCreateFormFile                      (* "failed to create form file" *)
| ErrCopyFile                            (* "failed to copy file data" *)
| ErrCloseWriter                         (* "failed to close multipart writer" *)
| ErrCreateRequest                       (* "failed to create request" *)
| ErrSendRequest (attempts : Z)          (* "failed to send request after %d attempts" *)
| ErrServerStatus (code : Z) (body : string) (* "server returned error status %d: %s" *)
| ErrParseResponse.                      (* "failed to parse server response" *)

(** What [client.Do] returns. *)
Inductive HttpAnswer :=
| TransportFailure
| Response (status : Z) (body : string) (parsed : option WhisperServerResult).

(** What the outside world answers to one call of [Transcribe]. *)
Record World := mkWorld {
  tempFile : Wav.WriteWorld;
  openOk : bool;
  createFormFileOk : bool;
  copyOk : bool;
  closeWriterOk : bool;
  newRequestOk : bool;
  httpDo : nat -> HttpAnswer            (* the answer to attempt number [n] *)
}.

Inductive Effect :=
| CreateTemp                             (* os.CreateTemp("", "whisper_*.wav") *)
| WriteTemp (content : list Z)
| RemoveTemp                             (* the deferred os.Remove(wavFile) *)
| OpenTemp
| LogSending
| LogRetrying (attempt : Z) (total : Z)
| SleepMs (ms : Z)
| HttpDo (attempt : nat)                 (* client.Do(req) *)
| LogReceived.

Inductive Outcome (A : Type) :=
| Ok (a : A)
| Err (e : TranscribeError)
| Panic.
Arguments Ok {A} _.
Arguments Err {A} _.
Arguments Panic {A}.

(** [saveWavFile] *)
Definition saveWavFile (w : Wav.WriteWorld) (samples : list Z) (sampleRate : Z)
  : option (list Z) * list Effect :=
  if negb (Wav.createOk w) then (None, [])
  else
    match Wav.writeWavFile w samples sampleRate with
    | (None, Some content) => (Some content, [CreateTemp; WriteTemp content])
    | _ => (None, [CreateTemp])
    end.

(** The retry loop of [Transcribe]:
    [for attempt := 0; attempt < s.maxRetries; attempt++]; [todo] counts the
    iterations that remain.  Returns the last [resp, respErr] ([None] when
    the loop body never ran) and the effects. *)
Fixpoint retryLoop (w : World) (maxRetries : Z) (todo : nat) (attempt : nat)
  (last : option HttpAnswer) : option HttpAnswer * list Effect :=
  match todo with
  | O => (last, [])
  | S todo =>
    let pre :=
      if (0 <? attempt)%nat
      then [LogRetrying (Z.of_nat attempt + 1) maxRetries; SleepMs (Z.of_nat attempt * 500)]
      else [] in
    let answer := httpDo w attempt in
    match answer with
    | TransportFailure =>
      let '(r, out) := retryLoop w maxRetries todo (S attempt) (Some answer) in
      (r, pre ++ [HttpDo attempt] ++ out)
    | Response _ _ _ => (Some answer, pre ++ [HttpDo attempt])
    end
  end.

(** [Transcribe]; [audio] is [None] for a nil pointer. *)
Definition Transcribe (w : World) (s : WhisperServerService) (audio : option AudioData)
  : Outcome WhisperServerResult * list Effect :=
  if negb (isRunning s) then (Err ErrNotRunning, [])
  else
    match audio with
    | None => (Err ErrNoAudio, [])
    | Some audio =>
      if (length (Samples audio) =? 0)%nat then (Err ErrNoAudio, [])
      else
        match saveWavFile (tempFile w) (Samples audio) (SampleRate audio) with
        | (None, out) => (Err ErrSaveAudio, out)
        | (Some content, out) =>
          if negb (openOk w) then (Err ErrOpenTemp, out ++ [RemoveTemp])
          else
            let out := out ++ [OpenTemp] in
            if negb (createFormFileOk w) then (Err ErrCreateFormFile, out ++ [RemoveTemp])
            else if negb (copyOk w) then (Err ErrCopyFile, out ++ [RemoveTemp])
            else if negb (closeWriterOk w) then (Err ErrCloseWriter, out ++ [RemoveTemp])
            else if negb (newRequestOk w) then (Err ErrCreateRequest, out ++ [RemoveTemp])
            else
              match cmd s with
              | Some (mkCmd (Some pid)) =>
                let out := out ++ [LogSending] in
                let '(last, out') :=
                  retryLoop w (maxRetries s) (Z.to_nat (maxRetries s)) 0 None in
                let out := out ++ out' in
                match last with
                | Some TransportFailure =>
                  (Err (ErrSendRequest (maxRetries s)), out ++ [RemoveTemp])
                | None => (Panic, out ++ [RemoveTemp])     (* resp is nil *)
                | Some (Response status body parsed) =>
                  let out := out ++ [LogReceived] in
                  if negb (status =? 200) then
                    (Err (ErrServerStatus status body), out ++ [RemoveTemp])
                  else
                    match parsed with
                    | None => (Err ErrParseResponse, out ++ [RemoveTemp])
                    | Some result =>
                      (Ok (mkResult (Text result) (Language result) true),
                       out ++ [RemoveTemp])
                    end
                end
              | _ => (Panic, out ++ [RemoveTemp])          (* s.cmd.Process.Pid *)
              end
        end
    end.

(** The number of requests sent. *)
Fixpoint attempts (out : list Effect) : nat :=
  match out with
  | [] => O
  | HttpDo _ :: out => S (attempts out)
  | _ :: out => attempts out
  end.

(** Effects that touch the network or the file system. *)
Definition external (e : Effect) : bool :=
  match e with
  | CreateTemp | WriteTemp _ | RemoveTemp | OpenTemp | HttpDo _ => true
  | _ => false
  end.

(** Nothing fails before the request is sent. *)
Definition requestReady (w : World) (s : WhisperServerService) (audio : AudioData) : Prop :=
  isRunning s = true /\ Samples audio <> []
  /\ tempFile w = Wav.allOk /\ openOk w = true /\ createFormFileOk w = true
  /\ copyOk w = true /\ closeWriterOk w = true /\ newRequestOk w = true
  /\ (exists pid, cmd s = Some (mkCmd (Some pid))).

(** What [Transcribe] returns for the last [resp, respErr] of the loop. *)
Definition answerOutcome (maxRetries : Z) (last : option HttpAnswer)
  : Outcome WhisperServerResult :=
  match last with
  | Some TransportFailure => Err (ErrSendRequest maxRetries)
  | None => Panic
  | Some (Response status body parsed) =>
    if negb (status =? 200) then Err (ErrServerStatus status body)
    else match parsed with
         | None => Err ErrParseResponse
         | Some result => Ok (mkResult (Text result) (Language result) true)
         end
  end.

(** A world in which the file system works and the server answers as
    [answers] says; a service as [Initialize] leaves it, with the server
    process [pid]. *)
Definition worldOf (answers : nat -> HttpAnswer) : World :=
  mkWorld Wav.allOk true true true true true answers.

Definition runningService (pid : Z) : WhisperServerService :=
  mkWhisper (Some (mkCmd (Some pid))) "http://127.0.0.1:8080" true 3.

(** A server that never answers, and one that answers the second request
    with [status]. *)
Definition neverAnswers : nat -> HttpAnswer := fun _ => TransportFailure.
Definition answersSecond (status : Z) : nat -> HttpAnswer :=
  fun n => if (n =? 0)%nat then TransportFailure else Response status "body" None.

(** *** [Cleanup] *)

(** How the server process reacts to the termination attempts. *)
Record ProcWorld := mkProcWorld {
  signalOk : bool;              (* cmd.Process.Signal(os.Interrupt) returns nil *)
  exitsAfterInterrupt : bool;   (* cmd.Wait() returns within one second *)
  killOk : bool;                (* cmd.Process.Kill() returns nil *)
  exitsAfterKill : bool;        (* cmd.Wait() returns within the next second *)
  systemKillOk : bool           (* "kill -9 pid" runs *)
}.

Inductive CleanupEvent :=
| LogStopping
| LogTerminating (pid : Z)
| SignalInterrupt (pid : Z)
| LogSignalFailed
| LogExitedNormally
| LogForceKilling
| Kill (pid : Z)
| LogKillFailed
| LogSentKill (pid : Z)
| LogKilled
| LogSystemKill
| SystemKill (pid : Z)
| LogSystemKillFailed
| LogSystemKillSent (pid : Z)
| LogNoProcess
| LogShutdownComplete.

Definition Cleanup (w : ProcWorld) (s : WhisperServerService)
  : WhisperServerService * option Error * list CleanupEvent :=
  if negb (isRunning s) then (s, None, [])
  else
    let s := set_isRunning false s in
    let out :=
      match cmd s with
      | Some (mkCmd (Some pid)) =>
        [LogTerminating pid; SignalInterrupt pid]
          ++ (if signalOk w then [] else [LogSignalFailed])
          ++ (if exitsAfterInterrupt w then [LogExitedNormally]
              else
                [LogForceKilling; Kill pid]
                  ++ (if killOk w then [LogSentKill pid] else [LogKillFailed])
                  ++ (if exitsAfterKill w then [LogKilled]
                      else
                        [LogSystemKill; SystemKill pid]
                          ++ (if systemKillOk w then [LogSystemKillSent pid]
                              else [LogSystemKillFailed])))
      | _ => [LogNoProcess]
      end in
    (s, None, [LogStopping] ++ out ++ [LogShutdownComplete]).

Definition Shutdown (w : ProcWorld) (s : WhisperServerService) := Cleanup w s.

(** [k] calls in sequence, the process reacting as [ws] says at each. *)
Fixpoint CleanupTimes (ws : list ProcWorld) (s : WhisperServerService)
  : WhisperServerService :=
  match ws with
  | [] => s
  | w :: ws => CleanupTimes ws (fst (fst (Cleanup w s)))
  end.

(** *** Reading traces *)

Definition isWriteTemp (e : Effect) : bool :=
  match e with WriteTemp _ => true | _ => false end.
Definition isRemoveTemp (e : Effect) : bool :=
  match e with RemoveTemp => true | _ => false end.

Definition countOf {A : Type} (p : A -> bool) (out : list A) : nat :=
  length (List.filter p out).


(** What is sent to the server process, in order. *)
Fixpoint signalsOf (out : list CleanupEvent) : list CleanupEvent :=
  match out with
  | [] => []
  | SignalInterrupt pid :: out => SignalInterrupt pid :: signalsOf out
  | Kill pid :: out => Kill pid :: signalsOf out
  | SystemKill pid :: out => SystemKill pid :: signalsOf out
  | _ :: out => signalsOf out
  end.

End Whisper.

(** ** Package speech: starting the whisper server *)

Module Server.

Import Speech.
Import Whisper.

(** The fields of [WhisperServerConfig] that [Initialize] reads.  The
    [config] field of the service is set once and never written, so the
    configuration is passed beside the service. *)
Record WhisperServerConfig := mkConfig {
  ModelPath : string;
  ServerPath : string;
  Host : string;
  Port : Z;
  NumThreads : Z;
  PrintProgress : bool
}.

(** [strconv.Itoa] *)
Definition Itoa (z : Z) : string := NilZero.string_of_int (Z.to_int z).

(** [fmt.Sprintf("http://%s:%d", host, port)] *)
Definition urlOf (config : WhisperServerConfig) : string :=
  ("http://" ++ Host config ++ ":" ++ Itoa (Port config))%string.

(** The arguments of the server command. *)
Definition argsOf (config : WhisperServerConfig) : list string :=
  ["--host"; Host config; "--port"; Itoa (Port config);
   "-t"; Itoa (NumThreads config); "-m"; ModelPath config]%string
    ++ (if PrintProgress config then ["-pp"%string] else []).

Definition set_cmd c s := mkWhisper c (serverURL s) (isRunning s) (maxRetries s).
Definition set_serverURL u s := mkWhisper (cmd s) u (isRunning s) (maxRetries s).

(** What the outside world answers while the server starts. *)
Record StartWorld := mkStartWorld {
  statOk : bool;              (* os.Stat(ServerPath) finds the executable *)
  createLogOk : bool;         (* os.Create("whisper-server.log") *)
  startPid : option Z;        (* cmd.Start(): the pid, or an error *)
  exitedAt : nat -> bool;     (* at check [i], ProcessState says the process exited *)
  getOk : nat -> bool;        (* at attempt [i], http.Get(serverURL) returns no error *)
  stderrText : string;        (* what the process wrote so far *)
  stdoutText : string
}.

Inductive StartEvent :=
| LogStarting (path : string) (args : list string)
| CreateLogFile
| CloseLogFile
| StartProcess (path : string) (args : list string)
| LogStarted (pid : Z)
| SpawnMonitor                       (* go func() { err := s.cmd.Wait() ... } *)
| SleepStart (ms : Z)
| HttpGet (url : string) (attempt : nat)
| LogProcessExited.

Inductive StartError :=
| ErrExecutableNotFound              (* "whisper-server executable not found at ..." *)
| ErrCreateLogFile                   (* "failed to create whisper server log file" *)
| ErrStartServer                     (* "failed to start whisper server" *)
| ErrExitedUnexpectedly (output : string) (* "whisper server exited unexpectedly: %s" *)
| ErrStartInTime.                    (* "whisper server failed to start in time" *)

Inductive Health := Ready | ExitedEarly | NeverReady.

(** The loop [for i := 0; i < 30; i++] of [Initialize]; [todo] counts the
    iterations that remain. *)
Fixpoint healthLoop (w : StartWorld) (url : string) (todo : nat) (i : nat)
  : Health * list StartEvent :=
  match todo with
  | O => (NeverReady, [])
  | S todo =>
    if exitedAt w i then (ExitedEarly, [SleepStart 100])
    else if getOk w i then (Ready, [SleepStart 100; HttpGet url i])
    else
      let '(r, out) := healthLoop w url todo (S i) in
      (r, [SleepStart 100; HttpGet url i] ++ out)
  end.

(** [s.mutex] is a [sync.Mutex]: [Lock] in the goroutine that already holds
    it never returns ([None]). *)
Definition IsRunning (mutexHeld : bool) (s : WhisperServerService) : option bool :=
  if mutexHeld then None else Some (isRunning s).

(** [Cleanup], which begins with [s.IsRunning()], called with the mutex
    held or not. *)
Definition CleanupUnder (mutexHeld : bool) (pw : ProcWorld) (s : WhisperServerService)
  : option (WhisperServerService * option Error * list CleanupEvent) :=
  match IsRunning mutexHeld s with
  | None => None
  | Some _ => Some (Cleanup pw s)
  end.

Inductive Outcome :=
| Returned (s : WhisperServerService) (err : option StartError)
| Deadlocked (s : WhisperServerService).   (* blocked for ever, holding the mutex *)

(** [Initialize]: the whole body runs with the mutex held
    ([defer s.mutex.Unlock()]). *)
Definition Initialize (config : WhisperServerConfig) (w : StartWorld) (pw : ProcWorld)
  (s : WhisperServerService) : Outcome * list StartEvent :=
  if isRunning s then (Returned s None, [])
  else if negb (statOk w) then (Returned s (Some ErrExecutableNotFound), [])
  else
    let s := set_serverURL (urlOf config) s in
    let args := argsOf config in
    let s := set_cmd (Some (mkCmd None)) s in
    let out := [LogStarting (ServerPath config) args] in
    if negb (createLogOk w) then (Returned s (Some ErrCreateLogFile), out)
    else
      let out := out ++ [CreateLogFile; StartProcess (ServerPath config) args] in
      match startPid w with
      | None => (Returned s (Some ErrStartServer), out ++ [CloseLogFile])
      | Some pid =>
        let s := set_cmd (Some (mkCmd (Some pid))) s in
        let s := set_isRunning true s in
        let out := out ++ [LogStarted pid; SpawnMonitor] in
        match healthLoop w (serverURL s) 30 0 with
        | (Ready, o) => (Returned s None, out ++ o)
        | (ExitedEarly, o) =>
          let errMsg := stderrText w in
          let errMsg := if String.eqb errMsg "" then stdoutText w else errMsg in
          (Returned s (Some (ErrExitedUnexpectedly errMsg)), out ++ o)
        | (NeverReady, o) =>
          match CleanupUnder true pw s with
          | None => (Deadlocked s, out ++ o)
          | Some (s, _, _) => (Returned s (Some ErrStartInTime), out ++ o)
          end
        end
      end.

(** The monitor goroutine, once [cmd.Wait()] has returned and it has the
    mutex. *)
Definition monitorExit (s : WhisperServerService) : WhisperServerService * list StartEvent :=
  if isRunning s then (set_isRunning false s, [LogProcessExited; CloseLogFile])
  else (s, [CloseLogFile]).

(** The health requests and the pauses of a trace. *)
Fixpoint gets (out : list StartEvent) : list nat :=
  match out with
  | [] => []
  | HttpGet _ i :: out => i :: gets out
  | _ :: out => gets out
  end.

Fixpoint pauses (out : list StartEvent) : list Z :=
  match out with
  | [] => []
  | SleepStart ms :: out => ms :: pauses out
  | _ :: out => pauses out
  end.


(** The default configuration, with the two paths it takes from the
    environment, and a world in which the server answers request [k]. *)
Definition defaultConfig (model server : string) : WhisperServerConfig :=
  mkConfig model server "127.0.0.1" 8080 4 false.

Definition answersAt (k : nat) : StartWorld :=
  mkStartWorld true true (Some 4242) (fun _ => false) (fun i => (i =? k)%nat) "" "".

Definition neverReady : StartWorld :=
  mkStartWorld true true (Some 4242) (fun _ => false) (fun _ => false) "" "".

Definition exitsAt (k : nat) (err out : string) : StartWorld :=
  mkStartWorld true true (Some 4242) (fun i => (i =? k)%nat) (fun _ => false) err out.

(** The service is fresh and the process can be started. *)
Definition canStart (w : StartWorld) (s : WhisperServerService) (pid : Z) : Prop :=
  isRunning s = false /\ statOk w = true /\ createLogOk w = true /\ startPid w = Some pid.

End Server.

(** ** Package speech: the SDL callback *)

Module Callback.

Import Speech.

Record AudioCallback := mkCallback {
  buffer : list Z;
  bufferSize : Z;
  silentFrames : Z;
  isActive : bool
}.

(** The callback that [Initialize] builds over [make([]int16, n)]. *)
Definition newCallback (n : nat) : AudioCallback :=
  mkCallback (replicate n 0) 0 0 false.

(** [copy(dst, src)]: the first min(len(dst), len(src)) elements of [src]
    are written over the start of [dst]; the result is [dst] afterwards. *)
Definition copy (dst src : list Z) : list Z :=
  take (length dst) src ++ drop (length src) dst.

(** [b[lo:hi]] of a slice whose capacity is its length; a bound out of range
    panics ([None]). *)
Definition slice (b : list Z) (lo hi : Z) : option (list Z) :=
  if (0 <=? lo) && (lo <=? hi) && (hi <=? Z.of_nat (length b))
  then Some (drop (Z.to_nat lo) (take (Z.to_nat hi) b))
  else None.

(** [copy(b[pos:], src)], as the whole of [b] afterwards. *)
Definition copyAt (b : list Z) (pos : Z) (src : list Z) : option (list Z) :=
  if (0 <=? pos) && (pos <=? Z.of_nat (length b))
  then Some (take (Z.to_nat pos) b ++ copy (drop (Z.to_nat pos) b) src)
  else None.

(** [audioCallback], on the samples that [unsafe.Slice] makes of the stream;
    [None] is a panic (division by zero on an empty stream, or a slice bound
    out of range). *)
Definition audioCallback (samples : list Z) (callback : AudioCallback)
  : option AudioCallback :=
  match averageLevel samples with
  | None => None
  | Some average =>
    let n := Z.of_nat (length samples) in
    let callback :=
      if VadThreshold <? average then
        mkCallback (buffer callback) (bufferSize callback) 0 true
      else if isActive callback then
        let sf := wrapInt (silentFrames callback + 1) in
        mkCallback (buffer callback) (bufferSize callback) sf
          (if VadSilenceFrames <? sf then false else true)
      else callback in
    if isActive callback then
      let dropped :=
        if Z.of_nat (length (buffer callback)) <? wrapInt (bufferSize callback + n) then
          match slice (buffer callback) n (bufferSize callback) with
          | None => None
          | Some oldest =>
            Some (mkCallback (copy (buffer callback) oldest)
                    (wrapInt (bufferSize callback - n))
                    (silentFrames callback) (isActive callback))
          end
        else Some callback in
      match dropped with
      | None => None
      | Some callback =>
        match copyAt (buffer callback) (bufferSize callback) samples with
        | None => None
        | Some b =>
          Some (mkCallback b (wrapInt (bufferSize callback + n))
                  (silentFrames callback) (isActive callback))
        end
      end
    else Some callback
  end.

(** The callback called on each frame of a stream in turn. *)
Fixpoint feed (frames : list (list Z)) (callback : AudioCallback) : option AudioCallback :=
  match frames with
  | [] => Some callback
  | f :: frames =>
    match audioCallback f callback with
    | None => None
    | Some callback => feed frames callback
    end
  end.

(** The samples the buffer holds: its first [bufferSize] elements. *)
Definition held (callback : AudioCallback) : list Z :=
  take (Z.to_nat (bufferSize callback)) (buffer callback).

(** The state between two calls: the size is within the buffer and the
    silence count is at most one past the limit, below it while active. *)
Definition consistent (callback : AudioCallback) : Prop :=
  0 <= bufferSize callback <= Z.of_nat (length (buffer callback))
  /\ 0 <= silentFrames callback <= VadSilenceFrames + 1
  /\ (isActive callback = true -> silentFrames callback <= VadSilenceFrames).

(** A frame the callback can take: not empty, and at most half the buffer. *)
Definition fits (callback : AudioCallback) (samples : list Z) : Prop :=
  samples <> [] /\ (2 * length samples <= length (buffer callback))%nat.

End Callback.

(** ** Package status *)

Module Status.

(** [done chan struct{}] is unbuffered and nothing is ever sent on it: the
    only thing that happens to it is [close].  The other fields point to
    the speech service and the writer. *)
Record StatusService := mkStatus { doneClosed : bool }.

(** [NewStatusServiceWithWriter]: [done: make(chan struct{})]. *)
Definition NewStatusServiceWithWriter : StatusService := {| doneClosed := false |}.
Definition NewStatusService : StatusService := NewStatusServiceWithWriter.

(** [close(ch)]: closing a closed channel panics ([None]). *)
Definition close (closed : bool) : option bool :=
  if closed then None else Some true.

(** [Shutdown]: [close(s.done); return nil].  [None] is a panic. *)
Definition Shutdown (s : StatusService) : option (StatusService * option Speech.Error) :=
  match close (doneClosed s) with
  | None => None
  | Some c => Some (mkStatus c, None)
  end.

Inductive StatusLine := SHUTDOWN | RECORDING | TRANSCRIBING | LISTENING | IDLE.

(** One pass of the goroutine of [Start]: the line printed and whether the
    loop goes on. *)
Definition statusIter (s : StatusService) (sp : Speech.SpeechService) : StatusLine * bool :=
  if doneClosed s then (SHUTDOWN, false)
  else if Speech.isRecording sp then (RECORDING, true)
  else if Speech.isTranscribing sp then (TRANSCRIBING, true)
  else if Speech.isListening sp then (LISTENING, true)
  else (IDLE, true).

End Status.

(** ** Package common: the shutdown coordinator *)

Module Common.

(** What a call of [Shutdown()] does. *)
Inductive CallResult :=
| Returns (err : option string)
| BlocksForever
| Panics.

(** The interface [Shutdownable]: [Shutdown] gives the service afterwards
    and what the call did. *)
Class Shutdownable (A : Type) := {
  Name : A -> string;
  Shutdown : A -> A * CallResult
}.

#[export] Instance SpeechService_Shutdownable : Shutdownable Speech.SpeechService := {|
  Name := fun _ => "SpeechService"%string;
  Shutdown := fun s => let '(s, err, _) := Speech.Shutdown s in (s, Returns err)
|}.

(** The backend comes with the way its server process reacts. *)
#[export] Instance WhisperServerService_Shutdownable
  : Shutdownable (Whisper.ProcWorld * Whisper.WhisperServerService) := {|
  Name := fun _ => "WhisperServer"%string;
  Shutdown := fun '(w, s) =>
                let '(s, err, _) := Whisper.Shutdown w s in ((w, s), Returns err)
|}.

#[export] Instance StatusService_Shutdownable : Shutdownable Status.StatusService := {|
  Name := fun _ => "StatusService"%string;
  Shutdown := fun s =>
                match Status.Shutdown s with
                | Some (s, err) => (s, Returns err)
                | None => (s, Panics)
                end
|}.

(** Any other implementation, given by its name and what its [Shutdown]
    does. *)
Record Stub := mkStub { stubName : string; stubResult : CallResult }.

#[export] Instance Stub_Shutdownable : Shutdownable Stub := {|
  Name := stubName;
  Shutdown := fun s => (s, stubResult s)
|}.

(** A value of interface type: a dynamic type, its methods and the value. *)
Record Service := Pack {
  carrier : Type;
  methods : Shutdownable carrier;
  self : carrier
}.

Definition service {A : Type} `{Shutdownable A} (a : A) : Service := Pack A _ a.

(** [s.Name()] and [s.Shutdown()] by dynamic dispatch. *)
Definition nameOf (v : Service) : string := @Name _ (methods v) (self v).

Definition shutdownOf (v : Service) : Service * CallResult :=
  let '(a, r) := @Shutdown _ (methods v) (self v) in
  (Pack (carrier v) (methods v) a, r).

Inductive LogEvent :=
| LogRegistered (name : string)
| LogShuttingDownServices (n : nat)
| LogShuttingDown (name : string)
| LogErrorShuttingDown (name : string) (err : string)
| LogSuccessfullyShutDown (name : string)
| LogAllShutDown
| LogTimedOut (timeout : Z).

(** Where [shutdown()] stands; [svcs] is its local snapshot. *)
Inductive Pc :=
| PcEntry                                   (* not yet holding the lock *)
| PcSpawning (svcs : list nat) (next : nat) (* in the for loop, before iteration [next] *)
| PcWaiting (svcs : list nat)               (* in the select *)
| PcReturned (svcs : list nat).

(** A goroutine started by the loop, for the service at [ref]. *)
Inductive Worker :=
| WSpawned (ref : nat)                      (* started, [s.Shutdown()] not yet called *)
| WBlocked (ref : nat)                      (* inside a call that never returns *)
| WPanicked (ref : nat)                     (* the call panicked *)
| WDone (ref : nat).                        (* returned, logged, [wg.Done()] *)

Definition wref (w : Worker) : nat :=
  match w with WSpawned r | WBlocked r | WPanicked r | WDone r => r end.

Definition isDone (w : Worker) : bool :=
  match w with WDone _ => true | _ => false end.

Definition isSpawned (w : Worker) : bool :=
  match w with WSpawned _ => true | _ => false end.

(** The coordinator, the services it points to, and the goroutines of one
    call of [shutdown()].  Services are pointers in Go: [heap] holds them
    and [services] holds references into it. *)
Record State := mkState {
  heap : list Service;
  services : list nat;                      (* gs.services *)
  timeout : Z;                              (* gs.timeout *)
  pc : Pc;
  workers : list Worker;
  doneChan : bool;                          (* [done] is closed *)
  calls : list nat;                         (* positions of the snapshot whose Shutdown was called *)
  log : list LogEvent;
  crashed : bool                            (* a goroutine panicked *)
}.

(** [NewGracefulShutdown(timeout)] over a heap of services, before
    [shutdown()] is called. *)
Definition NewGracefulShutdown (h : list Service) (t : Z) : State :=
  mkState h [] t PcEntry [] false [] [] false.

Inductive Action :=
| ARegister (ref : nat)     (* gs.Register(svc), from any goroutine *)
| AMain                     (* the next step of shutdown() before its select *)
| AWorker (i : nat)         (* goroutine [i] calls Shutdown and logs the result *)
| AWaiter                   (* wg.Wait() returns; close(done) *)
| ASelectDone               (* the select takes <-done *)
| ASelectTimeout.           (* the select takes <-ctx.Done() *)

(** [Register]; a reference outside the heap is a nil interface, and
    [svc.Name()] on it panics. *)
Definition Register (ref : nat) (st : State) : State :=
  match heap st !! ref with
  | Some v =>
    mkState (heap st) (services st ++ [ref]) (timeout st) (pc st) (workers st)
      (doneChan st) (calls st) (log st ++ [LogRegistered (nameOf v)]) (crashed st)
  | None =>
    mkState (heap st) (services st ++ [ref]) (timeout st) (pc st) (workers st)
      (doneChan st) (calls st) (log st) true
  end.

(** The steps of [shutdown()] up to its select. *)
Definition mainStep (st : State) : State :=
  match pc st with
  | PcEntry =>
    let svcs := services st in              (* copy(svcs, gs.services) under the lock *)
    if (length svcs =? 0)%nat then
      mkState (heap st) (services st) (timeout st) (PcReturned svcs) (workers st)
        (doneChan st) (calls st) (log st) (crashed st)
    else
      mkState (heap st) (services st) (timeout st) (PcSpawning svcs 0) (workers st)
        (doneChan st) (calls st) (log st ++ [LogShuttingDownServices (length svcs)])
        (crashed st)
  | PcSpawning svcs next =>
    match svcs !! next with
    | Some ref =>                            (* go func(s Shutdownable) {...}(svc) *)
      mkState (heap st) (services st) (timeout st) (PcSpawning svcs (S next))
        (workers st ++ [WSpawned ref]) (doneChan st) (calls st) (log st) (crashed st)
    | None =>                                (* loop over; start the waiter, enter the select *)
      mkState (heap st) (services st) (timeout st) (PcWaiting svcs) (workers st)
        (doneChan st) (calls st) (log st) (crashed st)
    end
  | _ => st
  end.

(** The body of a worker goroutine. *)
Definition workerStep (i : nat) (st : State) : State :=
  match workers st !! i with
  | Some (WSpawned ref) =>
    match heap st !! ref with
    | None =>                                (* s.Name() on a nil interface *)
      mkState (heap st) (services st) (timeout st) (pc st) (workers st)
        (doneChan st) (calls st) (log st) true
    | Some v =>
      let name := nameOf v in
      let '(v', r) := shutdownOf v in
      let h := <[ref := v']> (heap st) in
      let lg := log st ++ [LogShuttingDown name] in
      let cs := calls st ++ [i] in
      match r with
      | Returns (Some err) =>
        mkState h (services st) (timeout st) (pc st) (<[i := WDone ref]> (workers st))
          (doneChan st) cs (lg ++ [LogErrorShuttingDown name err]) (crashed st)
      | Returns None =>
        mkState h (services st) (timeout st) (pc st) (<[i := WDone ref]> (workers st))
          (doneChan st) cs (lg ++ [LogSuccessfullyShutDown name]) (crashed st)
      | BlocksForever =>
        mkState h (services st) (timeout st) (pc st) (<[i := WBlocked ref]> (workers st))
          (doneChan st) cs lg (crashed st)
      | Panics =>
        mkState h (services st) (timeout st) (pc st) (<[i := WPanicked ref]> (workers st))
          (doneChan st) cs lg true
      end
    end
  | _ => st
  end.

(** [wg.Wait(); close(done)]: the wait group was set to [len(svcs)]. *)
Definition waiterStep (st : State) : State :=
  match pc st with
  | PcWaiting svcs =>
    if forallb isDone (workers st) && negb (doneChan st) then
      mkState (heap st) (services st) (timeout st) (pc st) (workers st)
        true (calls st) (log st) (crashed st)
    else st
  | _ => st
  end.

Definition selectDone (st : State) : State :=
  match pc st with
  | PcWaiting svcs =>
    if doneChan st then
      mkState (heap st) (services st) (timeout st) (PcReturned svcs) (workers st)
        (doneChan st) (calls st) (log st ++ [LogAllShutDown]) (crashed st)
    else st
  | _ => st
  end.

Definition selectTimeout (st : State) : State :=
  match pc st with
  | PcWaiting svcs =>
    mkState (heap st) (services st) (timeout st) (PcReturned svcs) (workers st)
      (doneChan st) (calls st) (log st ++ [LogTimedOut (timeout st)]) (crashed st)
  | _ => st
  end.

(** One scheduled step; a step that is not enabled, or any step after a
    panic, leaves the state as it is. *)
Definition step (a : Action) (st : State) : State :=
  if crashed st then st
  else
    match a with
    | ARegister ref => Register ref st
    | AMain => mainStep st
    | AWorker i => workerStep i st
    | AWaiter => waiterStep st
    | ASelectDone => selectDone st
    | ASelectTimeout => selectTimeout st
    end.

Definition run (sched : list Action) (st : State) : State :=
  fold_left (fun st a => step a st) sched st.

(** The snapshot [svcs], once [shutdown()] has taken it. *)
Definition snapshot (st : State) : option (list nat) :=
  match pc st with
  | PcEntry => None
  | PcSpawning svcs _ | PcWaiting svcs | PcReturned svcs => Some svcs
  end.

Definition returned (st : State) : bool :=
  match pc st with PcReturned _ => true | _ => false end.

(** Before [shutdown()] takes the lock nothing of it exists. *)
Definition notEntered (st : State) : Prop :=
  pc st = PcEntry -> workers st = [] /\ calls st = [].

(** The goroutines started so far are those of the first entries of the
    snapshot, in order, and the loop counter agrees with their number. *)
Definition placed (svcs : list nat) (st : State) : Prop :=
  snapshot st = Some svcs
  /\ wref <$> workers st = take (length (workers st)) svcs
  /\ match pc st with
     | PcEntry => False
     | PcSpawning _ next => length (workers st) = next /\ (next <= length svcs)%nat
     | PcWaiting _ | PcReturned _ => length (workers st) = length svcs
     end.

(** The calls made are those of the goroutines that are past their call,
    one each. *)
Definition accounted (st : State) : Prop :=
  NoDup (calls st)
  /\ forall i, i ∈ calls st <-> exists w, workers st !! i = Some w /\ isSpawned w = false.

(** [shutdown()] is past its loop: every goroutine has been started. *)
Definition spawnedAll (st : State) : bool :=
  match pc st with PcWaiting _ | PcReturned _ => true | _ => false end.

(** Three services, the second of which never returns from [Shutdown], and
    a late one; a schedule in which it is registered after the snapshot and
    the select times out. *)
Definition threeServices : list Service :=
  [service (mkStub "a" (Returns None)); service (mkStub "b" BlocksForever);
   service (mkStub "c" (Returns (Some "failed"%string)));
   service (mkStub "late" (Returns None))].

Definition registerThree : list Action := [ARegister 0; ARegister 1; ARegister 2].

(** The services of [main], in the order it registers them, and a pass of
    [shutdown()] in which every goroutine runs before the select. *)
Definition conchServices : list Service :=
  [service Status.NewStatusService;
   service (Whisper.mkProcWorld true true true true true, Whisper.runningService 4242);
   service (Speech.startedService 2)].

Definition wholePass : list Action :=
  [AMain; AMain; AMain; AMain; AMain; AWorker 0; AWorker 1; AWorker 2; AWaiter; ASelectDone].

(** [shutdown()] is called once more after it returned. *)
Definition calledAgain (st : State) : State :=
  mkState (heap st) (services st) (timeout st) PcEntry [] false [] (log st) (crashed st).

Definition passWithLateRegister : list Action :=
  [ARegister 3; AMain; AWorker 0; AMain; AMain; AWorker 2; AWorker 1; AMain;
   AWaiter; ASelectDone; ASelectTimeout].

(** The two lines with which [shutdown()] can end. *)
Definition isAllDown (e : LogEvent) : bool :=
  match e with LogAllShutDown => true | _ => false end.

Definition isTimedOut (e : LogEvent) : bool :=
  match e with LogTimedOut _ => true | _ => false end.

Definition saysAllDown (st : State) : bool := existsb isAllDown (log st).
Definition saysTimedOut (st : State) : bool := existsb isTimedOut (log st).

(** What holds between the steps of one call of [shutdown()]: [done] is
    closed only after the loop and when every goroutine has finished, an
    end line is logged only on return, and the two exclude each other. *)
Definition settled (st : State) : Prop :=
  (doneChan st = true -> spawnedAll st = true /\ forallb isDone (workers st) = true)
  /\ (saysAllDown st = true -> doneChan st = true)
  /\ (if returned st then saysAllDown st && saysTimedOut st = false
      else saysAllDown st = false /\ saysTimedOut st = false)
  /\ match pc st with
     | PcEntry => workers st = []
     | PcSpawning svcs next => length (workers st) = next /\ (next <= length svcs)%nat
     | PcWaiting svcs | PcReturned svcs => length (workers st) = length svcs
     end.

End Common.

(** ** Package terminal: the model of the user interface *)

Module Terminal.

(** The messages [Update] tells apart; a key message carries [msg.String()]. *)
Inductive Msg :=
| KeyMsg (key : string)
| statusUpdateMsg (text : string)
| transcriptionMsg (text : string)
| errMsg (err : string)
| WindowSizeMsg (Width Height : Z)
| OtherMsg.

(** The commands [Update] returns, as the list given to [tea.Batch]. *)
Inductive Cmd := Quit | CheckForRecording | CheckStatus.

(** The state of [terminalModel] that [Update] reads and writes.  A
    [time.Time] is its reading in nanoseconds, [None] for the zero value. *)
Record terminalModel := mkModel {
  statusMessage : string;
  clipboardText : string;
  transcriptions : list string;
  width : Z;
  height : Z;
  lastCtrlC : option Z
}.

Definition set_statusMessage x m :=
  mkModel x (clipboardText m) (transcriptions m) (width m) (height m) (lastCtrlC m).
Definition set_clipboardText x m :=
  mkModel (statusMessage m) x (transcriptions m) (width m) (height m) (lastCtrlC m).
Definition set_transcriptions x m :=
  mkModel (statusMessage m) (clipboardText m) x (width m) (height m) (lastCtrlC m).
Definition set_size w h m :=
  mkModel (statusMessage m) (clipboardText m) (transcriptions m) w h (lastCtrlC m).
Definition set_lastCtrlC x m :=
  mkModel (statusMessage m) (clipboardText m) (transcriptions m) (width m) (height m) x.

(** The model [NewTerminalApp] builds. *)
Definition NewTerminalApp : terminalModel := mkModel "Ready" "" [] 80 24 None.

(** What the outside world answers during one [Update]: the clock at
    [time.Since] and at [time.Now], and the error of [copyToClipboard]. *)
Record World := mkWorld {
  nowSince : Z;
  nowSet : Z;
  clipboardErr : option string
}.

Definition Second : Z := 1000000000.
Definition maxDuration : Z := 9223372036854775807.
Definition minDuration : Z := -9223372036854775808.

(** [time.Since(t)]: a [Duration] saturates; the zero time lies further back
    than the longest one. *)
Definition Since (now : Z) (t : option Z) : Z :=
  match t with
  | None => maxDuration
  | Some t => Z.max minDuration (Z.min maxDuration (now - t))
  end.

(** The history update, written twice in [Update]: the text is appended
    unless it equals the last entry, and only the last 5 entries are kept. *)
Definition remember (text : string) (m : terminalModel) : terminalModel :=
  let isNew :=
    match last (transcriptions m) with
    | None => true
    | Some latest => negb (String.eqb latest text)
    end in
  if isNew then
    let ts := transcriptions m ++ [text] in
    if (5 <? length ts)%nat then set_transcriptions (drop (length ts - 5) ts) m
    else set_transcriptions ts m
  else m.

(** [Update]; [TrimSpace] is [strings.TrimSpace]. *)
Definition Update (TrimSpace : string -> string) (w : World) (msg : Msg) (m : terminalModel)
  : terminalModel * list Cmd :=
  match msg with
  | KeyMsg key =>
    if String.eqb key "ctrl+c" then
      if Since (nowSince w) (lastCtrlC m) <? Second then (m, [Quit])
      else
        (set_statusMessage "Press Ctrl+C again to exit" (set_lastCtrlC (Some (nowSet w)) m),
         [CheckStatus])
    else if String.eqb key "c" || String.eqb key "C" then
      (set_statusMessage "Clipboard cleared" (set_clipboardText "" m), [CheckStatus])
    else if String.eqb key "enter" then
      if negb (String.eqb (clipboardText m) "") then
        match clipboardErr w with
        | Some err =>
          (set_statusMessage ("Error copying to clipboard: " ++ err) m, [CheckStatus])
        | None =>
          (remember (clipboardText m) (set_statusMessage "Copied to clipboard" m),
           [CheckStatus])
        end
      else (m, [CheckStatus])
    else (m, [CheckStatus])
  | statusUpdateMsg text => (set_statusMessage text m, [])
  | transcriptionMsg text =>
    let text := TrimSpace text in
    if negb (String.eqb text "") then
      (remember text (set_clipboardText text m), [CheckForRecording; CheckStatus])
    else (m, [CheckForRecording; CheckStatus])
  | errMsg err => (set_statusMessage ("Error: " ++ err) m, [CheckForRecording; CheckStatus])
  | WindowSizeMsg Width Height => (set_size Width Height m, [CheckStatus])
  | OtherMsg => (m, [CheckStatus])
  end.

(** The messages of a session, each with what the world answers, handled in
    turn from the new model. *)
Definition session (TrimSpace : string -> string) (msgs : list (World * Msg)) : terminalModel :=
  fold_left (fun m wm => fst (Update TrimSpace (fst wm) (snd wm) m)) msgs NewTerminalApp.

Definition isCtrlC (msg : Msg) : bool :=
  match msg with KeyMsg key => String.eqb key "ctrl+c" | _ => false end.

(** No entry of the history equals the one before it. *)
Fixpoint noRepeat (ts : list string) : Prop :=
  match ts with
  | a :: (b :: _) as rest => a <> b /\ noRepeat rest
  | _ => True
  end.

(** An ASCII version of [strings.TrimSpace] for examples: blanks at both
    ends are removed. *)
Fixpoint trimLeft (s : string) : string :=
  match s with
  | String " "%char rest => trimLeft rest
  | _ => s
  end.

Fixpoint reverse (s acc : string) : string :=
  match s with
  | EmptyString => acc
  | String c rest => reverse rest (String c acc)
  end.

Definition trimBlanks (s : string) : string :=
  reverse (trimLeft (reverse (trimLeft s) "")) "".

(** The model between two messages: the history has at most 5 entries, none
    empty and none equal to the one before it, and the text to copy, when
    there is one, is the latest entry. *)
Definition tidy (m : terminalModel) : Prop :=
  (length (transcriptions m) <= 5)%nat
  /\ Forall (fun t => t <> ""%string) (transcriptions m)
  /\ noRepeat (transcriptions m)
  /\ (clipboardText m = ""%string \/ last (transcriptions m) = Some (clipboardText m)).

End Terminal.

(** * Properties *)

Import Speech.

(** ** Channels *)

Section ChanFacts.
Context {A : Type}.

Lemma try_send_wf (c : chan A) (a : A) : Chan.wf c -> Chan.wf (fst (try_send c a)).
Proof.
  unfold Chan.wf, try_send. intros H.
  destruct (Nat.ltb_spec (length (buf c)) (cap c)); simpl; [| exact H].
  rewrite length_app. simpl. lia.
Qed.

Lemma try_send_cap (c : chan A) (a : A) : cap (fst (try_send c a)) = cap c.
Proof. unfold try_send. destruct (_ <? _)%nat; reflexivity. Qed.

Lemma try_recv_wf (c : chan A) : Chan.wf c -> Chan.wf (fst (try_recv c)).
Proof.
  unfold Chan.wf, try_recv. intros H. destruct (buf c) eqn:E; simpl in *; [| lia].
  rewrite E. exact H.
Qed.

Lemma try_recv_cap (c : chan A) : cap (fst (try_recv c)) = cap c.
Proof. unfold try_recv. destruct (buf c); reflexivity. Qed.

(** A send on a full channel changes nothing. *)
Lemma try_send_full (c : chan A) (a : A) :
  (cap c <= length (buf c))%nat -> try_send c a = (c, false).
Proof.
  unfold try_send. intros H. destruct (Nat.ltb_spec (length (buf c)) (cap c)); [lia | reflexivity].
Qed.

Lemma try_send_room (c : chan A) (a : A) :
  (length (buf c) < cap c)%nat -> try_send c a = (Chan.Mk (cap c) (buf c ++ [a]), true).
Proof.
  unfold try_send. intros H. destruct (Nat.ltb_spec (length (buf c)) (cap c)); [reflexivity | lia].
Qed.

Lemma try_recv_empty (c : chan A) : buf c = [] -> try_recv c = (c, None).
Proof. unfold try_recv. intros ->. reflexivity. Qed.

End ChanFacts.

(** ** The capture loop *)

Section Capture.

Example decode_frame : bytesToSamples [232; 3; 255; 255; 0; 128; 7] = [1000; -1; -32768].
Proof. reflexivity. Qed.

Example level_of_frame : averageLevel [100; -101; 102] = Some 101.
Proof. reflexivity. Qed.

(** A read of a single byte has no whole sample: the division panics. *)
Example one_byte_panics :
  captureIter (startedService 2) (mkLocals 0 false) (DequeueOk [7]) = IterPanic.
Proof. reflexivity. Qed.

#[local] Arguments VadThreshold : simpl never.
#[local] Arguments VadSilenceFrames : simpl never.
#[local] Arguments AudioFrequency : simpl never.

Lemma offers_app (a b : list Event) : offers (a ++ b) = offers a ++ offers b.
Proof.
  induction a as [| e a IH]; simpl; [reflexivity |].
  destruct e; simpl; rewrite ?IH; reflexivity.
Qed.

Lemma voiced_level (f : list Z) :
  voiced f = true ->
  exists average, averageLevel (bytesToSamples f) = Some average
                  /\ (VadThreshold <? average) = true /\ (length f =? 0)%nat = false.
Proof.
  unfold voiced. destruct (averageLevel (bytesToSamples f)) as [a |] eqn:E; [| discriminate].
  intros H. exists a. repeat split; try assumption.
  destruct f; [discriminate E | reflexivity].
Qed.

Lemma silent_level (f : list Z) :
  silent f = true ->
  exists average, averageLevel (bytesToSamples f) = Some average
                  /\ (VadThreshold <? average) = false /\ (length f =? 0)%nat = false.
Proof.
  unfold silent. destruct (averageLevel (bytesToSamples f)) as [a |] eqn:E; [| discriminate].
  intros H. exists a. repeat split; try assumption.
  - destruct (VadThreshold <? a); [discriminate H | reflexivity].
  - destruct f; [discriminate E | reflexivity].
Qed.

Lemma goesOn_recState s acc : goesOn s -> goesOn (recState s acc).
Proof. intros H. exact H. Qed.

Ltac enter_iter Hs :=
  unfold captureIter;
  let Hl := fresh "Hl" in let Hc := fresh "Hc" in
  destruct Hs as [Hl Hc];
  rewrite (try_recv_empty _ Hc); rewrite Hl; simpl negb; cbv iota.

(** A silent frame while idle changes nothing. *)
Lemma iter_idle_silent s sf f :
  goesOn s -> silent f = true ->
  captureIter s (mkLocals sf false) (DequeueOk f) = IterContinue s (mkLocals sf false) [Sleep 10].
Proof.
  intros Hs Hf. destruct (silent_level f Hf) as (a & Ha & Hlt & Hne).
  enter_iter Hs. rewrite Hne, Ha. unfold detectStart, recordFrame. simpl. rewrite ?Hlt. simpl.
  reflexivity.
Qed.

(** A voiced frame while idle starts a segment with that frame. *)
Lemma iter_idle_voiced s sf f :
  goesOn s -> voiced f = true ->
  captureIter s (mkLocals sf false) (DequeueOk f)
  = IterContinue (recState s (bytesToSamples f)) (mkLocals 0 true) [Sleep 10].
Proof.
  intros Hs Hf. destruct (voiced_level f Hf) as (a & Ha & Hlt & Hne).
  enter_iter Hs. rewrite Hne, Ha. unfold detectStart, recordFrame. simpl. rewrite ?Hlt. simpl.
  reflexivity.
Qed.

(** A voiced frame inside a segment is appended and resets the count. *)
Lemma iter_rec_voiced s acc sf f :
  goesOn s -> voiced f = true ->
  captureIter (recState s acc) (mkLocals sf true) (DequeueOk f)
  = IterContinue (recState s (acc ++ bytesToSamples f)) (mkLocals 0 true) [Sleep 10].
Proof.
  intros Hs Hf. destruct (voiced_level f Hf) as (a & Ha & Hlt & Hne).
  pose proof (goesOn_recState s acc Hs) as Hr.
  enter_iter Hr. rewrite Hne, Ha. unfold detectStart, recordFrame. simpl. rewrite ?Hlt. simpl.
  reflexivity.
Qed.

(** A silent frame inside a segment is appended too; below the limit the
    segment stays open. *)
Lemma iter_rec_silent s acc sf f :
  goesOn s -> silent f = true -> sf + 1 < VadSilenceFrames ->
  captureIter (recState s acc) (mkLocals sf true) (DequeueOk f)
  = IterContinue (recState s (acc ++ bytesToSamples f)) (mkLocals (sf + 1) true) [Sleep 10].
Proof.
  intros Hs Hf Hsf. destruct (silent_level f Hf) as (a & Ha & Hlt & Hne).
  pose proof (goesOn_recState s acc Hs) as Hr.
  enter_iter Hr. rewrite Hne, Ha. unfold detectStart, recordFrame. simpl. rewrite ?Hlt. simpl.
  destruct (Z.leb_spec VadSilenceFrames (sf + 1)); [lia | reflexivity].
Qed.

(** The silent frame that reaches the limit closes the segment: the segment
    is offered when it has more than [AudioFrequency / 4] samples. *)
Lemma iter_rec_close_long s acc sf f :
  goesOn s -> silent f = true -> VadSilenceFrames <= sf + 1 ->
  AudioFrequency / 4 < Z.of_nat (length (acc ++ bytesToSamples f)) ->
  let u := mkAudioData (acc ++ bytesToSamples f) (SampleRate (audioData s)) in
  let cs := try_send (recordingStopped s) u in
  captureIter (recState s acc) (mkLocals sf true) (DequeueOk f)
  = IterContinue (closedState s (acc ++ bytesToSamples f) (fst cs)) (mkLocals 0 false)
      ((if snd cs then [ChanOffer u true; LogEndOfSpeech (length (acc ++ bytesToSamples f))]
        else [ChanOffer u false; LogChannelFull]) ++ [Sleep 10]).
Proof.
  intros Hs Hf Hsf Hlen u cs. destruct (silent_level f Hf) as (a & Ha & Hlt & Hne).
  pose proof (goesOn_recState s acc Hs) as Hr.
  enter_iter Hr. rewrite Hne, Ha. unfold detectStart, recordFrame. simpl. rewrite ?Hlt. simpl.
  destruct (Z.leb_spec VadSilenceFrames (sf + 1)); [| lia].
  destruct (Z.ltb_spec (AudioFrequency / 4) (Z.of_nat (length (acc ++ bytesToSamples f))));
    [| lia].
  subst cs u. destruct (try_send _ _) as [c sent]. simpl. destruct sent; reflexivity.
Qed.

Lemma iter_rec_close_short s acc sf f :
  goesOn s -> silent f = true -> VadSilenceFrames <= sf + 1 ->
  Z.of_nat (length (acc ++ bytesToSamples f)) <= AudioFrequency / 4 ->
  captureIter (recState s acc) (mkLocals sf true) (DequeueOk f)
  = IterContinue (set_isRecording false (recState s (acc ++ bytesToSamples f)))
      (mkLocals 0 false) [LogTooShort; Sleep 10].
Proof.
  intros Hs Hf Hsf Hlen. destruct (silent_level f Hf) as (a & Ha & Hlt & Hne).
  pose proof (goesOn_recState s acc Hs) as Hr.
  enter_iter Hr. rewrite Hne, Ha. unfold detectStart, recordFrame. simpl. rewrite ?Hlt. simpl.
  destruct (Z.leb_spec VadSilenceFrames (sf + 1)); [| lia].
  destruct (Z.ltb_spec (AudioFrequency / 4) (Z.of_nat (length (acc ++ bytesToSamples f))));
    [lia | reflexivity].
Qed.

Lemma samplesOf_app (a b : list (list Z)) : samplesOf (a ++ b) = samplesOf a ++ samplesOf b.
Proof. unfold samplesOf. rewrite map_app, concat_app. reflexivity. Qed.

Lemma samplesOf_cons (f : list Z) (fs : list (list Z)) :
  samplesOf (f :: fs) = bytesToSamples f ++ samplesOf fs.
Proof. reflexivity. Qed.

(** Silent frames while idle leave the service as it is. *)
Lemma loop_idle_silent s sf sil rest acc :
  goesOn s -> Forall (fun f => silent f = true) sil ->
  exists acc',
    captureLoop (map DequeueOk sil ++ rest) s (mkLocals sf false) acc
    = captureLoop rest s (mkLocals sf false) acc'
    /\ offers acc' = offers acc.
Proof.
  intros Hs Hsil. revert acc. induction Hsil as [| f sil Hf _ IH]; intros acc.
  - exists acc. split; reflexivity.
  - simpl. rewrite (iter_idle_silent s sf f Hs Hf).
    destruct (IH (acc ++ [Sleep 10])) as (acc' & -> & Ho).
    exists acc'. split; [reflexivity |]. rewrite Ho, offers_app. simpl. apply app_nil_r.
Qed.

(** Voiced frames inside a segment are all appended. *)
Lemma loop_rec_voiced s a vs rest acc :
  goesOn s -> Forall (fun f => voiced f = true) vs ->
  exists acc',
    captureLoop (map DequeueOk vs ++ rest) (recState s a) (mkLocals 0 true) acc
    = captureLoop rest (recState s (a ++ samplesOf vs)) (mkLocals 0 true) acc'
    /\ offers acc' = offers acc.
Proof.
  intros Hs Hvs. revert a acc. induction Hvs as [| f vs Hf _ IH]; intros a acc.
  - exists acc. unfold samplesOf. simpl. rewrite app_nil_r. split; reflexivity.
  - simpl. rewrite (iter_rec_voiced s a 0 f Hs Hf).
    destruct (IH (a ++ bytesToSamples f) (acc ++ [Sleep 10])) as (acc' & -> & Ho).
    exists acc'. rewrite samplesOf_cons, app_assoc. split; [reflexivity |].
    rewrite Ho, offers_app. simpl. apply app_nil_r.
Qed.

(** Silent frames inside a segment are appended as well, as long as the
    count stays below the limit. *)
Lemma loop_rec_silent s a sf ss rest acc :
  goesOn s -> Forall (fun f => silent f = true) ss ->
  sf + Z.of_nat (length ss) < VadSilenceFrames ->
  exists acc',
    captureLoop (map DequeueOk ss ++ rest) (recState s a) (mkLocals sf true) acc
    = captureLoop rest (recState s (a ++ samplesOf ss))
        (mkLocals (sf + Z.of_nat (length ss)) true) acc'
    /\ offers acc' = offers acc.
Proof.
  intros Hs Hss. revert a sf acc. induction Hss as [| f ss Hf _ IH]; intros a sf acc Hsf.
  - exists acc. unfold samplesOf. simpl. rewrite app_nil_r, Z.add_0_r. split; reflexivity.
  - simpl length in *. simpl map. simpl app. simpl captureLoop.
    rewrite (iter_rec_silent s a sf f Hs Hf) by lia.
    destruct (IH (a ++ bytesToSamples f) (sf + 1) (acc ++ [Sleep 10])) as (acc' & -> & Ho);
      [lia |].
    exists acc'. rewrite samplesOf_cons, app_assoc.
    replace (sf + 1 + Z.of_nat (length ss)) with (sf + Z.of_nat (S (length ss))) by lia.
    split; [reflexivity |]. rewrite Ho, offers_app. simpl. apply app_nil_r.
Qed.

Lemma goesOn_closedState s acc c : goesOn s -> goesOn (closedState s acc c).
Proof. intros H. exact H. Qed.

(** A whole segment: a first voiced frame, more voiced frames, and as many
    silent frames as the limit.  The segment holds all of these frames; it
    is offered to the channel when it has more than [AudioFrequency / 4]
    samples. *)
Lemma loop_segment s sf v vs ss rest acc :
  goesOn s ->
  voiced v = true -> Forall (fun f => voiced f = true) vs ->
  Forall (fun f => silent f = true) ss ->
  Z.of_nat (length ss) = VadSilenceFrames ->
  let seg := samplesOf ((v :: vs) ++ ss) in
  let u := mkAudioData seg (SampleRate (audioData s)) in
  let cs := try_send (recordingStopped s) u in
  exists acc',
    captureLoop (map DequeueOk ((v :: vs) ++ ss) ++ rest) s (mkLocals sf false) acc
    = (if AudioFrequency / 4 <? Z.of_nat (length seg)
       then captureLoop rest (closedState s seg (fst cs)) (mkLocals 0 false) acc'
       else captureLoop rest (set_isRecording false (recState s seg)) (mkLocals 0 false) acc')
    /\ offers acc'
       = offers acc ++ (if AudioFrequency / 4 <? Z.of_nat (length seg)
                        then [(u, snd cs)] else []).
Proof.
  intros Hs Hv Hvs Hss Hlen seg u cs.
  destruct (exists_last (l := ss)) as (ss9 & t & Ess).
  { intros ->. simpl in Hlen. unfold VadSilenceFrames in Hlen. lia. }
  subst ss. rewrite Forall_app in Hss. destruct Hss as [Hss9 Ht].
  apply Forall_inv in Ht. rewrite length_app in Hlen. simpl in Hlen.
  assert (Eseg : seg = (bytesToSamples v ++ samplesOf vs ++ samplesOf ss9) ++ bytesToSamples t).
  { subst seg. rewrite !samplesOf_app, samplesOf_cons.
    replace (samplesOf [t]) with (bytesToSamples t) by (symmetry; apply app_nil_r).
    rewrite <- !app_assoc. reflexivity. }
  simpl map. simpl app. simpl captureLoop.
  rewrite (iter_idle_voiced s sf v Hs Hv).
  rewrite !map_app, <- !app_assoc.
  destruct (loop_rec_voiced s (bytesToSamples v) vs
              (map DequeueOk ss9 ++ map DequeueOk [t] ++ rest) (acc ++ [Sleep 10]) Hs Hvs)
    as (acc1 & -> & Ho1).
  destruct (loop_rec_silent s (bytesToSamples v ++ samplesOf vs) 0 ss9
              (map DequeueOk [t] ++ rest) acc1 Hs Hss9) as (acc2 & -> & Ho2); [lia |].
  simpl map. simpl app. simpl captureLoop.
  assert (Hoff : offers acc2 = offers acc).
  { rewrite Ho2, Ho1, offers_app. simpl. apply app_nil_r. }
  rewrite <- app_assoc.
  destruct (Z.ltb_spec (AudioFrequency / 4) (Z.of_nat (length seg))) as [Hlong | Hshort].
  - rewrite iter_rec_close_long; try assumption; [| lia | rewrite <- Eseg; exact Hlong].
    rewrite <- Eseg. fold u. fold cs. eexists. split; [reflexivity |].
    rewrite !offers_app, Hoff. destruct (snd cs) eqn:Esent; simpl; rewrite ?app_nil_r;
      reflexivity.
  - rewrite iter_rec_close_short; try assumption; [| lia | rewrite <- Eseg; exact Hshort].
    rewrite <- Eseg. eexists. split; [reflexivity |].
    rewrite !offers_app, Hoff. simpl. rewrite !app_nil_r. reflexivity.
Qed.

Lemma length_samplesOf_app_le (a b : list (list Z)) :
  (length (samplesOf a) <= length (samplesOf (a ++ b)))%nat.
Proof. rewrite samplesOf_app, length_app. lia. Qed.

(** C1, as the code has it.  For silent frames, then voiced frames with more
    than a quarter second of samples, then at least [VadSilenceFrames]
    silent frames, the loop offers exactly one utterance, and the channel
    takes it.  Its samples are those of the voiced frames followed by those
    of the first [VadSilenceFrames] silent frames after them: the leading
    silent frames and the silent frames past the limit are left out, the
    silence that closes the segment is not. *)
Theorem C1_utterance_is_voiced_frames_and_silence_tail
  (s : SpeechService) (sil vs ts : list (list Z)) :
  goesOn s ->
  buf (recordingStopped s) = [] -> (0 < cap (recordingStopped s))%nat ->
  Forall (fun f => silent f = true) sil ->
  Forall (fun f => voiced f = true) vs ->
  Forall (fun f => silent f = true) ts ->
  AudioFrequency / 4 < Z.of_nat (length (samplesOf vs)) ->
  VadSilenceFrames <= Z.of_nat (length ts) ->
  let tail := take (Z.to_nat VadSilenceFrames) ts in
  let u := mkAudioData (samplesOf (vs ++ tail)) (SampleRate (audioData s)) in
  exists s' out,
    captureAudio (map DequeueOk (sil ++ vs ++ ts)) s = Running s' (mkLocals 0 false) out
    /\ offers out = [(u, true)]
    /\ buf (recordingStopped s') = [u].
Proof.
  intros Hs Hbuf Hcap Hsil Hvs Hts Hlong Hlen tail u.
  destruct vs as [| v vs].
  { vm_compute in Hlong. discriminate Hlong. }
  apply Forall_cons in Hvs. destruct Hvs as [Hv Hvs].
  assert (Htail : Z.of_nat (length tail) = VadSilenceFrames).
  { subst tail. rewrite length_take. unfold VadSilenceFrames in *. lia. }
  assert (Hsent : try_send (recordingStopped s) u
                  = (Chan.Mk (cap (recordingStopped s)) [u], true)).
  { rewrite try_send_room by (rewrite Hbuf; simpl; lia). rewrite Hbuf. reflexivity. }
  unfold captureAudio.
  assert (Ets : sil ++ (v :: vs) ++ ts
                = sil ++ (v :: vs) ++ tail ++ drop (Z.to_nat VadSilenceFrames) ts)
    by (unfold tail; rewrite take_drop; reflexivity).
  rewrite Ets.
  rewrite !map_app.
  destruct (loop_idle_silent s 0 sil
              (map DequeueOk (v :: vs) ++ map DequeueOk tail
                 ++ map DequeueOk (drop (Z.to_nat VadSilenceFrames) ts))
              [SdlPauseAudioDevice (deviceID s) false] Hs Hsil) as (acc1 & -> & Ho1).
  rewrite app_assoc, <- map_app.
  destruct (loop_segment s 0 v vs tail
              (map DequeueOk (drop (Z.to_nat VadSilenceFrames) ts)) acc1 Hs Hv Hvs)
    as (acc2 & Hrun & Ho2).
  { apply Forall_take. exact Hts. }
  { exact Htail. }
  fold u in Hrun, Ho2. rewrite Hsent in Hrun, Ho2. simpl fst in Hrun. simpl snd in Ho2.
  assert (Hseg : (AudioFrequency / 4 <? Z.of_nat (length (samplesOf ((v :: vs) ++ tail))))
                 = true).
  { apply Z.ltb_lt. pose proof (length_samplesOf_app_le (v :: vs) tail). lia. }
  rewrite Hseg in Hrun, Ho2. rewrite Hrun.
  destruct (loop_idle_silent
              (closedState s (samplesOf ((v :: vs) ++ tail))
                 (Chan.Mk (cap (recordingStopped s)) [u]))
              0 (drop (Z.to_nat VadSilenceFrames) ts) [] acc2) as (acc3 & Hrun3 & Ho3).
  { apply goesOn_closedState. exact Hs. }
  { apply Forall_drop. exact Hts. }
  rewrite app_nil_r in Hrun3. rewrite Hrun3. simpl.
  eexists _, _. split; [reflexivity |]. split; [| reflexivity].
  rewrite Ho3, Ho2, Ho1. reflexivity.
Qed.

(** The scenario of the specification on a replaying device: 20 silent, 30
    voiced and 15 silent frames of 150 samples each. *)
Lemma C1_scenario_witness :
  let sil := replicate 20 (silentFrame 150) in
  let vs := replicate 30 (voicedFrame 150) in
  let ts := replicate 15 (silentFrame 150) in
  let u := mkAudioData (samplesOf (vs ++ take 10 ts)) 16000 in
  exists s' out,
    captureAudio (map DequeueOk (sil ++ vs ++ ts)) (startedService 2)
    = Running s' (mkLocals 0 false) out
    /\ offers out = [(u, true)]
    /\ buf (recordingStopped s') = [u].
Proof.
  intros sil vs ts u.
  apply (C1_utterance_is_voiced_frames_and_silence_tail (startedService 2) sil vs ts).
  - split; reflexivity.
  - reflexivity.
  - vm_compute. lia.
  - apply Forall_replicate. vm_compute. reflexivity.
  - apply Forall_replicate. vm_compute. reflexivity.
  - apply Forall_replicate. vm_compute. reflexivity.
  - vm_compute. reflexivity.
  - vm_compute. discriminate.
Defined.

(** C1 as the specification words it fails on that scenario: the utterance
    offered is not the concatenation of the voiced frames alone. *)
Lemma C1_counterexample :
  let sil := replicate 20 (silentFrame 150) in
  let vs := replicate 30 (voicedFrame 150) in
  let ts := replicate 15 (silentFrame 150) in
  let s := startedService 2 in
  (goesOn s /\ buf (recordingStopped s) = []
   /\ Forall (fun f => silent f = true) sil
   /\ Forall (fun f => voiced f = true) vs
   /\ Forall (fun f => silent f = true) ts
   /\ AudioFrequency / 4 < Z.of_nat (length (samplesOf vs))
   /\ VadSilenceFrames <= Z.of_nat (length ts))
  /\ ~ (exists s' l' out,
          captureAudio (map DequeueOk (sil ++ vs ++ ts)) s = Running s' l' out
          /\ offers out = [(mkAudioData (samplesOf vs) (SampleRate (audioData s)), true)]).
Proof.
  intros sil vs ts s. split.
  - repeat split; try reflexivity;
      try (apply Forall_replicate; vm_compute; reflexivity).
    vm_compute. discriminate.
  - intros (s' & l' & out & Hrun & Hoff).
    assert (Hobs : offeredLengths (captureAudio (map DequeueOk (sil ++ vs ++ ts)) s)
                   = [6000]) by (vm_compute; reflexivity).
    assert (Hlen : Z.of_nat (length (samplesOf vs)) = 4500) by (vm_compute; reflexivity).
    rewrite Hrun in Hobs. unfold offeredLengths in Hobs. rewrite Hoff in Hobs.
    cbn [map fst Samples] in Hobs. rewrite Hlen in Hobs. discriminate Hobs.
Qed.

(** C2 at the floor.  Ten voiced and ten silent frames of 200 samples make
    a segment of exactly [AudioFrequency / 4] = 4000 samples, a quarter of a
    second: the loop discards it as too short and offers nothing.  With one
    more sample in the first frame the segment is offered. *)
Theorem C2_segment_of_a_quarter_second_is_discarded :
  let frames := replicate 10 (voicedFrame 200) ++ replicate 10 (silentFrame 200) in
  let longer := voicedFrame 201 :: replicate 9 (voicedFrame 200)
                  ++ replicate 10 (silentFrame 200) in
  Z.of_nat (length (samplesOf frames)) = AudioFrequency / 4
  /\ observe (captureAudio (map DequeueOk frames) (startedService 2))
     = Some ([], true, [])
  /\ observe (captureAudio (map DequeueOk longer) (startedService 2))
     = Some ([(mkAudioData (samplesOf longer) 16000, true)], false,
             [mkAudioData (samplesOf longer) 16000]).
Proof.
  intros frames longer.
  split; [vm_compute; reflexivity |]. split; vm_compute; reflexivity.
Qed.

(** What one iteration does to the hand-off channel: nothing, or one
    non-blocking send. *)
Lemma captureIter_channel s l d :
  match captureIter s l d with
  | IterContinue s' l' out =>
    (recordingStopped s' = recordingStopped s /\ offers out = [])
    \/ (exists u,
          let cs := try_send (recordingStopped s) u in
          recordingStopped s' = fst cs
          /\ offers out = [(u, snd cs)]
          /\ (snd cs = false -> In LogChannelFull out))
  | IterReturn s' out => recordingStopped s' = recordingStopped s /\ offers out = []
  | IterPanic => True
  end.
Proof.
  unfold captureIter.
  destruct (try_recv (stopListening s)) as [c [[] |]]; [split; reflexivity |].
  destruct (isListening s); simpl negb; cbv iota; [| split; reflexivity].
  destruct d as [| buffer]; [left; split; reflexivity |].
  destruct (length buffer =? 0)%nat; [left; split; reflexivity |].
  destruct (averageLevel (bytesToSamples buffer)) as [average |]; [| exact I].
  unfold detectStart, recordFrame.
  destruct (locRecording l) eqn:El; simpl negb; cbv iota.
  - rewrite El. destruct (VadThreshold <? average); [left; split; reflexivity |].
    destruct (VadSilenceFrames <=? silenceFrames l + 1); [| left; split; reflexivity].
    simpl. destruct (AudioFrequency / 4 <? _); [| left; split; reflexivity].
    destruct (try_send (recordingStopped s) _) as [c' sent] eqn:Es.
    right. eexists. cbv zeta. rewrite Es.
    destruct sent; simpl; repeat split; try reflexivity; try discriminate.
    intros _. right. left. reflexivity.
  - destruct (VadThreshold <? average) eqn:Ev.
    + simpl. left. split; reflexivity.
    + rewrite El. left. split; reflexivity.
Qed.

Lemma handoffOk_send s u :
  handoffOk s ->
  cap (fst (try_send (recordingStopped s) u)) = 1%nat
  /\ (length (buf (fst (try_send (recordingStopped s) u))) <= 1)%nat.
Proof.
  intros [Hcap Hlen]. split.
  - rewrite try_send_cap. exact Hcap.
  - pose proof (try_send_wf (recordingStopped s) u) as H. unfold Chan.wf in H.
    rewrite try_send_cap, Hcap in H. apply H. exact Hlen.
Qed.

Lemma captureIter_handoff s l d :
  handoffOk s ->
  match captureIter s l d with
  | IterContinue s' _ _ | IterReturn s' _ => handoffOk s'
  | IterPanic => True
  end.
Proof.
  intros H. pose proof (captureIter_channel s l d) as Hc.
  destruct (captureIter s l d) as [s' l' out | s' out |]; [| | exact I].
  - cbv zeta in Hc. destruct Hc as [[Hu _] | (u & Hu & _)].
    + unfold handoffOk. rewrite Hu. exact H.
    + unfold handoffOk. rewrite Hu. apply handoffOk_send. exact H.
  - destruct Hc as [Hu _]. unfold handoffOk. rewrite Hu. exact H.
Qed.

Lemma StopListening_handoff s :
  recordingStopped (fst (fst (StopListening s))) = recordingStopped s.
Proof. unfold StopListening. destruct (isListening s); reflexivity. Qed.

Lemma Initialize_handoff ok dev s :
  recordingStopped (fst (Initialize ok dev s)) = recordingStopped s.
Proof.
  unfold Initialize. destruct (isInitialized s), ok, dev; reflexivity.
Qed.

Lemma StartListening_handoff s :
  recordingStopped (fst (fst (StartListening s))) = recordingStopped s.
Proof.
  unfold StartListening. destruct (isInitialized s), (isListening s); reflexivity.
Qed.

Lemma Cleanup_handoff s :
  recordingStopped (fst (fst (Cleanup s))) = recordingStopped s.
Proof.
  unfold Cleanup, StopListening. simpl. destruct (isListening s); reflexivity.
Qed.

Lemma waitPoll_handoff s : handoffOk s -> handoffOk (fst (waitPoll s)).
Proof.
  intros H. pose proof H as [Hcap Hlen]. unfold waitPoll.
  destruct (isShutdown s); [exact H |].
  unfold try_recv. destruct (buf (recordingStopped s)) as [| a rest].
  - destruct (isListening s); exact H.
  - split; simpl; [exact Hcap |]. simpl in Hlen. lia.
Qed.

Lemma sysStep_handoff a y y' :
  handoffOk (svc y) -> sysStep a y = Some y' -> handoffOk (svc y').
Proof.
  intros H. destruct a as [ok dev | | g d | | | b |]; simpl.
  - intros [= <-]. unfold handoffOk. simpl. rewrite Initialize_handoff. exact H.
  - pose proof (StartListening_handoff (svc y)) as E.
    destruct (StartListening (svc y)) as [[s err] out]. simpl in E.
    intros [= <-]. unfold handoffOk. simpl. rewrite E. exact H.
  - destruct (goroutines y !! g) as [l |]; [| intros [= <-]; exact H].
    pose proof (captureIter_handoff (svc y) l d H) as Hi.
    destruct (captureIter (svc y) l d) as [s l' out | s out |]; [| | discriminate].
    + intros [= <-]. exact Hi.
    + intros [= <-]. exact Hi.
  - pose proof (waitPoll_handoff (svc y) H) as Hw.
    destruct (waitPoll (svc y)) as [s [a | e |]]; intros [= <-]; exact Hw.
  - pose proof (StopListening_handoff (svc y)) as E.
    destruct (StopListening (svc y)) as [[s err] out]. simpl in E.
    intros [= <-]. unfold handoffOk. simpl. rewrite E. exact H.
  - intros [= <-]. exact H.
  - pose proof (Cleanup_handoff (svc y)) as E.
    destruct (Cleanup (svc y)) as [[s err] out]. simpl in E.
    intros [= <-]. unfold handoffOk. simpl. rewrite E. exact H.
Qed.

Lemma sysRun_handoff sched y y' :
  handoffOk (svc y) -> sysRun sched y = Some y' -> handoffOk (svc y').
Proof.
  revert y. induction sched as [| a sched IH]; intros y H; simpl.
  - intros [= <-]. exact H.
  - destruct (sysStep a y) as [y1 |] eqn:E; [| discriminate].
    apply IH. exact (sysStep_handoff a y y1 H E).
Qed.

(** C8.  Whatever the capture goroutines, the consumer and the controlling
    goroutine do and in whatever order, the hand-off channel holds at most
    one utterance.  An iteration of the capture loop that offers an
    utterance completes either way: into an empty slot the utterance is
    sent; with the slot taken the new utterance is dropped, the drop is
    logged and the channel is left as it was, so that the next pass of
    [WaitForRecording] returns the utterance that was pending. *)
Theorem C8_handoff_holds_at_most_one (sched : list Action) (y : System) :
  sysRun sched sysInit = Some y ->
  cap (recordingStopped (svc y)) = 1%nat
  /\ (length (buf (recordingStopped (svc y))) <= 1)%nat
  /\ (forall l d,
        match captureIter (svc y) l d with
        | IterContinue s' l' out =>
          match offers out with
          | [] => recordingStopped s' = recordingStopped (svc y)
          | [(u, true)] =>
            buf (recordingStopped (svc y)) = [] /\ buf (recordingStopped s') = [u]
          | [(u, false)] =>
            buf (recordingStopped (svc y)) <> []
            /\ recordingStopped s' = recordingStopped (svc y)
            /\ In LogChannelFull out
          | _ => False
          end
        | IterReturn s' out =>
          recordingStopped s' = recordingStopped (svc y) /\ offers out = []
        | IterPanic => True
        end)
  /\ (forall pending,
        buf (recordingStopped (svc y)) = [pending] -> isShutdown (svc y) = false ->
        snd (waitPoll (svc y)) = WaitGot pending).
Proof.
  intros Hrun.
  assert (H : handoffOk (svc y)).
  { apply (sysRun_handoff sched sysInit y); [| exact Hrun]. split; simpl; lia. }
  destruct H as [Hcap Hlen]. split; [exact Hcap |]. split; [exact Hlen |]. split.
  - intros l d. pose proof (captureIter_channel (svc y) l d) as Hc.
    destruct (captureIter (svc y) l d) as [s' l' out | s' out |]; [| exact Hc | exact I].
    destruct Hc as [[-> ->] | (u & Hu & Ho & Hlog)]; [reflexivity |].
    cbv zeta in Hu, Ho, Hlog. rewrite Ho.
    destruct (Nat.ltb_spec (length (buf (recordingStopped (svc y))))
                (cap (recordingStopped (svc y)))) as [Hroom | Hfull].
    + rewrite (try_send_room _ u Hroom) in *. simpl in *.
      assert (E : buf (recordingStopped (svc y)) = []).
      { destruct (buf (recordingStopped (svc y))); [reflexivity | simpl in Hroom; lia]. }
      split; [exact E |]. rewrite Hu. simpl. rewrite E. reflexivity.
    + rewrite (try_send_full _ u Hfull) in *. simpl in *.
      split; [| split; [exact Hu | apply Hlog; reflexivity]].
      intros E. rewrite E in Hfull. simpl in Hfull. lia.
  - intros pending Hp Hsd. unfold waitPoll, try_recv. rewrite Hsd, Hp. reflexivity.
Qed.

(** Two utterances produced before the consumer runs: the first is
    delivered, the second was dropped. *)
Lemma C8_two_utterances_witness :
  let sched := twoUtterances (voicedFrame 4001) (silentFrame 1) in
  match sysRun sched sysInit with
  | Some y =>
    map snd (offers (trace y)) = [true; false]
    /\ length (delivered y) = 1%nat
    /\ cap (recordingStopped (svc y)) = 1%nat
    /\ (length (buf (recordingStopped (svc y))) <= 1)%nat
  | None => False
  end.
Proof.
  intros sched.
  assert (Hobs : option_map (fun y => (map snd (offers (trace y)), length (delivered y)))
                   (sysRun sched sysInit) = Some ([true; false], 1%nat))
    by (vm_compute; reflexivity).
  destruct (sysRun sched sysInit) as [y |] eqn:E; [| discriminate Hobs].
  destruct (C8_handoff_holds_at_most_one sched y E) as (Hcap & Hlen & _).
  injection Hobs as Hoffers Hdelivered.
  split; [exact Hoffers |]. split; [exact Hdelivered |]. split; [exact Hcap | exact Hlen].
Defined.

(** ** Cleanup of the capture service *)

Lemma Speech_Cleanup_again (s : SpeechService) :
  let s1 := fst (fst (Speech.Cleanup s)) in
  Speech.Cleanup s1 = (s1, None, [LogCleanupStart; LogCleanupDone]).
Proof.
  destruct s as [dev init lis rec tr sh ad c1 c2 c3].
  unfold Speech.Cleanup, StopListening. simpl.
  destruct lis; simpl; reflexivity.
Qed.

Lemma Speech_Cleanup_error (s : SpeechService) : snd (fst (Speech.Cleanup s)) = None.
Proof.
  unfold Speech.Cleanup, StopListening. simpl. destruct (isListening s); reflexivity.
Qed.

Lemma Speech_CleanupTimes_S (k : nat) (s : SpeechService) :
  Speech.CleanupTimes (S k) s = fst (fst (Speech.Cleanup s)).
Proof.
  revert s. induction k as [| k IH]; intros s; [reflexivity |].
  change (Speech.CleanupTimes (S (S k)) s)
    with (Speech.CleanupTimes (S k) (fst (fst (Speech.Cleanup s)))).
  rewrite IH. pose proof (Speech_Cleanup_again s) as H. cbv zeta in H. rewrite H.
  reflexivity.
Qed.

End Capture.

(** ** The whisper backend *)

Section Backend.

Import Whisper.

Lemma attempts_app (a b : list Effect) : attempts (a ++ b) = (attempts a + attempts b)%nat.
Proof.
  induction a as [| e a IH]; simpl; [reflexivity |].
  destruct e; simpl; rewrite ?IH; reflexivity.
Qed.

Lemma attempts_pre (attempt : nat) (m : Z) :
  attempts (if (0 <? attempt)%nat
            then [LogRetrying (Z.of_nat attempt + 1) m; SleepMs (Z.of_nat attempt * 500)]
            else []) = 0%nat.
Proof. destruct (0 <? attempt)%nat; reflexivity. Qed.

(** The loop sends at most [todo] requests. *)
Lemma retryLoop_attempts_le w m todo attempt last :
  (attempts (snd (retryLoop w m todo attempt last)) <= todo)%nat.
Proof.
  revert attempt last. induction todo as [| todo IH]; intros attempt last; simpl; [lia |].
  destruct (httpDo w attempt) eqn:E.
  - specialize (IH (S attempt) (Some TransportFailure)).
    destruct (retryLoop w m todo (S attempt) (Some TransportFailure)) as [r out].
    simpl in *. rewrite attempts_app, attempts_pre. simpl. lia.
  - simpl. rewrite attempts_app, attempts_pre. simpl. lia.
Qed.

(** When every request fails, the loop sends [todo] of them and ends
    with the failure. *)
Lemma retryLoop_all_fail w m todo attempt last :
  (forall n, (attempt <= n < attempt + todo)%nat -> httpDo w n = TransportFailure) ->
  (0 < todo)%nat ->
  fst (retryLoop w m todo attempt last) = Some TransportFailure
  /\ attempts (snd (retryLoop w m todo attempt last)) = todo.
Proof.
  revert attempt last. induction todo as [| todo IH]; intros attempt last Hfail Hpos; [lia |].
  simpl. rewrite (Hfail attempt) by lia.
  destruct todo as [| todo].
  - simpl. rewrite attempts_app, attempts_pre. split; reflexivity.
  - destruct (IH (S attempt) (Some TransportFailure)) as [Hr Ha].
    { intros n Hn. apply Hfail. lia. }
    { lia. }
    destruct (retryLoop w m (S todo) (S attempt) (Some TransportFailure)) as [r out].
    simpl in *. rewrite attempts_app, attempts_pre. simpl. split; [exact Hr | lia].
Qed.

(** The first request that gets a response ends the loop. *)
Lemma retryLoop_first_response w m todo attempt last k status body parsed :
  (forall n, (attempt <= n < attempt + k)%nat -> httpDo w n = TransportFailure) ->
  httpDo w (attempt + k) = Response status body parsed ->
  (k < todo)%nat ->
  fst (retryLoop w m todo attempt last) = Some (Response status body parsed)
  /\ attempts (snd (retryLoop w m todo attempt last)) = S k.
Proof.
  revert todo attempt last. induction k as [| k IH]; intros todo attempt last Hfail Hresp Hk.
  - destruct todo as [| todo]; [lia |]. simpl. rewrite Nat.add_0_r in Hresp. rewrite Hresp.
    simpl. rewrite attempts_app, attempts_pre. split; reflexivity.
  - destruct todo as [| todo]; [lia |]. simpl. rewrite (Hfail attempt) by lia.
    destruct (IH todo (S attempt) (Some TransportFailure)) as [Hr Ha].
    { intros n Hn. apply Hfail. lia. }
    { replace (S attempt + k)%nat with (attempt + S k)%nat by lia. exact Hresp. }
    { lia. }
    destruct (retryLoop w m todo (S attempt) (Some TransportFailure)) as [r out].
    simpl in *. rewrite attempts_app, attempts_pre. simpl. split; [exact Hr | lia].
Qed.

Lemma saveWavFile_attempts ww samples rate :
  attempts (snd (saveWavFile ww samples rate)) = 0%nat.
Proof.
  unfold saveWavFile, Wav.writeWavFile.
  destruct (Wav.createOk ww), (Wav.writeHeaderOk ww), (Wav.writeSamplesOk ww); reflexivity.
Qed.

(** Once the request is built, the outcome and the number of requests are
    those of the retry loop. *)
Lemma Transcribe_ready w s audio :
  requestReady w s audio ->
  let rl := retryLoop w (maxRetries s) (Z.to_nat (maxRetries s)) 0 None in
  fst (Transcribe w s (Some audio)) = answerOutcome (maxRetries s) (fst rl)
  /\ attempts (snd (Transcribe w s (Some audio))) = attempts (snd rl).
Proof.
  intros (Hrun & Hsamples & Htemp & Hopen & Hform & Hcopy & Hclose & Hreq & pid & Hcmd) rl.
  unfold Transcribe. rewrite Hrun. simpl negb. cbv iota.
  destruct (Samples audio) as [| x samples] eqn:Es; [congruence |].
  simpl length. simpl Nat.eqb. cbv iota.
  unfold saveWavFile, Wav.writeWavFile. rewrite Htemp. simpl.
  rewrite Hopen, Hform, Hcopy, Hclose, Hreq, Hcmd. simpl.
  fold rl. destruct rl as [last out]. simpl.
  destruct last as [[| status body parsed] |]; simpl.
  - rewrite !attempts_app. simpl. split; [reflexivity | lia].
  - destruct (status =? 200); simpl; [destruct parsed |]; simpl;
      rewrite !attempts_app; simpl; (split; [reflexivity | lia]).
  - rewrite !attempts_app. simpl. split; [reflexivity | lia].
Qed.

(** Whatever happens, no more than [maxRetries] requests are sent. *)
Lemma Transcribe_attempts_le w s audio :
  (attempts (snd (Transcribe w s audio)) <= Z.to_nat (maxRetries s))%nat.
Proof.
  unfold Transcribe.
  destruct (isRunning s); simpl; [| lia].
  destruct audio as [audio |]; simpl; [| lia].
  destruct (length (Samples audio) =? 0)%nat; simpl; [lia |].
  pose proof (saveWavFile_attempts (tempFile w) (Samples audio) (SampleRate audio)) as Hs.
  destruct (saveWavFile (tempFile w) (Samples audio) (SampleRate audio)) as [[content |] out];
    simpl in *; [| lia].
  destruct (openOk w); simpl; [| rewrite attempts_app; simpl; lia].
  destruct (createFormFileOk w); simpl; [| rewrite !attempts_app; simpl; lia].
  destruct (copyOk w); simpl; [| rewrite !attempts_app; simpl; lia].
  destruct (closeWriterOk w); simpl; [| rewrite !attempts_app; simpl; lia].
  destruct (newRequestOk w); simpl; [| rewrite !attempts_app; simpl; lia].
  destruct (cmd s) as [[[pid |]] |]; simpl; try (rewrite !attempts_app; simpl; lia).
  pose proof (retryLoop_attempts_le w (maxRetries s) (Z.to_nat (maxRetries s)) 0 None) as Hl.
  destruct (retryLoop w (maxRetries s) (Z.to_nat (maxRetries s)) 0 None) as [last out'].
  simpl in Hl.
  destruct last as [[| status body parsed] |]; simpl;
    [| destruct (status =? 200); simpl; [destruct parsed |] |];
    simpl; rewrite !attempts_app; simpl; lia.
Qed.

(** C3.  [NewWhisperServerService] sets the retry count to 3.  [Transcribe]
    never sends more requests than the retry count.  Once the request is
    built: when every request fails at the transport level it sends exactly
    that many and returns the transport error; when request number [k]
    (counting from 0, below the retry count) is the first to get a response
    it sends no further one, and a response whose status is not 200 is
    returned as the server error, without a retry. *)
Theorem C3_transcribe_retry_bound (w : World) (s : WhisperServerService) (audio : AudioData) :
  maxRetries NewWhisperServerService = 3
  /\ (forall a, (attempts (snd (Transcribe w s a)) <= Z.to_nat (maxRetries s))%nat)
  /\ (requestReady w s audio -> 0 < maxRetries s ->
      ((forall n, (n < Z.to_nat (maxRetries s))%nat -> httpDo w n = TransportFailure) ->
       fst (Transcribe w s (Some audio)) = Err (ErrSendRequest (maxRetries s))
       /\ attempts (snd (Transcribe w s (Some audio))) = Z.to_nat (maxRetries s))
      /\ (forall k status body parsed,
            (k < Z.to_nat (maxRetries s))%nat ->
            (forall n, (n < k)%nat -> httpDo w n = TransportFailure) ->
            httpDo w k = Response status body parsed ->
            attempts (snd (Transcribe w s (Some audio))) = S k
            /\ (status <> 200 ->
                fst (Transcribe w s (Some audio)) = Err (ErrServerStatus status body))
            /\ (status = 200 ->
                fst (Transcribe w s (Some audio))
                = match parsed with
                  | Some r => Ok (mkResult (Text r) (Language r) true)
                  | None => Err ErrParseResponse
                  end))).
Proof.
  split; [reflexivity |]. split; [intros a; apply Transcribe_attempts_le |].
  intros Hready Hpos.
  destruct (Transcribe_ready w s audio Hready) as [Hres Hatt]. cbv zeta in Hres, Hatt.
  split.
  - intros Hfail.
    destruct (retryLoop_all_fail w (maxRetries s) (Z.to_nat (maxRetries s)) 0 None)
      as [Hr Ha].
    { intros n Hn. apply Hfail. lia. }
    { lia. }
    rewrite Hres, Hatt, Hr, Ha. split; reflexivity.
  - intros k status body parsed Hk Hfail Hresp.
    destruct (retryLoop_first_response w (maxRetries s) (Z.to_nat (maxRetries s)) 0 None
                k status body parsed) as [Hr Ha].
    { intros n Hn. apply Hfail. lia. }
    { exact Hresp. }
    { exact Hk. }
    rewrite Hres, Hatt, Hr, Ha. split; [reflexivity |]. unfold answerOutcome. split.
    + intros Hne. destruct (Z.eqb_spec status 200); [contradiction | reflexivity].
    + intros ->. reflexivity.
Qed.

(** A server that never answers gets three requests; one that answers the
    second request with status 500 gets two. *)
Lemma C3_retry_witness :
  let s := runningService 4242 in
  let audio := mkAudioData [1; -1] 16000 in
  (fst (Transcribe (worldOf neverAnswers) s (Some audio)) = Err (ErrSendRequest 3)
   /\ attempts (snd (Transcribe (worldOf neverAnswers) s (Some audio))) = 3%nat)
  /\ (attempts (snd (Transcribe (worldOf (answersSecond 500)) s (Some audio))) = 2%nat
      /\ fst (Transcribe (worldOf (answersSecond 500)) s (Some audio))
         = Err (ErrServerStatus 500 "body")).
Proof.
  intros s audio.
  assert (Hready : forall answers, requestReady (worldOf answers) s audio).
  { intros answers. repeat split; try reflexivity; [discriminate | exists 4242; reflexivity]. }
  split.
  - destruct (C3_transcribe_retry_bound (worldOf neverAnswers) s audio) as (_ & _ & H).
    destruct (H (Hready _)) as [Hfail _]; [reflexivity |].
    apply Hfail. intros n _. reflexivity.
  - destruct (C3_transcribe_retry_bound (worldOf (answersSecond 500)) s audio) as (_ & _ & H).
    destruct (H (Hready _)) as [_ Hresp]; [reflexivity |].
    destruct (Hresp 1%nat 500 "body"%string None) as (Ha & Hne & _).
    + simpl. lia.
    + intros n Hn. assert (n = 0%nat) as -> by lia. reflexivity.
    + reflexivity.
    + split; [exact Ha |]. apply Hne. discriminate.
Defined.

(** C4.  When the backend is not running, [Transcribe] returns the
    not-running error and has done nothing: no file written, no request
    sent.  When it is running and the utterance is absent or has no
    sample, it returns the no-audio error, again before any file or
    request.  A new backend is not running. *)
Theorem C4_transcribe_refuses_before_any_effect
  (w : World) (s : WhisperServerService) (audio : option AudioData) :
  isRunning NewWhisperServerService = false
  /\ (isRunning s = false -> Transcribe w s audio = (Err ErrNotRunning, []))
  /\ (isRunning s = true ->
      audio = None \/ (exists a, audio = Some a /\ Samples a = []) ->
      Transcribe w s audio = (Err ErrNoAudio, [])).
Proof.
  split; [reflexivity |]. split.
  - intros Hrun. unfold Transcribe. rewrite Hrun. reflexivity.
  - intros Hrun Haudio. unfold Transcribe. rewrite Hrun. simpl.
    destruct Haudio as [-> | (a & -> & Hs)]; [reflexivity |]. rewrite Hs. reflexivity.
Qed.

Lemma C4_refusal_witness :
  Transcribe (worldOf neverAnswers) NewWhisperServerService (Some (mkAudioData [1; -1] 16000))
  = (Err ErrNotRunning, [])
  /\ Transcribe (worldOf neverAnswers) (runningService 4242) (Some (mkAudioData [] 16000))
     = (Err ErrNoAudio, []).
Proof.
  split.
  - apply (C4_transcribe_refuses_before_any_effect
             (worldOf neverAnswers) NewWhisperServerService
             (Some (mkAudioData [1; -1] 16000))).
    reflexivity.
  - apply (C4_transcribe_refuses_before_any_effect
             (worldOf neverAnswers) (runningService 4242) (Some (mkAudioData [] 16000))).
    + reflexivity.
    + right. eexists. split; reflexivity.
Defined.

(** *** Cleanup of the backend *)

Lemma Whisper_Cleanup_again (w w' : ProcWorld) (s : WhisperServerService) :
  let s1 := fst (fst (Whisper.Cleanup w s)) in
  Whisper.Cleanup w' s1 = (s1, None, []).
Proof.
  unfold Whisper.Cleanup. destruct (isRunning s) eqn:E; simpl; [reflexivity |].
  rewrite E. reflexivity.
Qed.

Lemma Whisper_Cleanup_error (w : ProcWorld) (s : WhisperServerService) :
  snd (fst (Whisper.Cleanup w s)) = None.
Proof. unfold Whisper.Cleanup. destruct (isRunning s); reflexivity. Qed.

Lemma Whisper_CleanupTimes_cons (w : ProcWorld) (ws : list ProcWorld)
  (s : WhisperServerService) :
  Whisper.CleanupTimes (w :: ws) s = fst (fst (Whisper.Cleanup w s)).
Proof.
  revert w s. induction ws as [| w' ws IH]; intros w s; [reflexivity |].
  change (Whisper.CleanupTimes (w :: w' :: ws) s)
    with (Whisper.CleanupTimes (w' :: ws) (fst (fst (Whisper.Cleanup w s)))).
  rewrite IH. pose proof (Whisper_Cleanup_again w w' s) as H. cbv zeta in H. rewrite H.
  reflexivity.
Qed.

(** C5.  For the capture service and for the backend, [k + 1] calls of
    [Cleanup] in sequence leave the service as one call does, whatever the
    state before and however the server process reacts; a call that follows
    another returns no error, changes nothing and touches neither the audio
    device nor the process. *)
Theorem C5_cleanup_is_idempotent :
  (forall (k : nat) (s : SpeechService),
      Speech.CleanupTimes (S k) s = fst (fst (Speech.Cleanup s))
      /\ Speech.Cleanup (Speech.CleanupTimes (S k) s)
         = (Speech.CleanupTimes (S k) s, None, [LogCleanupStart; LogCleanupDone])
      /\ snd (fst (Speech.Cleanup s)) = None)
  /\ (forall (w w' : ProcWorld) (ws : list ProcWorld) (s : WhisperServerService),
        Whisper.CleanupTimes (w :: ws) s = fst (fst (Whisper.Cleanup w s))
        /\ Whisper.Cleanup w' (Whisper.CleanupTimes (w :: ws) s)
           = (Whisper.CleanupTimes (w :: ws) s, None, [])
        /\ snd (fst (Whisper.Cleanup w s)) = None).
Proof.
  split.
  - intros k s. rewrite Speech_CleanupTimes_S. split; [reflexivity |].
    split; [apply Speech_Cleanup_again | apply Speech_Cleanup_error].
  - intros w w' ws s. rewrite Whisper_CleanupTimes_cons. split; [reflexivity |].
    split; [apply Whisper_Cleanup_again | apply Whisper_Cleanup_error].
Qed.

End Backend.

(** ** WAV files *)

Section WavRoundTrip.

Import Wav.

(** Two bytes, low then high, joined by [|] and [<<]. *)
Lemma lor_shiftl_8 (lo hi : Z) :
  0 <= lo < 256 -> 0 <= hi -> Z.lor lo (Z.shiftl hi 8) = lo + 256 * hi.
Proof.
  intros Hlo Hhi.
  assert (Hdisjoint : Z.land lo (Z.shiftl hi 8) = 0).
  { apply Z.bits_inj'. intros n Hn. rewrite Z.land_spec, Z.bits_0.
    destruct (Z.lt_ge_cases n 8) as [Hlow | Hhigh].
    - rewrite (Z.shiftl_spec_low hi 8 n Hlow). apply andb_false_r.
    - replace lo with (lo mod 2 ^ 8) by (apply Z.mod_small; lia).
      rewrite Z.mod_pow2_bits_high by lia. reflexivity. }
  rewrite <- Z.lxor_lor by exact Hdisjoint.
  rewrite <- Z.add_nocarry_lxor by exact Hdisjoint.
  rewrite Z.shiftl_mul_pow2 by lia. lia.
Qed.

(** Writing an [int16] as two bytes and reading them back. *)
Lemma sample_round_trip (x : Z) :
  is_int16 x ->
  chunkSamples (le16 (wrapU16 x)) = [x].
Proof.
  unfold is_int16, le16, wrapU16. intros Hx. simpl.
  change 255 with (Z.ones 8). rewrite !Z.land_ones by lia.
  rewrite Z.shiftr_div_pow2 by lia.
  assert (Hy : 0 <= x mod 65536 < 65536) by (apply Z.mod_pos_bound; lia).
  set (y := x mod 65536) in *.
  change (2 ^ 8) with 256.
  assert (Hq : 0 <= y / 256 < 256).
  { split; [apply Z.div_pos; lia | apply Z.div_lt_upper_bound; lia]. }
  rewrite (Z.mod_small (y / 256) 256) by exact Hq.
  rewrite lor_shiftl_8; [| apply Z.mod_pos_bound; lia | lia].
  replace (y mod 256 + 256 * (y / 256)) with y
    by (rewrite Z.add_comm; apply Z.div_mod; lia).
  f_equal. unfold wrap16. subst y. clear Hy Hq.
  Z.div_mod_to_equations. lia.
Qed.

Lemma chunkSamples_encodeSamples (l : list Z) :
  Forall is_int16 l -> chunkSamples (encodeSamples l) = l.
Proof.
  induction 1 as [| x l Hx _ IH]; [reflexivity |].
  pose proof (sample_round_trip x Hx) as E.
  simpl in *. injection E as ->. rewrite IH. reflexivity.
Qed.

Lemma length_encodeSamples (l : list Z) : length (encodeSamples l) = (2 * length l)%nat.
Proof. induction l as [| x l IH]; simpl in *; [reflexivity | lia]. Qed.

Lemma take_encodeSamples (n : nat) (l : list Z) :
  take (2 * n) (encodeSamples l) = encodeSamples (take n l).
Proof.
  revert l. induction n as [| n IH]; intros l; [reflexivity |].
  destruct l as [| x l]; [reflexivity |].
  replace (2 * S n)%nat with (S (S (2 * n))) by lia.
  simpl take. simpl encodeSamples. simpl take. rewrite IH. reflexivity.
Qed.

Lemma drop_encodeSamples (n : nat) (l : list Z) :
  drop (2 * n) (encodeSamples l) = encodeSamples (drop n l).
Proof.
  revert l. induction n as [| n IH]; intros l; [reflexivity |].
  destruct l as [| x l]; [reflexivity |].
  replace (2 * S n)%nat with (S (S (2 * n))) by lia.
  simpl drop. simpl encodeSamples. simpl drop. apply IH.
Qed.

(** With enough fuel the read loop returns, with the samples written. *)
Lemma readLoop_encodeSamples (fuel : nat) (l acc : list Z) :
  Forall is_int16 l -> (length (encodeSamples l) < fuel)%nat ->
  readLoop fuel (encodeSamples l) acc = Some (acc ++ l).
Proof.
  revert l acc. induction fuel as [| fuel IH]; intros l acc Hl Hfuel; [lia |].
  destruct l as [| x l].
  - simpl. rewrite app_nil_r. reflexivity.
  - change (readLoop (S fuel) (encodeSamples (x :: l)) acc)
      with (readLoop fuel (drop bufferSize (encodeSamples (x :: l)))
              (acc ++ chunkSamples (take bufferSize (encodeSamples (x :: l))))).
    unfold bufferSize. change 1024%nat with (2 * 512)%nat.
    rewrite take_encodeSamples, drop_encodeSamples.
    rewrite chunkSamples_encodeSamples by (apply Forall_take; exact Hl).
    rewrite IH.
    + rewrite <- app_assoc, take_drop. reflexivity.
    + apply Forall_drop. exact Hl.
    + rewrite length_encodeSamples in *. rewrite length_drop. simpl length in *. lia.
Qed.

Example header_of_two_samples :
  encodeHeader (makeHeader [1; -2] 16000)
  = [82; 73; 70; 70; 40; 0; 0; 0; 87; 65; 86; 69; 102; 109; 116; 32; 16; 0; 0; 0;
     1; 0; 1; 0; 128; 62; 0; 0; 0; 125; 0; 0; 2; 0; 16; 0; 100; 97; 116; 97; 4; 0; 0; 0].
Proof. reflexivity. Qed.

Lemma length_encodeHeader (h : wavHeader) :
  length (ChunkID h) = 4%nat -> length (Format h) = 4%nat ->
  length (SubChunk1ID h) = 4%nat -> length (SubChunk2ID h) = 4%nat ->
  length (encodeHeader h) = 44%nat.
Proof.
  intros H1 H2 H3 H4. unfold encodeHeader. rewrite !length_app, H1, H2, H3, H4.
  reflexivity.
Qed.

(** C9, as the code has it.  For every utterance, [writeWavFile] and
    [saveWavFile] write the same file, and [readWavFile] on that file
    returns, with a sample sequence identical to the original.  The sample
    rate it returns is 16000 whatever was written: the reader skips the
    header. *)
Theorem C9_wav_round_trip_keeps_samples (samples : list Z) (sampleRate : Z) :
  Forall is_int16 samples ->
  exists content,
    writeWavFile allOk samples sampleRate = (None, Some content)
    /\ fst (Whisper.saveWavFile allOk samples sampleRate) = Some content
    /\ readWavFile (Some content) = Some {| Samples := samples; SampleRate := 16000 |}.
Proof.
  intros Hs. eexists. split; [reflexivity |]. split; [reflexivity |].
  unfold readWavFile.
  rewrite (drop_app_length' (encodeHeader (makeHeader samples sampleRate))
             (encodeSamples samples) 44)
    by (symmetry; apply length_encodeHeader; reflexivity).
  rewrite readLoop_encodeSamples; [reflexivity | exact Hs | lia].
Qed.

Lemma C9_round_trip_witness :
  exists content,
    writeWavFile allOk [1; -2; 32767; -32768] 44100 = (None, Some content)
    /\ fst (Whisper.saveWavFile allOk [1; -2; 32767; -32768] 44100) = Some content
    /\ readWavFile (Some content)
       = Some {| Samples := [1; -2; 32767; -32768]; SampleRate := 16000 |}.
Proof.
  apply (C9_wav_round_trip_keeps_samples [1; -2; 32767; -32768] 44100).
  repeat constructor; unfold is_int16; lia.
Defined.

(** C9 as the specification words it fails for an utterance at 44100 Hz:
    the sample rate read back is not the original one. *)
Lemma C9_counterexample :
  let u := {| Samples := [1; -2; 32767; -32768]; SampleRate := 44100 |} in
  Forall is_int16 (Samples u)
  /\ exists content r,
      writeWavFile allOk (Samples u) (SampleRate u) = (None, Some content)
      /\ readWavFile (Some content) = Some r
      /\ Samples r = Samples u
      /\ SampleRate r <> SampleRate u.
Proof.
  intros u. split; [repeat constructor; unfold is_int16; simpl; lia |].
  eexists _, _. split; [reflexivity |]. split; [vm_compute; reflexivity |].
  split; [reflexivity | discriminate].
Qed.

End WavRoundTrip.

(** ** The shutdown coordinator *)

Section Coordinator.

Import Common.

Lemma run_app (a b : list Action) (st : State) : run (a ++ b) st = run b (run a st).
Proof. unfold run. apply fold_left_app. Qed.

Lemma run_ind (P : State -> Prop) :
  (forall a st, P st -> P (step a st)) ->
  forall sched st, P st -> P (run sched st).
Proof.
  intros Hstep sched. induction sched as [| a sched IH]; intros st H; [exact H |].
  simpl. apply IH, Hstep, H.
Qed.

Lemma notEntered_step a st : notEntered st -> notEntered (step a st).
Proof.
  unfold notEntered, step. intros H.
  case_eq (crashed st); intros Ec; [exact H |].
  destruct a as [ref | | i | | |]; simpl.
  - unfold Register. destruct (heap st !! ref); exact H.
  - unfold mainStep. destruct (pc st) as [| svcs next | svcs | svcs] eqn:Epc.
    + destruct (length (services st) =? 0)%nat; simpl; discriminate.
    + destruct (svcs !! next); simpl; discriminate.
    + rewrite Epc. discriminate.
    + rewrite Epc. discriminate.
  - unfold workerStep. destruct (workers st !! i) as [[ref | ref | ref | ref] |] eqn:Ew;
      try exact H.
    destruct (heap st !! ref) as [v |]; [| exact H].
    destruct (shutdownOf v) as [v' [[err |] | |]]; simpl; intros Hpc;
      destruct (H Hpc) as (Hw & _); rewrite Hw in Ew; discriminate Ew.
  - unfold waiterStep. destruct (pc st) eqn:Epc; try (rewrite Epc; exact H).
    destruct (forallb isDone (workers st) && negb (doneChan st)); simpl;
      [discriminate | rewrite Epc; discriminate].
  - unfold selectDone. destruct (pc st) eqn:Epc; try (rewrite Epc; exact H).
    destruct (doneChan st); simpl; [discriminate | rewrite Epc; discriminate].
  - unfold selectTimeout. destruct (pc st) eqn:Epc; try (rewrite Epc; exact H).
    simpl. discriminate.
Qed.

Lemma notEntered_run sched h t : notEntered (run sched (NewGracefulShutdown h t)).
Proof.
  apply run_ind; [apply notEntered_step |]. intros _. repeat split.
Qed.

(** What a step of a worker goroutine does: nothing, or the one call of
    its service. *)
Lemma workerStep_cases i st :
  (workers (workerStep i st) = workers st /\ calls (workerStep i st) = calls st
   /\ pc (workerStep i st) = pc st)
  \/ exists ref v w',
      workers st !! i = Some (WSpawned ref) /\ heap st !! ref = Some v
      /\ isSpawned w' = false /\ wref w' = ref
      /\ workers (workerStep i st) = <[i := w']> (workers st)
      /\ calls (workerStep i st) = calls st ++ [i]
      /\ pc (workerStep i st) = pc st.
Proof.
  unfold workerStep.
  destruct (workers st !! i) as [[ref | ref | ref | ref] |] eqn:Ew;
    try (left; repeat split; reflexivity).
  destruct (heap st !! ref) as [v |] eqn:Eh; [| left; repeat split; reflexivity].
  right. exists ref, v.
  destruct (shutdownOf v) as [v' [[err |] | |]]; simpl;
    [exists (WDone ref) | exists (WDone ref) | exists (WBlocked ref) | exists (WPanicked ref)];
    repeat split; first [reflexivity | assumption].
Qed.

Lemma mainStep_snapshot svcs st :
  snapshot st = Some svcs -> snapshot (mainStep st) = Some svcs.
Proof.
  unfold snapshot, mainStep. destruct (pc st) as [| svcs' next | svcs' | svcs'] eqn:E;
    try discriminate; intros [= ->].
  - destruct (svcs !! next); reflexivity.
  - rewrite E. reflexivity.
  - rewrite E. reflexivity.
Qed.

Lemma placed_step svcs a st : placed svcs st -> placed svcs (step a st).
Proof.
  intros H. unfold step. case_eq (crashed st); intros Ec; [exact H |].
  pose proof H as (Hsnap & Hrefs & Hpc).
  destruct a as [ref | | i | | |].
  - unfold Register. destruct (heap st !! ref); exact H.
  - unfold placed. split; [apply mainStep_snapshot; exact Hsnap |].
    unfold mainStep. unfold snapshot in Hsnap.
    destruct (pc st) as [| svcs' next | svcs' | svcs'] eqn:Epc; try contradiction;
      injection Hsnap as ->.
    + destruct Hpc as [Hlen Hle]. destruct (svcs !! next) as [ref |] eqn:El; simpl.
      * rewrite fmap_app, length_app, Hrefs, Hlen. simpl.
        replace (next + 1)%nat with (S next) by lia.
        rewrite (take_S_r svcs next ref El). split; [reflexivity |].
        split; [reflexivity |]. apply lookup_lt_Some in El. lia.
      * split; [exact Hrefs |]. apply lookup_ge_None_1 in El. lia.
    + rewrite Epc. split; assumption.
    + rewrite Epc. split; assumption.
  - destruct (workerStep_cases i st)
      as [(Hws & _ & Hp) | (ref & v & w' & Hw & _ & _ & Hr & Hws & _ & Hp)].
    + unfold placed, snapshot in *. rewrite Hws, Hp. repeat split; assumption.
    + unfold placed, snapshot. rewrite Hp, Hws, length_insert, list_fmap_insert, Hr.
      split; [exact Hsnap |]. split; [| exact Hpc].
      rewrite list_insert_id; [exact Hrefs |].
      rewrite list_lookup_fmap, Hw. reflexivity.
  - unfold waiterStep. case_eq (pc st); try (intros; exact H). intros svcs' Epc.
    destruct (forallb isDone (workers st) && negb (doneChan st)); [| exact H].
    unfold placed, snapshot in *. simpl. rewrite Epc in *. repeat split; assumption.
  - unfold selectDone. case_eq (pc st); try (intros; exact H). intros svcs' Epc.
    destruct (doneChan st); [| exact H].
    unfold placed, snapshot in *. simpl. rewrite Epc in *. repeat split; assumption.
  - unfold selectTimeout. case_eq (pc st); try (intros; exact H). intros svcs' Epc.
    unfold placed, snapshot in *. simpl. rewrite Epc in *. repeat split; assumption.
Qed.

Lemma accounted_step a st : accounted st -> accounted (step a st).
Proof.
  intros H. unfold step. case_eq (crashed st); intros Ec; [exact H |].
  destruct a as [ref | | i | | |].
  - unfold Register. destruct (heap st !! ref); exact H.
  - unfold mainStep. destruct (pc st) as [| svcs next | svcs | svcs]; try exact H.
    + destruct (length (services st) =? 0)%nat; exact H.
    + destruct (svcs !! next) as [ref |]; [| exact H].
      destruct H as [Hnd Hiff]. split; [exact Hnd |]. simpl. intros i.
      rewrite Hiff. split; intros (w & Hw & Hs); exists w; split; try exact Hs.
      * rewrite lookup_app_l; [exact Hw | apply lookup_lt_Some in Hw; exact Hw].
      * destruct (decide (i < length (workers st))%nat) as [Hlt | Hge].
        -- rewrite lookup_app_l in Hw by exact Hlt. exact Hw.
        -- rewrite lookup_app_r in Hw by lia.
           destruct (i - length (workers st))%nat; simpl in Hw; [| discriminate Hw].
           injection Hw as <-. discriminate Hs.
  - destruct (workerStep_cases i st)
      as [(Hws & Hcs & _) | (ref & v & w' & Hw & _ & Hsp & _ & Hws & Hcs & _)].
    { unfold accounted in *. rewrite Hws, Hcs. exact H. }
    destruct H as [Hnd Hiff]. unfold accounted. rewrite Hws, Hcs.
    assert (Hfresh : i ∉ calls st).
    { rewrite Hiff. intros (w & Hw' & Hs). rewrite Hw in Hw'. injection Hw' as <-.
      discriminate Hs. }
    split.
    + apply NoDup_app. split; [exact Hnd |]. split; [| apply NoDup_singleton].
      intros x Hx Hin. apply list_elem_of_singleton in Hin. subst x. contradiction.
    + intros j. rewrite elem_of_app, list_elem_of_singleton, Hiff.
      destruct (decide (i = j)) as [<- | Hne].
      * split; [| intros _; right; reflexivity].
        intros _. exists w'. split; [| exact Hsp].
        apply list_lookup_insert_eq. apply lookup_lt_Some in Hw. exact Hw.
      * rewrite list_lookup_insert_ne by exact Hne.
        split; [intros [Hj | ->]; [exact Hj | contradiction] | intros Hj; left; exact Hj].
  - unfold waiterStep. destruct (pc st); try exact H.
    destruct (forallb isDone (workers st) && negb (doneChan st)); exact H.
  - unfold selectDone. destruct (pc st); try exact H. destruct (doneChan st); exact H.
  - unfold selectTimeout. destruct (pc st); exact H.
Qed.

Lemma snapshot_step_invariant st :
  pc st = PcEntry -> workers st = [] -> calls st = [] ->
  placed (services st) (mainStep st) /\ accounted (mainStep st).
Proof.
  intros Hpc Hw Hc. unfold mainStep. rewrite Hpc.
  destruct (length (services st) =? 0)%nat eqn:E.
  - apply Nat.eqb_eq in E. unfold placed, accounted, snapshot. simpl. rewrite Hw, Hc.
    simpl. repeat split; try (symmetry; exact E); try apply NoDup_nil_2.
    + intros Hin. apply elem_of_nil in Hin. contradiction.
    + intros (w & Hl & _). discriminate Hl.
  - unfold placed, accounted, snapshot. simpl. rewrite Hw, Hc. simpl.
    repeat split; try lia; try apply NoDup_nil_2.
    + intros Hin. apply elem_of_nil in Hin. contradiction.
    + intros (w & Hl & _). discriminate Hl.
Qed.

Lemma placed_length svcs st : placed svcs st -> (length (workers st) <= length svcs)%nat.
Proof.
  intros (_ & Hrefs & _). apply (f_equal length) in Hrefs.
  rewrite length_fmap, length_take in Hrefs. lia.
Qed.

(** While [shutdown()] is in its select, the timer alone makes it return. *)
Lemma select_returns_on_timeout st svcs :
  pc st = PcWaiting svcs -> crashed st = false ->
  returned (step ASelectTimeout st) = true
  /\ workers (step ASelectTimeout st) = workers st.
Proof.
  intros Hpc Hc. unfold step. rewrite Hc. simpl. unfold selectTimeout. rewrite Hpc.
  split; reflexivity.
Qed.

(** The three services of [main]: a first pass shuts all of them down; in a
    second pass the status service panics. *)
Example conch_two_passes :
  let st := run (registerThree ++ wholePass) (NewGracefulShutdown conchServices 10) in
  (returned st, crashed st, calls st, last (log st))
  = (true, false, [0; 1; 2]%nat, Some LogAllShutDown)
  /\ crashed (run wholePass (calledAgain st)) = true.
Proof. split; vm_compute; reflexivity. Qed.

(** C6.  [shutdown()] copies the registry while it holds the lock, and that
    copy is what the rest of the call works on, whatever is registered
    afterwards and however the goroutines are scheduled: goroutine [i] is
    for entry [i] of the copy and there is none for a later registration;
    no entry has its [Shutdown] called twice, and once the loop is over and
    every goroutine has run, each entry has had it called exactly once.  A
    goroutine that has not made its call yet can make it whatever the other
    services returned, and when its service returns an error the error is
    logged and the goroutine finishes. *)
Theorem C6_shutdown_calls_each_snapshot_service_once
  (h : list Service) (t : Z) (pre post : list Action) :
  let s1 := run pre (NewGracefulShutdown h t) in
  let s3 := run post (step AMain s1) in
  pc s1 = PcEntry -> crashed s1 = false ->
  snapshot s3 = Some (services s1)
  /\ wref <$> workers s3 = take (length (workers s3)) (services s1)
  /\ NoDup (calls s3)
  /\ (forall i, i ∈ calls s3 -> (i < length (services s1))%nat)
  /\ (spawnedAll s3 = true -> forallb (fun w => negb (isSpawned w)) (workers s3) = true ->
      calls s3 ≡ₚ seq 0 (length (services s1)))
  /\ (crashed s3 = false ->
      forall i ref v,
        workers s3 !! i = Some (WSpawned ref) -> heap s3 !! ref = Some v ->
        let s4 := step (AWorker i) s3 in
        calls s4 = calls s3 ++ [i]
        /\ (forall err,
              snd (shutdownOf v) = Returns (Some err) ->
              log s4 = log s3 ++ [LogShuttingDown (nameOf v); LogErrorShuttingDown (nameOf v) err]
              /\ workers s4 !! i = Some (WDone ref)
              /\ crashed s4 = false)).
Proof.
  intros s1 s3 Hentry Hcr1.
  destruct (notEntered_run pre h t Hentry) as (Hw1 & Hc1). fold s1 in Hw1, Hc1.
  assert (Hinv : placed (services s1) s3 /\ accounted s3).
  { subst s3. apply (run_ind (fun st => placed (services s1) st /\ accounted st)).
    - intros a st [Hp Ha]. split; [apply placed_step | apply accounted_step]; assumption.
    - unfold step. rewrite Hcr1. apply snapshot_step_invariant; assumption. }
  destruct Hinv as [Hplaced [Hnd Hiff]].
  pose proof (placed_length _ _ Hplaced) as Hlen.
  pose proof Hplaced as (Hsnap & Hrefs & Hpc).
  assert (Hbound : forall i, i ∈ calls s3 -> (i < length (services s1))%nat).
  { intros i Hi. apply Hiff in Hi. destruct Hi as (w & Hl & _).
    apply lookup_lt_Some in Hl. lia. }
  split; [exact Hsnap |]. split; [exact Hrefs |]. split; [exact Hnd |].
  split; [exact Hbound |]. split.
  - intros Hall Hrun. apply NoDup_Permutation; [exact Hnd | apply NoDup_seq |].
    intros i. rewrite elem_of_seq. split; [intros Hi; apply Hbound in Hi; lia |].
    intros [_ Hi]. simpl in Hi.
    assert (Hfull : length (workers s3) = length (services s1)).
    { unfold spawnedAll in Hall. destruct (pc s3); try discriminate Hall; exact Hpc. }
    destruct (lookup_lt_is_Some_2 (workers s3) i) as [w Hl]; [lia |].
    apply Hiff. exists w. split; [exact Hl |].
    rewrite forallb_forall in Hrun. specialize (Hrun w).
    apply negb_true_iff, Hrun. apply list_elem_of_In, list_elem_of_lookup. exists i. exact Hl.
  - intros Hcr i ref v Hl Hh s4. subst s4. unfold step. rewrite Hcr. unfold workerStep.
    rewrite Hl, Hh. destruct (shutdownOf v) as [v' r]. simpl.
    split; [destruct r as [[err |] | |]; reflexivity |].
    intros err ->. simpl. split; [rewrite <- app_assoc; reflexivity |].
    split; [| exact Hcr]. apply list_lookup_insert_eq. apply lookup_lt_Some in Hl. exact Hl.
Qed.

(** Three services are registered, [shutdown()] takes its snapshot, a
    fourth one is registered; the second service never returns and the
    third returns an error. *)
Lemma C6_late_register_witness :
  let s1 := run registerThree (NewGracefulShutdown threeServices 10) in
  let s3 := run passWithLateRegister (step AMain s1) in
  (services s3 = [0; 1; 2; 3]%nat /\ calls s3 = [0; 2; 1]%nat /\ returned s3 = true)
  /\ snapshot s3 = Some [0; 1; 2]%nat
  /\ NoDup (calls s3)
  /\ calls s3 ≡ₚ seq 0 3.
Proof.
  intros s1 s3. split; [repeat split |].
  destruct (C6_shutdown_calls_each_snapshot_service_once
              threeServices 10 registerThree passWithLateRegister)
    as (Hsnap & _ & Hnd & _ & Hperm & _).
  - reflexivity.
  - reflexivity.
  - split; [exact Hsnap |]. split; [exact Hnd |]. apply Hperm; reflexivity.
Defined.

End Coordinator.

(** ** The status service *)

Section StatusShutdown.

Import Common.

(** C10.  The first [Shutdown] of a new status service closes [done] and
    returns no error; a [Shutdown] after a [Shutdown] that returned panics,
    also when it is called through the [Shutdownable] interface.  The
    capture service and the backend return no error from a second call. *)
Theorem C10_status_shutdown_twice_panics :
  (exists s1,
      Status.Shutdown Status.NewStatusServiceWithWriter = Some (s1, None)
      /\ Status.Shutdown s1 = None)
  /\ (forall s : Status.StatusService,
        match Status.Shutdown s with
        | Some (s1, err) => err = None /\ Status.Shutdown s1 = None
        | None => Status.doneClosed s = true
        end)
  /\ snd (Common.shutdownOf
            (fst (Common.shutdownOf (Common.service Status.NewStatusService))))
     = Common.Panics
  /\ (forall s : SpeechService,
        snd (fst (Speech.Shutdown (fst (fst (Speech.Shutdown s))))) = None)
  /\ (forall (w w' : Whisper.ProcWorld) (s : Whisper.WhisperServerService),
        snd (fst (Whisper.Shutdown w' (fst (fst (Whisper.Shutdown w s))))) = None).
Proof.
  split; [eexists; split; reflexivity |]. split.
  - intros [closed]. unfold Status.Shutdown, Status.close. simpl.
    destruct closed; [reflexivity | split; reflexivity].
  - split; [reflexivity |]. split.
    + intros s. apply Speech_Cleanup_error.
    + intros w w' s. apply Whisper_Cleanup_error.
Qed.

End StatusShutdown.

(** ** More about the capture service *)

Section CaptureMore.

#[local] Arguments VadThreshold : simpl never.
#[local] Arguments VadSilenceFrames : simpl never.
#[local] Arguments AudioFrequency : simpl never.

Lemma iter_quiet s sf d :
  goesOn s -> quiet d = true ->
  exists out,
    captureIter s (mkLocals sf false) d = IterContinue s (mkLocals sf false) out
    /\ offers out = [].
Proof.
  intros Hs Hq. destruct d as [| buffer].
  - destruct Hs as [Hl Hc]. unfold captureIter. rewrite (try_recv_empty _ Hc), Hl. simpl.
    eexists. split; reflexivity.
  - simpl in Hq. destruct (length buffer =? 0)%nat eqn:E.
    + destruct Hs as [Hl Hc]. unfold captureIter.
      rewrite (try_recv_empty _ Hc), Hl, E. simpl. eexists. split; reflexivity.
    + simpl in Hq. rewrite (iter_idle_silent s sf buffer Hs Hq). eexists. split; reflexivity.
Qed.

(** X1.  Device errors, empty reads and silent frames, in any number and order,
    never produce an utterance: the loop keeps running, the service is as
    it was and nothing is offered to the hand-off channel. *)
Theorem silence_offers_nothing (s : SpeechService) (ds : list Dequeue) :
  goesOn s -> Forall (fun d => quiet d = true) ds ->
  exists out,
    captureAudio ds s = Running s (mkLocals 0 false) out /\ offers out = [].
Proof.
  intros Hs Hds. unfold captureAudio.
  assert (H : forall acc, exists out,
               captureLoop ds s (mkLocals 0 false) acc = Running s (mkLocals 0 false) out
               /\ offers out = offers acc).
  { induction Hds as [| d ds Hd _ IH]; intros acc.
    - exists acc. split; reflexivity.
    - destruct (iter_quiet s 0 d Hs Hd) as (o & Hi & Ho). simpl. rewrite Hi.
      destruct (IH (acc ++ o)) as (out & Hrun & Hout). exists out. split; [exact Hrun |].
      rewrite Hout, offers_app, Ho. apply app_nil_r. }
  destruct (H [SdlPauseAudioDevice (deviceID s) false]) as (out & Hrun & Hout).
  exists out. split; [exact Hrun | exact Hout].
Qed.

Lemma silence_offers_nothing_witness :
  exists out,
    captureAudio (DequeueErr :: DequeueOk [] :: replicate 50 (DequeueOk (silentFrame 160)))
      (startedService 2)
    = Running (startedService 2) (mkLocals 0 false) out
    /\ offers out = [].
Proof.
  apply (silence_offers_nothing (startedService 2)).
  - split; reflexivity.
  - apply Forall_cons_2; [reflexivity |]. apply Forall_cons_2; [reflexivity |].
    apply Forall_replicate. vm_compute. reflexivity.
Defined.

(** Frames that keep a segment open are all appended to it. *)
Lemma loop_rec_open s body : forall a sf sf' rest acc,
  goesOn s -> silenceAfter sf body = Some sf' ->
  exists acc',
    captureLoop (map DequeueOk body ++ rest) (recState s a) (mkLocals sf true) acc
    = captureLoop rest (recState s (a ++ samplesOf body)) (mkLocals sf' true) acc'
    /\ offers acc' = offers acc.
Proof.
  induction body as [| f body IH]; intros a sf sf' rest acc Hs Hopen.
  - injection Hopen as <-. exists acc. unfold samplesOf. simpl. rewrite app_nil_r.
    split; reflexivity.
  - simpl in Hopen. simpl map. simpl app. simpl captureLoop.
    destruct (voiced f) eqn:Ev.
    + rewrite (iter_rec_voiced s a sf f Hs Ev).
      destruct (IH (a ++ bytesToSamples f) 0 sf' rest (acc ++ [Sleep 10]) Hs Hopen)
        as (acc' & -> & Ho).
      exists acc'. rewrite samplesOf_cons, app_assoc. split; [reflexivity |].
      rewrite Ho, offers_app. simpl. apply app_nil_r.
    + destruct (silent f) eqn:Es; [| discriminate Hopen].
      destruct (Z.ltb_spec (sf + 1) VadSilenceFrames) as [Hlt | Hge];
        [| discriminate Hopen].
      simpl in Hopen. rewrite (iter_rec_silent s a sf f Hs Es Hlt).
      destruct (IH (a ++ bytesToSamples f) (sf + 1) sf' rest (acc ++ [Sleep 10]) Hs Hopen)
        as (acc' & -> & Ho).
      exists acc'. rewrite samplesOf_cons, app_assoc. split; [reflexivity |].
      rewrite Ho, offers_app. simpl. apply app_nil_r.
Qed.

(** X2.  Where an utterance begins and ends.  A voiced frame opens a segment;
    voiced frames and pauses shorter than [VadSilenceFrames] stay inside
    it; the silent frame that brings the pause to [VadSilenceFrames] closes
    it.  The segment holds the samples of all these frames.  With more than
    [AudioFrequency / 4] samples it is offered once to the hand-off channel,
    otherwise it is logged as too short and the channel is not touched. *)
Theorem segment_is_one_utterance
  (s : SpeechService) (v : list Z) (body : list (list Z)) (t : list Z) (sf : Z) :
  goesOn s ->
  voiced v = true -> silenceAfter 0 body = Some sf ->
  silent t = true -> VadSilenceFrames <= sf + 1 ->
  let seg := samplesOf (v :: body ++ [t]) in
  let u := mkAudioData seg (SampleRate (audioData s)) in
  let cs := try_send (recordingStopped s) u in
  exists s' out,
    captureAudio (map DequeueOk (v :: body ++ [t])) s = Running s' (mkLocals 0 false) out
    /\ isRecording s' = false
    /\ if AudioFrequency / 4 <? Z.of_nat (length seg)
       then offers out = [(u, snd cs)] /\ recordingStopped s' = fst cs
       else offers out = [] /\ recordingStopped s' = recordingStopped s
            /\ existsb isTooShort out = true.
Proof.
  intros Hs Hv Hopen Ht Hsf seg u cs. unfold captureAudio.
  assert (Eseg : seg = (bytesToSamples v ++ samplesOf body) ++ bytesToSamples t).
  { subst seg. rewrite samplesOf_cons, samplesOf_app.
    replace (samplesOf [t]) with (bytesToSamples t) by (symmetry; apply app_nil_r).
    apply app_assoc. }
  simpl map. simpl captureLoop. rewrite (iter_idle_voiced s 0 v Hs Hv).
  rewrite map_app.
  destruct (loop_rec_open s body (bytesToSamples v) 0 sf (map DequeueOk [t])
              [SdlPauseAudioDevice (deviceID s) false; Sleep 10] Hs Hopen)
    as (acc1 & -> & Ho1).
  simpl map. simpl captureLoop.
  destruct (Z.ltb_spec (AudioFrequency / 4) (Z.of_nat (length seg))) as [Hlong | Hshort].
  - rewrite iter_rec_close_long; try assumption; [| rewrite <- Eseg; exact Hlong].
    rewrite <- Eseg. fold u. fold cs. eexists _, _. split; [reflexivity |].
    split; [reflexivity |]. split; [| reflexivity].
    rewrite !offers_app, Ho1. destruct (snd cs); reflexivity.
  - rewrite iter_rec_close_short; try assumption; [| rewrite <- Eseg; exact Hshort].
    rewrite <- Eseg. eexists _, _. split; [reflexivity |]. split; [reflexivity |].
    split; [rewrite !offers_app, Ho1; reflexivity |]. split; [reflexivity |].
    rewrite existsb_app. apply orb_true_iff. right. reflexivity.
Qed.

(** A word, a pause of three frames, another word and ten frames of
    silence make one utterance of all of it. *)
Lemma segment_is_one_utterance_witness :
  let v := voicedFrame 2000 in
  let body := replicate 3 (silentFrame 100) ++ [voicedFrame 2000]
                ++ replicate 9 (silentFrame 10) in
  let t := silentFrame 10 in
  let s := startedService 2 in
  let seg := samplesOf (v :: body ++ [t]) in
  let u := mkAudioData seg (SampleRate (audioData s)) in
  let cs := try_send (recordingStopped s) u in
  exists s' out,
    captureAudio (map DequeueOk (v :: body ++ [t])) s = Running s' (mkLocals 0 false) out
    /\ isRecording s' = false
    /\ if AudioFrequency / 4 <? Z.of_nat (length seg)
       then offers out = [(u, snd cs)] /\ recordingStopped s' = fst cs
       else offers out = [] /\ recordingStopped s' = recordingStopped s
            /\ existsb isTooShort out = true.
Proof.
  intros v body t s.
  apply (segment_is_one_utterance s v body t 9).
  - split; reflexivity.
  - vm_compute. reflexivity.
  - vm_compute. reflexivity.
  - vm_compute. reflexivity.
  - vm_compute. discriminate.
Defined.

(** An iteration leaves the device id and the flags of the other
    operations alone. *)
Lemma captureIter_control s l d :
  match captureIter s l d with
  | IterContinue s' _ _ | IterReturn s' _ => control s' = control s
  | IterPanic => True
  end.
Proof.
  unfold captureIter.
  destruct (try_recv (stopListening s)) as [c [[] |]]; [reflexivity |].
  destruct (isListening s); simpl; [| reflexivity].
  destruct d as [| buffer]; [reflexivity |].
  destruct (length buffer =? 0)%nat; [reflexivity |].
  destruct (averageLevel (bytesToSamples buffer)) as [average |]; [| exact I].
  unfold detectStart, recordFrame.
  destruct (locRecording l) eqn:El; simpl.
  - rewrite El. destruct (VadThreshold <? average); [reflexivity |].
    destruct (VadSilenceFrames <=? silenceFrames l + 1); [| reflexivity].
    simpl. destruct (AudioFrequency / 4 <? _); [| reflexivity].
    destruct (try_send _ _) as [c' sent]. reflexivity.
  - destruct (VadThreshold <? average); simpl; [reflexivity |]. rewrite El. reflexivity.
Qed.

(** X3.  However the loop of [captureAudio] comes to its end, the deferred
    function has run: the service neither listens nor records any more, and
    the last things done are pausing the device and logging the exit. *)
Theorem capture_exit_always_cleans_up
  (ds : list Dequeue) (s s' : SpeechService) (out : list Event) :
  captureAudio ds s = Exited s' out ->
  isListening s' = false /\ isRecording s' = false
  /\ exists pre, out = pre ++ [SdlPauseAudioDevice (deviceID s) true; LogGoroutineExited].
Proof.
  unfold captureAudio.
  generalize (mkLocals 0 false) as l.
  generalize [SdlPauseAudioDevice (deviceID s) false] as acc.
  assert (H : forall ds s0 l acc,
             deviceID s0 = deviceID s ->
             captureLoop ds s0 l acc = Exited s' out ->
             isListening s' = false /\ isRecording s' = false
             /\ exists pre,
                 out = pre ++ [SdlPauseAudioDevice (deviceID s) true; LogGoroutineExited]).
  { clear ds. induction ds as [| d ds IH]; intros s0 l acc Hdev; simpl; [discriminate |].
    pose proof (captureIter_control s0 l d) as Hd.
    destruct (captureIter s0 l d) as [s1 l1 o | s1 o |]; [| | discriminate];
      apply (f_equal (fun c => fst (fst (fst c)))) in Hd; simpl in Hd.
    - apply IH. rewrite Hd. exact Hdev.
    - intros [= <- <-]. split; [reflexivity |]. split; [reflexivity |].
      exists (acc ++ o). simpl. rewrite Hd, Hdev, <- app_assoc. reflexivity. }
  intros acc l. apply H. reflexivity.
Qed.

Lemma capture_exit_witness :
  isListening (set_isRecording false (set_isListening false NewSpeechService)) = false
  /\ isRecording (set_isRecording false (set_isListening false NewSpeechService)) = false
  /\ exists pre,
      [SdlPauseAudioDevice 0 false; SdlPauseAudioDevice 0 true; LogGoroutineExited]
      = pre ++ [SdlPauseAudioDevice (deviceID NewSpeechService) true; LogGoroutineExited].
Proof.
  apply (capture_exit_always_cleans_up [DequeueOk (voicedFrame 3)] NewSpeechService).
  reflexivity.
Defined.

(** X4.  [StopListening] ends the loop at its next iteration, whatever the device
    returns then and whatever the loop was doing: a segment that was being
    recorded is dropped, nothing is offered, and the hand-off channel is as
    it was. *)
Theorem stop_discards_open_segment
  (s : SpeechService) (l : Locals) (d : Dequeue) (ds : list Dequeue) (acc : list Event) :
  isListening s = true ->
  snd (fst (StopListening s)) = None
  /\ exists s' out,
      captureLoop (d :: ds) (fst (fst (StopListening s))) l acc = Exited s' out
      /\ offers out = offers acc
      /\ isListening s' = false /\ isRecording s' = false
      /\ recordingStopped s' = recordingStopped s.
Proof.
  intros Hl. unfold StopListening. rewrite Hl. simpl. split; [reflexivity |].
  unfold captureIter. simpl.
  destruct (try_recv (try_send (stopListening s) ()).1) as [c [[] |]]; simpl.
  - eexists _, _. split; [reflexivity |]. rewrite offers_app. simpl.
    rewrite app_nil_r. repeat split.
  - eexists _, _. split; [reflexivity |]. rewrite offers_app. simpl.
    rewrite app_nil_r. repeat split.
Qed.

Lemma stop_discards_open_segment_witness :
  let s := recState (startedService 2) (bytesToSamples (voicedFrame 5000)) in
  snd (fst (StopListening s)) = None
  /\ exists s' out,
      captureLoop [DequeueOk (voicedFrame 100)] (fst (fst (StopListening s)))
        (mkLocals 0 true) []
      = Exited s' out
      /\ offers out = offers []
      /\ isListening s' = false /\ isRecording s' = false
      /\ recordingStopped s' = recordingStopped s.
Proof.
  intros s.
  apply (stop_discards_open_segment s (mkLocals 0 true) (DequeueOk (voicedFrame 100)) [] []).
  reflexivity.
Defined.

Lemma accepted_app (a b : list Event) : accepted (a ++ b) = accepted a ++ accepted b.
Proof.
  induction a as [| e a IH]; simpl; [reflexivity |].
  destruct e as [| | | | | | | | | | | | | | | | u [|]]; simpl; rewrite ?IH; reflexivity.
Qed.

Lemma accepted_offers (out : list Event) :
  accepted out
  = omap (fun p : AudioData * bool => if snd p then Some (fst p) else None) (offers out).
Proof.
  induction out as [| e out IH]; simpl; [reflexivity |].
  destruct e as [| | | | | | | | | | | | | | | | u [|]]; simpl; rewrite ?IH; reflexivity.
Qed.

(** What an iteration does to the channel and what it reports agree. *)
Lemma captureIter_accepts s l d :
  match captureIter s l d with
  | IterContinue s' _ out | IterReturn s' out =>
    buf (recordingStopped s') = buf (recordingStopped s) ++ accepted out
  | IterPanic => True
  end.
Proof.
  pose proof (captureIter_channel s l d) as H.
  destruct (captureIter s l d) as [s' l' out | s' out |]; [| | exact I].
  - rewrite accepted_offers. destruct H as [[-> ->] | (u & H)].
    + simpl. rewrite app_nil_r. reflexivity.
    + cbv zeta in H. destruct H as (-> & -> & _). unfold try_send.
      destruct (length (buf (recordingStopped s)) <? cap (recordingStopped s))%nat; simpl;
        [reflexivity | rewrite app_nil_r; reflexivity].
  - rewrite accepted_offers. destruct H as [-> ->]. simpl. rewrite app_nil_r. reflexivity.
Qed.

Lemma sysStep_conserves a y y' :
  accepted (trace y) = delivered y ++ buf (recordingStopped (svc y)) ->
  sysStep a y = Some y' ->
  accepted (trace y') = delivered y' ++ buf (recordingStopped (svc y')).
Proof.
  intros H. destruct a as [ok dev | | g d | | | b |]; simpl.
  - intros [= <-]. simpl. rewrite Initialize_handoff. exact H.
  - pose proof (StartListening_handoff (svc y)) as E. unfold StartListening in *.
    destruct (isInitialized (svc y)), (isListening (svc y)); simpl in *;
      intros [= <-]; simpl; rewrite ?accepted_app, ?app_nil_r; simpl;
      rewrite ?app_nil_r; exact H.
  - destruct (goroutines y !! g) as [l |]; [| intros [= <-]; exact H].
    pose proof (captureIter_accepts (svc y) l d) as Hi.
    destruct (captureIter (svc y) l d) as [s l' out | s out |]; [| | discriminate];
      intros [= <-]; simpl; rewrite !accepted_app, ?Hi, H; simpl;
      rewrite ?app_nil_r, <- ?app_assoc; reflexivity.
  - unfold waitPoll. destruct (isShutdown (svc y)); [intros [= <-]; exact H |].
    unfold try_recv. destruct (buf (recordingStopped (svc y))) as [| a rest] eqn:E.
    + destruct (isListening (svc y)); intros [= <-]; simpl; rewrite E; exact H.
    + intros [= <-]. simpl. rewrite H, <- app_assoc. reflexivity.
  - pose proof (StopListening_handoff (svc y)) as E. unfold StopListening in *.
    destruct (isListening (svc y)); simpl in *; intros [= <-]; simpl;
      rewrite ?accepted_app; simpl; rewrite ?app_nil_r; exact H.
  - intros [= <-]. exact H.
  - pose proof (Cleanup_handoff (svc y)) as E.
    unfold Speech.Cleanup, StopListening in *. simpl in *.
    destruct (isListening (svc y)); simpl in *; intros [= <-]; simpl;
      repeat match goal with
             | |- context [if ?b then _ else _] => destruct b
             end;
      rewrite ?accepted_app; simpl; rewrite ?app_nil_r; exact H.
Qed.

(** X5.  Nothing is lost or duplicated between the loop and the consumer, and
    the order is kept: under every schedule, the utterances the hand-off
    channel took are, in order, those [WaitForRecording] has returned
    followed by the one still pending. *)
Theorem handoff_conserves_utterances (sched : list Action) (y : System) :
  sysRun sched sysInit = Some y ->
  accepted (trace y) = delivered y ++ buf (recordingStopped (svc y)).
Proof.
  assert (H : forall sched y0,
             accepted (trace y0) = delivered y0 ++ buf (recordingStopped (svc y0)) ->
             sysRun sched y0 = Some y ->
             accepted (trace y) = delivered y ++ buf (recordingStopped (svc y))).
  { clear sched. induction sched as [| a sched IH]; intros y0 H0; simpl.
    - intros [= <-]. exact H0.
    - destruct (sysStep a y0) as [y1 |] eqn:E; [| discriminate].
      apply IH. exact (sysStep_conserves a y0 y1 H0 E). }
  apply H. reflexivity.
Qed.

Lemma handoff_conserves_utterances_witness :
  match sysRun (twoUtterances (voicedFrame 4001) (silentFrame 1)) sysInit with
  | Some y => accepted (trace y) = delivered y ++ buf (recordingStopped (svc y))
  | None => False
  end.
Proof.
  assert (Hsome : match sysRun (twoUtterances (voicedFrame 4001) (silentFrame 1)) sysInit with
                  | Some _ => true
                  | None => false
                  end = true) by (vm_compute; reflexivity).
  destruct (sysRun (twoUtterances (voicedFrame 4001) (silentFrame 1)) sysInit)
    as [y |] eqn:E; [| discriminate Hsome].
  exact (handoff_conserves_utterances _ y E).
Defined.




(** X7.  [StopListening] followed by [StartListening] before the goroutine has
    seen the stop: both calls return nil and a second goroutine is started,
    but the first one takes the stop signal, and its deferred function
    clears [isListening], so the second one exits at its next iteration
    too.  Whatever the device returns, no goroutine is left and the service
    is not listening. *)
Theorem restart_before_exit_stops_listening (dev : Z) (d1 d2 : Dequeue) :
  exists y,
    sysRun (quickRestart dev d1 d2) sysInit = Some y
    /\ goroutines y = []
    /\ isListening (svc y) = false
    /\ isInitialized (svc y) = true
    /\ List.filter isSpawnOrExit (trace y)
       = [SpawnCaptureAudio; SpawnCaptureAudio; LogGoroutineExited; LogGoroutineExited].
Proof.
  eexists. split; [vm_compute; reflexivity |].
  split; [reflexivity |]. split; [reflexivity |]. split; reflexivity.
Qed.

End CaptureMore.

(** ** Samples and levels *)

Section Samples.

Import Wav.

(** [|] with a multiple of 256, of either sign. *)
Lemma lor_low_byte (lo k : Z) :
  0 <= lo < 256 -> Z.lor lo (256 * k) = lo + 256 * k.
Proof.
  intros Hlo.
  replace (256 * k) with (Z.shiftl k 8) by (rewrite Z.shiftl_mul_pow2 by lia; lia).
  assert (Hdisjoint : Z.land lo (Z.shiftl k 8) = 0).
  { apply Z.bits_inj'. intros n Hn. rewrite Z.land_spec, Z.bits_0.
    destruct (Z.lt_ge_cases n 8) as [Hlow | Hhigh].
    - rewrite (Z.shiftl_spec_low k 8 n Hlow). apply andb_false_r.
    - replace lo with (lo mod 2 ^ 8) by (apply Z.mod_small; lia).
      rewrite Z.mod_pow2_bits_high by lia. reflexivity. }
  rewrite <- Z.lxor_lor by exact Hdisjoint.
  rewrite <- Z.add_nocarry_lxor by exact Hdisjoint. reflexivity.
Qed.

(** The sample the loop makes of two bytes is the little-endian 16-bit
    value, as a signed number. *)
Lemma sample_of_bytes (lo hi : Z) :
  is_byte lo -> is_byte hi ->
  Z.lor lo (wrap16 (Z.shiftl hi 8)) = wrap16 (lo + 256 * hi)
  /\ is_int16 (Z.lor lo (wrap16 (Z.shiftl hi 8))).
Proof.
  unfold is_byte, is_int16. intros Hlo Hhi.
  rewrite Z.shiftl_mul_pow2 by lia. change (2 ^ 8) with 256.
  assert (E : exists k, wrap16 (hi * 256) = 256 * k /\ -128 <= k < 128
                        /\ wrap16 (lo + 256 * hi) = lo + 256 * k).
  { unfold wrap16. destruct (Z_lt_le_dec hi 128) as [Hs | Hb].
    - exists hi. rewrite !Z.mod_small by lia. lia.
    - exists (hi - 256).
      replace (hi * 256 + 32768) with (hi * 256 - 32768 + 1 * 65536) by lia.
      replace (lo + 256 * hi + 32768) with (lo + 256 * hi - 32768 + 1 * 65536) by lia.
      rewrite !Z.mod_add by lia. rewrite !Z.mod_small by lia. lia. }
  destruct E as (k & -> & Hk & ->). rewrite lor_low_byte by lia. lia.
Qed.

Lemma bytesToSamples_chunkSamples (buffer : list Z) :
  Forall is_byte buffer -> bytesToSamples buffer = chunkSamples buffer.
Proof.
  revert buffer. fix IH 1. intros [| lo [| hi rest]] Hb; try reflexivity.
  simpl. apply Forall_cons in Hb. destruct Hb as [Hlo Hb].
  apply Forall_cons in Hb. destruct Hb as [Hhi Hrest].
  rewrite (IH rest Hrest). f_equal.
  destruct (sample_of_bytes lo hi Hlo Hhi) as [-> _].
  rewrite Z.shiftl_mul_pow2 by lia. change (2 ^ 8) with 256.
  unfold is_byte in *. rewrite (Z.mul_comm hi 256), lor_low_byte by lia. reflexivity.
Qed.

Lemma encodeSamples_bytes (l : list Z) : Forall is_byte (encodeSamples l).
Proof.
  induction l as [| x l IH]; [constructor |].
  simpl. unfold is_byte.
  repeat constructor; try exact IH; change 255 with (Z.ones 8);
    rewrite Z.land_ones by lia; apply Z.mod_pos_bound; lia.
Qed.

(** X8.  The decoder of the capture loop and the one of the WAV reader agree on
    every sequence of bytes, and both undo the encoding the WAV writers
    use: samples written to a file and fed back as device bytes are the
    same samples. *)
Theorem capture_decodes_what_wav_encodes (samples buffer : list Z) :
  Forall is_int16 samples -> Forall is_byte buffer ->
  bytesToSamples (encodeSamples samples) = samples
  /\ bytesToSamples buffer = chunkSamples buffer
  /\ length (bytesToSamples buffer) = (length buffer / 2)%nat.
Proof.
  intros Hs Hb. split; [| split].
  - rewrite bytesToSamples_chunkSamples by apply encodeSamples_bytes.
    apply chunkSamples_encodeSamples. exact Hs.
  - apply bytesToSamples_chunkSamples. exact Hb.
  - clear. revert buffer. fix IH 1. intros [| lo [| hi rest]]; try reflexivity.
    simpl length. rewrite (IH rest).
    change (S (S (length rest))) with (2 + length rest)%nat.
    replace (2 + length rest)%nat with (length rest + 1 * 2)%nat by lia.
    rewrite Nat.div_add by lia. lia.
Qed.

Lemma capture_decodes_what_wav_encodes_witness :
  bytesToSamples (encodeSamples [1; -2; 32767; -32768]) = [1; -2; 32767; -32768]
  /\ bytesToSamples [232; 3; 255] = chunkSamples [232; 3; 255]
  /\ length (bytesToSamples [232; 3; 255]) = (length [232; 3; 255] / 2)%nat.
Proof.
  apply (capture_decodes_what_wav_encodes [1; -2; 32767; -32768] [232; 3; 255]).
  - repeat constructor; unfold is_int16; lia.
  - repeat constructor; unfold is_byte; lia.
Defined.

Lemma bytesToSamples_int16 (buffer : list Z) :
  Forall is_byte buffer -> Forall is_int16 (bytesToSamples buffer).
Proof.
  revert buffer. fix IH 1. intros [| lo [| hi rest]] Hb; try constructor.
  - apply Forall_cons in Hb. destruct Hb as [Hlo Hb].
    apply Forall_cons in Hb. destruct Hb as [Hhi _].
    apply (sample_of_bytes lo hi Hlo Hhi).
  - apply Forall_cons in Hb. destruct Hb as [_ Hb].
    apply Forall_cons in Hb. destruct Hb as [_ Hrest]. exact (IH rest Hrest).
Qed.

Lemma wrap64_small (z : Z) :
  -9223372036854775808 <= z < 9223372036854775808 -> wrap64 z = z.
Proof. intros H. unfold wrap64. rewrite Z.mod_small by lia. lia. Qed.

Lemma sumAbsZ_bounds (samples : list Z) :
  Forall is_int16 samples -> 0 <= sumAbsZ samples <= 32768 * Z.of_nat (length samples).
Proof.
  induction 1 as [| x l Hx _ IH]; simpl; [lia |].
  unfold is_int16 in Hx. fold (sumAbsZ l). lia.
Qed.

(** The [int64] accumulator of the level never wraps on a frame. *)
Lemma sumAbs_exact (samples : list Z) :
  Forall is_int16 samples -> Z.of_nat (length samples) <= 2 ^ 40 ->
  sumAbs samples = sumAbsZ samples.
Proof.
  intros Hs Hn. unfold sumAbs.
  assert (H : forall acc, 0 <= acc ->
                acc + 32768 * Z.of_nat (length samples) <= 2 ^ 56 ->
                fold_left (fun sum sample =>
                             let value := sample in
                             let value := if value <? 0 then wrap64 (- value) else value in
                             wrap64 (sum + value)) samples acc
                = acc + sumAbsZ samples).
  { clear Hn. induction Hs as [| x l Hx _ IH]; intros acc Hacc Hb; simpl; [lia |].
    unfold is_int16 in Hx. simpl length in Hb. fold (sumAbsZ l).
    assert (Hv : (if x <? 0 then wrap64 (- x) else x) = Z.abs x).
    { destruct (Z.ltb_spec x 0); [rewrite wrap64_small by lia |]; lia. }
    rewrite Hv. change (2 ^ 56) with 72057594037927936 in Hb.
    rewrite wrap64_small by lia.
    rewrite IH; [lia | lia |]. change (2 ^ 56) with 72057594037927936. lia. }
  rewrite H; [lia | lia |].
  change (2 ^ 40) with 1099511627776 in Hn. change (2 ^ 56) with 72057594037927936. lia.
Qed.

Lemma averageLevel_nonempty (l : list Z) :
  l <> [] -> averageLevel l = Some (Z.quot (sumAbs l) (Z.of_nat (length l))).
Proof. destruct l; [congruence | reflexivity]. Qed.

(** X9.  Every read of at least two bytes has a level: the division cannot
    panic, the accumulator does not overflow, the level is the mean
    magnitude rounded down, between 0 and 32768, and the frame is voiced
    exactly when the magnitudes sum to at least 101 per sample; otherwise
    it is silent. *)
Theorem frame_level_is_exact (buffer : list Z) :
  Forall is_byte buffer ->
  (2 <= length buffer)%nat -> Z.of_nat (length buffer) <= 2 * AudioSamples ->
  let samples := bytesToSamples buffer in
  let n := Z.of_nat (length samples) in
  averageLevel samples = Some (sumAbsZ samples / n)
  /\ 0 <= sumAbsZ samples / n <= 32768
  /\ (voiced buffer = true <-> (VadThreshold + 1) * n <= sumAbsZ samples)
  /\ silent buffer = negb (voiced buffer).
Proof.
  intros Hb Hlen Hmax samples n.
  pose proof (bytesToSamples_int16 buffer Hb) as Hs. fold samples in Hs.
  assert (Hn : 0 < n).
  { subst n samples. destruct buffer as [| lo [| hi rest]]; simpl in *; lia. }
  assert (Hn' : n <= 2 ^ 40).
  { subst n samples.
    destruct (capture_decodes_what_wav_encodes [] buffer (Forall_nil_2 _) Hb) as (_ & _ & ->).
    unfold AudioSamples in Hmax. change (2 ^ 40) with 1099511627776.
    assert (length buffer / 2 <= length buffer)%nat
      by (apply Nat.Div0.div_le_upper_bound; lia).
    lia. }
  pose proof (sumAbsZ_bounds samples Hs) as Hsum. fold n in Hsum.
  assert (Hav : averageLevel samples = Some (sumAbsZ samples / n)).
  { rewrite averageLevel_nonempty by (intros E; subst n; rewrite E in Hn; simpl in Hn; lia).
    rewrite sumAbs_exact by assumption.
    fold n. rewrite Z.quot_div_nonneg by lia. reflexivity. }
  assert (Hq : 0 <= sumAbsZ samples / n <= 32768).
  { split; [apply Z.div_pos; lia | apply Z.div_le_upper_bound; lia]. }
  split; [exact Hav |]. split; [exact Hq |].
  unfold voiced, silent. fold samples. rewrite Hav. split; [| reflexivity].
  unfold VadThreshold. rewrite Z.ltb_lt.
  pose proof (Z.div_mod (sumAbsZ samples) n ltac:(lia)) as Hdm.
  pose proof (Z.mod_pos_bound (sumAbsZ samples) n Hn) as Hm.
  split; intros H; nia.
Qed.

Lemma frame_level_is_exact_witness :
  let buffer := voicedFrame 160 in
  let samples := bytesToSamples buffer in
  let n := Z.of_nat (length samples) in
  averageLevel samples = Some (sumAbsZ samples / n)
  /\ 0 <= sumAbsZ samples / n <= 32768
  /\ (voiced buffer = true <-> (VadThreshold + 1) * n <= sumAbsZ samples)
  /\ silent buffer = negb (voiced buffer).
Proof.
  apply (frame_level_is_exact (voicedFrame 160)).
  - unfold voicedFrame. apply Forall_concat, Forall_replicate.
    repeat constructor; unfold is_byte; lia.
  - vm_compute. lia.
  - vm_compute. discriminate.
Defined.

End Samples.

(** ** More about WAV files *)

Section WavMore.

Import Wav.

Lemma leValue_le32 (v : Z) : 0 <= v < 4294967296 -> leValue (le32 v) = v.
Proof.
  intros Hv. unfold leValue, le32. simpl.
  change 255 with (Z.ones 8). rewrite !Z.land_ones by lia.
  rewrite !Z.shiftr_div_pow2 by lia.
  change (2 ^ 8) with 256. change (2 ^ 16) with 65536. change (2 ^ 24) with 16777216.
  Z.div_mod_to_equations. lia.
Qed.





(** X11.  The sizes in the header of a written file are those of the file: the
    data size field, read as a little-endian number, is the number of bytes
    after the header, two per sample, and the RIFF size field is the size
    of the file less 8.  The rate field is the rate and the byte rate field
    is twice the rate. *)
Theorem wav_header_describes_the_file (samples : list Z) (sampleRate : Z) :
  Z.of_nat (length samples) < 2147483630 -> 0 <= sampleRate < 2147483648 ->
  exists content,
    writeWavFile allOk samples sampleRate = (None, Some content)
    /\ Z.of_nat (length content) = 44 + 2 * Z.of_nat (length samples)
    /\ leValue (take 4 (drop 40 content)) = 2 * Z.of_nat (length samples)
    /\ leValue (take 4 (drop 4 content)) = Z.of_nat (length content) - 8
    /\ leValue (take 4 (drop 24 content)) = sampleRate
    /\ leValue (take 4 (drop 28 content)) = 2 * sampleRate.
Proof.
  intros Hn Hr. eexists. split; [reflexivity |].
  assert (Hlen : Z.of_nat (length (encodeHeader (makeHeader samples sampleRate)
                                     ++ encodeSamples samples))
                 = 44 + 2 * Z.of_nat (length samples)).
  { rewrite length_app, length_encodeSamples, length_encodeHeader by reflexivity. lia. }
  assert (Hdata : wrapU32 (wrapInt (Z.of_nat (length samples) * 2))
                  = 2 * Z.of_nat (length samples)).
  { unfold wrapU32, wrapInt. rewrite wrap64_small by lia. rewrite Z.mod_small by lia. lia. }
  split; [exact Hlen |]. rewrite Hlen.
  change (take 4 (drop 40 (encodeHeader (makeHeader samples sampleRate)
                             ++ encodeSamples samples)))
    with (le32 (wrapU32 (wrapInt (Z.of_nat (length samples) * 2)))).
  change (take 4 (drop 4 (encodeHeader (makeHeader samples sampleRate)
                            ++ encodeSamples samples)))
    with (le32 (wrapU32 (36 + wrapU32 (wrapInt (Z.of_nat (length samples) * 2))))).
  change (take 4 (drop 24 (encodeHeader (makeHeader samples sampleRate)
                             ++ encodeSamples samples)))
    with (le32 (wrapU32 sampleRate)).
  change (take 4 (drop 28 (encodeHeader (makeHeader samples sampleRate)
                             ++ encodeSamples samples)))
    with (le32 (wrapU32 (Z.quot (wrapInt (wrapInt (sampleRate * 1) * 16)) 8))).
  rewrite Hdata.
  assert (Hrate : wrapU32 sampleRate = sampleRate) by (apply Z.mod_small; lia).
  assert (Hbyte : wrapU32 (Z.quot (wrapInt (wrapInt (sampleRate * 1) * 16)) 8)
                  = 2 * sampleRate).
  { unfold wrapInt. rewrite (wrap64_small (sampleRate * 1)) by lia.
    rewrite wrap64_small by lia.
    replace (sampleRate * 1 * 16) with (2 * sampleRate * 8) by lia.
    rewrite Z.quot_mul by lia. apply Z.mod_small. lia. }
  rewrite Hrate, Hbyte.
  assert (Hriff : wrapU32 (36 + 2 * Z.of_nat (length samples))
                  = 36 + 2 * Z.of_nat (length samples)) by (apply Z.mod_small; lia).
  rewrite Hriff. rewrite !leValue_le32 by lia. repeat split; lia.
Qed.

Lemma wav_header_describes_the_file_witness :
  exists content,
    writeWavFile allOk [1; -2; 3] 16000 = (None, Some content)
    /\ Z.of_nat (length content) = 44 + 2 * Z.of_nat (length [1; -2; 3])
    /\ leValue (take 4 (drop 40 content)) = 2 * Z.of_nat (length [1; -2; 3])
    /\ leValue (take 4 (drop 4 content)) = Z.of_nat (length content) - 8
    /\ leValue (take 4 (drop 24 content)) = 16000
    /\ leValue (take 4 (drop 28 content)) = 2 * 16000.
Proof.
  apply (wav_header_describes_the_file [1; -2; 3] 16000); simpl; lia.
Defined.

End WavMore.

(** ** More about the backend *)

Section BackendMore.

Import Whisper.

#[local] Arguments countOf : simpl never.

Lemma countOf_app {A : Type} (p : A -> bool) (a b : list A) :
  countOf p (a ++ b) = (countOf p a + countOf p b)%nat.
Proof. unfold countOf. rewrite List.filter_app, length_app. reflexivity. Qed.


(** The retry loop touches no file. *)
Lemma retryLoop_no_file w m todo attempt last :
  countOf isWriteTemp (snd (retryLoop w m todo attempt last)) = 0%nat
  /\ countOf isRemoveTemp (snd (retryLoop w m todo attempt last)) = 0%nat.
Proof.
  revert attempt last. induction todo as [| todo IH]; intros attempt last; simpl;
    [split; reflexivity |].
  destruct (httpDo w attempt).
  - specialize (IH (S attempt) (Some TransportFailure)).
    destruct (retryLoop w m todo (S attempt) (Some TransportFailure)) as [r out].
    simpl in *. rewrite !countOf_app. destruct IH as [Hw Hr]. unfold countOf in *.
    destruct (0 <? attempt)%nat; simpl; rewrite Hw, Hr; split; reflexivity.
  - simpl. rewrite !countOf_app. unfold countOf.
    destruct (0 <? attempt)%nat; split; reflexivity.
Qed.

Ltac count_trace :=
  simpl; rewrite ?countOf_app, ?last_snoc; unfold countOf; simpl;
  repeat split; try reflexivity; try lia; try discriminate.

(** X12.  The temporary WAV file of [Transcribe].  The file is removed exactly
    when it was written in full, once, and removing it is then the last
    thing the call does, on every path: errors, the panic paths and
    success.  When the file is created but writing it fails, the call
    returns the save error and the file is left behind. *)
Theorem transcribe_removes_the_file_it_wrote
  (w : World) (s : WhisperServerService) (audio : option AudioData) :
  let out := snd (Transcribe w s audio) in
  countOf isRemoveTemp out = countOf isWriteTemp out
  /\ (countOf isWriteTemp out <= 1)%nat
  /\ (countOf isWriteTemp out = 1%nat -> last out = Some RemoveTemp)
  /\ (forall a,
        isRunning s = true -> audio = Some a -> Samples a <> [] ->
        Wav.createOk (tempFile w) = true ->
        Wav.writeHeaderOk (tempFile w) && Wav.writeSamplesOk (tempFile w) = false ->
        Transcribe w s audio = (Err ErrSaveAudio, [CreateTemp])).
Proof.
  intros out. subst out. split; [| split; [| split]].
  4: { intros a Hrun -> Hs Hc Hw. unfold Transcribe. rewrite Hrun. simpl.
       destruct (Samples a) as [| x l] eqn:E; [congruence |]. simpl.
       unfold saveWavFile, Wav.writeWavFile. rewrite Hc. simpl.
       destruct (Wav.writeHeaderOk (tempFile w)); simpl in *; [rewrite Hw |]; reflexivity. }
  all: unfold Transcribe;
    destruct (isRunning s); [| count_trace];
    destruct audio as [a |]; [| count_trace];
    destruct (length (Samples a) =? 0)%nat; [count_trace |];
    unfold saveWavFile, Wav.writeWavFile;
    destruct (Wav.createOk (tempFile w)); [| count_trace];
    destruct (Wav.writeHeaderOk (tempFile w)); [| count_trace];
    destruct (Wav.writeSamplesOk (tempFile w)); [| count_trace];
    simpl;
    destruct (openOk w); [| count_trace];
    destruct (createFormFileOk w); [| count_trace];
    destruct (copyOk w); [| count_trace];
    destruct (closeWriterOk w); [| count_trace];
    destruct (newRequestOk w); [| count_trace];
    destruct (cmd s) as [[[pid |]] |]; try count_trace;
    pose proof (retryLoop_no_file w (maxRetries s) (Z.to_nat (maxRetries s)) 0 None)
      as [Hw Hr];
    destruct (retryLoop w (maxRetries s) (Z.to_nat (maxRetries s)) 0 None) as [r o];
    simpl in Hw, Hr;
    destruct r as [[| status body parsed] |];
      [| destruct (status =? 200); [destruct parsed |] |];
    unfold countOf in *; simpl;
    rewrite ?List.filter_app, ?length_app, ?Hw, ?Hr; simpl;
    repeat split; try lia;
    intros _; rewrite ?app_comm_cons; apply last_snoc.
Qed.

Lemma transcribe_removes_the_file_it_wrote_witness :
  Transcribe (mkWorld (Wav.mkWriteWorld true true false) true true true true true neverAnswers)
    (runningService 4242) (Some (mkAudioData [1; -1] 16000))
  = (Err ErrSaveAudio, [CreateTemp]).
Proof.
  destruct (transcribe_removes_the_file_it_wrote
              (mkWorld (Wav.mkWriteWorld true true false) true true true true true
                 neverAnswers)
              (runningService 4242) (Some (mkAudioData [1; -1] 16000)))
    as (_ & _ & _ & H).
  apply (H (mkAudioData [1; -1] 16000)); try reflexivity. discriminate.
Defined.




(** X14.  A service whose retry count is zero or less (the zero value of the
    struct) sends no request at all, and [Transcribe] panics on the nil
    response once the request is built. *)
Theorem transcribe_without_retries_panics
  (w : World) (s : WhisperServerService) (audio : AudioData) :
  requestReady w s audio -> maxRetries s <= 0 ->
  fst (Transcribe w s (Some audio)) = Panic
  /\ attempts (snd (Transcribe w s (Some audio))) = 0%nat.
Proof.
  intros Hready Hzero.
  destruct (Transcribe_ready w s audio Hready) as [Hres Hatt]. cbv zeta in Hres, Hatt.
  rewrite Hres, Hatt. replace (Z.to_nat (maxRetries s)) with 0%nat by lia.
  split; reflexivity.
Qed.

Lemma transcribe_without_retries_panics_witness :
  let s := mkWhisper (Some (mkCmd (Some 4242))) "" true 0 in
  let audio := mkAudioData [1; -1] 16000 in
  fst (Transcribe (worldOf neverAnswers) s (Some audio)) = Panic
  /\ attempts (snd (Transcribe (worldOf neverAnswers) s (Some audio))) = 0%nat.
Proof.
  intros s audio. apply (transcribe_without_retries_panics (worldOf neverAnswers) s audio).
  - repeat split; try reflexivity; [discriminate | exists 4242; reflexivity].
  - simpl. lia.
Defined.

(** X15.  [Cleanup] escalates in order and never fails.  On a running backend
    with a process it interrupts the process; it kills it only when the
    process has not exited a second later, and runs the system [kill] only
    when it still has not exited a second after that.  It returns nil even
    when every one of these fails, leaves the backend not running, and a
    [Transcribe] after it is refused before any effect. *)
Theorem cleanup_escalates_and_fences
  (pw : ProcWorld) (s : WhisperServerService) (pid : Z) (w : World)
  (audio : option AudioData) :
  isRunning s = true -> cmd s = Some (mkCmd (Some pid)) ->
  let '(s', err, out) := Whisper.Cleanup pw s in
  err = None
  /\ isRunning s' = false
  /\ signalsOf out
     = SignalInterrupt pid
         :: (if exitsAfterInterrupt pw then []
             else Kill pid :: (if exitsAfterKill pw then [] else [SystemKill pid]))
  /\ Transcribe w s' audio = (Err ErrNotRunning, []).
Proof.
  intros Hrun Hcmd. unfold Whisper.Cleanup. rewrite Hrun. simpl. rewrite Hcmd.
  split; [reflexivity |]. split; [reflexivity |]. split; [| reflexivity].
  destruct (signalOk pw), (exitsAfterInterrupt pw), (killOk pw), (exitsAfterKill pw),
    (systemKillOk pw); reflexivity.
Qed.

Lemma cleanup_escalates_and_fences_witness :
  let '(s', err, out) :=
    Whisper.Cleanup (mkProcWorld false false false false false) (runningService 4242) in
  err = None
  /\ isRunning s' = false
  /\ signalsOf out = [SignalInterrupt 4242; Kill 4242; SystemKill 4242]
  /\ Transcribe (worldOf neverAnswers) s' None = (Err ErrNotRunning, []).
Proof.
  apply (cleanup_escalates_and_fences (mkProcWorld false false false false false)
           (runningService 4242) 4242 (worldOf neverAnswers) None); reflexivity.
Defined.

End BackendMore.

(** ** Starting the whisper server *)

Section ServerStart.

Import Whisper.
Import Server.

Lemma gets_app (a b : list StartEvent) : gets (a ++ b) = gets a ++ gets b.
Proof.
  induction a as [| e a IH]; simpl; [reflexivity |].
  destruct e; simpl; rewrite ?IH; reflexivity.
Qed.

Lemma pauses_app (a b : list StartEvent) : pauses (a ++ b) = pauses a ++ pauses b.
Proof.
  induction a as [| e a IH]; simpl; [reflexivity |].
  destruct e; simpl; rewrite ?IH; reflexivity.
Qed.


(** The server answers request [k] and has not been seen to exit. *)
Lemma healthLoop_ready w url k : forall todo i,
  (k < todo)%nat ->
  (forall j, (j < k)%nat -> exitedAt w (i + j) = false /\ getOk w (i + j) = false) ->
  exitedAt w (i + k) = false -> getOk w (i + k) = true ->
  exists out,
    healthLoop w url todo i = (Ready, out)
    /\ gets out = seq i (S k) /\ pauses out = replicate (S k) 100.
Proof.
  induction k as [| k IH]; intros todo i Hk Hbefore Hexit Hget;
    (destruct todo as [| todo]; [lia |]); simpl.
  - rewrite Nat.add_0_r in Hexit, Hget. rewrite Hexit, Hget.
    eexists. split; [reflexivity |]. split; reflexivity.
  - destruct (Hbefore 0%nat ltac:(lia)) as [He Hg]. rewrite Nat.add_0_r in He, Hg.
    rewrite He, Hg.
    destruct (IH todo (S i)) as (out & -> & Hgets & Hpauses); try lia.
    + intros j Hj. replace (S i + j)%nat with (i + S j)%nat by lia. apply Hbefore. lia.
    + replace (S i + k)%nat with (i + S k)%nat by lia. exact Hexit.
    + replace (S i + k)%nat with (i + S k)%nat by lia. exact Hget.
    + eexists. split; [reflexivity |]. simpl. rewrite Hgets, Hpauses. split; reflexivity.
Qed.

(** The process is seen to have exited at check [k], before any answer. *)
Lemma healthLoop_exited w url k : forall todo i,
  (k < todo)%nat ->
  (forall j, (j < k)%nat -> exitedAt w (i + j) = false /\ getOk w (i + j) = false) ->
  exitedAt w (i + k) = true ->
  exists out,
    healthLoop w url todo i = (ExitedEarly, out)
    /\ gets out = seq i k /\ pauses out = replicate (S k) 100.
Proof.
  induction k as [| k IH]; intros todo i Hk Hbefore Hexit;
    (destruct todo as [| todo]; [lia |]); simpl.
  - rewrite Nat.add_0_r in Hexit. rewrite Hexit.
    eexists. split; [reflexivity |]. split; reflexivity.
  - destruct (Hbefore 0%nat ltac:(lia)) as [He Hg]. rewrite Nat.add_0_r in He, Hg.
    rewrite He, Hg.
    destruct (IH todo (S i)) as (out & -> & Hgets & Hpauses); try lia.
    + intros j Hj. replace (S i + j)%nat with (i + S j)%nat by lia. apply Hbefore. lia.
    + replace (S i + k)%nat with (i + S k)%nat by lia. exact Hexit.
    + eexists. split; [reflexivity |]. simpl. rewrite Hgets, Hpauses. split; reflexivity.
Qed.

(** No answer and no exit in any of the checks. *)
Lemma healthLoop_never w url : forall todo i,
  (forall j, (j < todo)%nat -> exitedAt w (i + j) = false /\ getOk w (i + j) = false) ->
  exists out,
    healthLoop w url todo i = (NeverReady, out)
    /\ gets out = seq i todo /\ pauses out = replicate todo 100.
Proof.
  induction todo as [| todo IH]; intros i Hnone; simpl.
  - eexists. split; [reflexivity |]. split; reflexivity.
  - destruct (Hnone 0%nat ltac:(lia)) as [He Hg]. rewrite Nat.add_0_r in He, Hg.
    rewrite He, Hg.
    destruct (IH (S i)) as (out & -> & Hgets & Hpauses).
    + intros j Hj. replace (S i + j)%nat with (i + S j)%nat by lia. apply Hnone. lia.
    + eexists. split; [reflexivity |]. simpl. rewrite Hgets, Hpauses. split; reflexivity.
Qed.


#[local] Arguments healthLoop : simpl never.


(** X17.  When the started server neither answers nor exits during the 30 checks,
    [Initialize] does not return: after 30 pauses and 30 requests it calls
    [Cleanup], whose [IsRunning] locks the mutex [Initialize] still holds. The
    running flag stays set. *)
Theorem initialize_blocks_when_server_never_answers config w pw s pid :
  canStart w s pid ->
  (forall j, (j < 30)%nat -> exitedAt w j = false /\ getOk w j = false) ->
  exists s' out,
    Initialize config w pw s = (Deadlocked s', out)
    /\ isRunning s' = true
    /\ gets out = seq 0 30
    /\ pauses out = replicate 30 100.
Proof.
  intros (Hrun & Hstat & Hlog & Hpid) Hnone.
  destruct (healthLoop_never w (urlOf config) 30 0) as (o & Hloop & Hg & Hp).
  { intros j Hj. simpl. apply Hnone. exact Hj. }
  unfold Initialize. rewrite Hrun, Hstat, Hlog, Hpid. simpl. rewrite Hloop. simpl.
  eexists. eexists. split; [reflexivity |]. simpl.
  split; [reflexivity |]. split; assumption.
Qed.

Lemma initialize_blocks_witness :
  exists s' out,
    Initialize (defaultConfig "model.bin" "whisper-server") neverReady
      (mkProcWorld true true true true true) NewWhisperServerService = (Deadlocked s', out)
    /\ isRunning s' = true
    /\ gets out = seq 0 30
    /\ pauses out = replicate 30 100.
Proof.
  apply (initialize_blocks_when_server_never_answers _ neverReady _ _ 4242).
  - repeat split.
  - intros j _. split; reflexivity.
Defined.

(** X18.  When the server first answers at check [k] (k < 30) and has not been seen
    to exit, [Initialize] returns nil after exactly k+1 pauses of 100 ms and
    k+1 requests, with the running flag set, the URL built from host and port
    and the process recorded. *)
Theorem initialize_returns_at_first_answer config w pw s pid k :
  canStart w s pid ->
  (k < 30)%nat ->
  (forall j, (j < k)%nat -> exitedAt w j = false /\ getOk w j = false) ->
  exitedAt w k = false -> getOk w k = true ->
  exists s' out,
    Initialize config w pw s = (Returned s' None, out)
    /\ isRunning s' = true
    /\ serverURL s' = urlOf config
    /\ cmd s' = Some (mkCmd (Some pid))
    /\ gets out = seq 0 (S k)
    /\ pauses out = replicate (S k) 100.
Proof.
  intros (Hrun & Hstat & Hlog & Hpid) Hk Hbefore Hexit Hget.
  destruct (healthLoop_ready w (urlOf config) k 30 0) as (o & Hloop & Hg & Hp);
    try assumption.
  unfold Initialize. rewrite Hrun, Hstat, Hlog, Hpid. simpl. rewrite Hloop. simpl.
  eexists. eexists. split; [reflexivity |]. simpl.
  split; [reflexivity |]. split; [reflexivity |]. split; [reflexivity |].
  split; assumption.
Qed.

Lemma initialize_returns_witness :
  exists s' out,
    Initialize (defaultConfig "model.bin" "whisper-server") (answersAt 2)
      (mkProcWorld true true true true true) NewWhisperServerService = (Returned s' None, out)
    /\ isRunning s' = true
    /\ serverURL s' = "http://127.0.0.1:8080"%string
    /\ cmd s' = Some (mkCmd (Some 4242))
    /\ gets out = [0; 1; 2]%nat
    /\ pauses out = [100; 100; 100].
Proof.
  apply (initialize_returns_at_first_answer
           (defaultConfig "model.bin" "whisper-server") (answersAt 2) _ _ 4242 2).
  - repeat split.
  - lia.
  - intros j Hj. split; [reflexivity |].
    destruct j as [| [| j]]; [reflexivity | reflexivity | lia].
  - reflexivity.
  - reflexivity.
Defined.

(** X19.  When the process is seen to have exited at check [k] before any answer,
    [Initialize] returns the error with the process's stderr text (its stdout
    text when stderr is empty) and makes no request at that check.  The
    running flag is still set when it returns: a second [Initialize] then
    reports success without starting anything, until the monitor goroutine
    clears the flag. *)
Theorem initialize_early_exit_keeps_running_flag config w pw s pid k :
  canStart w s pid ->
  (k < 30)%nat ->
  (forall j, (j < k)%nat -> exitedAt w j = false /\ getOk w j = false) ->
  exitedAt w k = true ->
  exists s' out,
    Initialize config w pw s
      = (Returned s' (Some (ErrExitedUnexpectedly
                              (if String.eqb (stderrText w) "" then stdoutText w
                               else stderrText w))), out)
    /\ gets out = seq 0 k
    /\ pauses out = replicate (S k) 100
    /\ isRunning s' = true
    /\ (forall config' w' pw', Initialize config' w' pw' s' = (Returned s' None, []))
    /\ isRunning (fst (monitorExit s')) = false.
Proof.
  intros (Hrun & Hstat & Hlog & Hpid) Hk Hbefore Hexit.
  destruct (healthLoop_exited w (urlOf config) k 30 0) as (o & Hloop & Hg & Hp);
    try assumption.
  unfold Initialize at 1. rewrite Hrun, Hstat, Hlog, Hpid. simpl. rewrite Hloop. simpl.
  eexists. eexists. split; [reflexivity |]. simpl.
  split; [assumption |]. split; [assumption |]. split; [reflexivity |].
  split; [intros; reflexivity | reflexivity].
Qed.

Lemma initialize_early_exit_witness :
  exists s' out,
    Initialize (defaultConfig "model.bin" "whisper-server")
      (exitsAt 1 "" "error: failed to load model") (mkProcWorld true true true true true)
      NewWhisperServerService
      = (Returned s' (Some (ErrExitedUnexpectedly "error: failed to load model")), out)
    /\ gets out = [0%nat]
    /\ pauses out = [100; 100]
    /\ isRunning s' = true
    /\ (forall config' w' pw', Initialize config' w' pw' s' = (Returned s' None, []))
    /\ isRunning (fst (monitorExit s')) = false.
Proof.
  apply (initialize_early_exit_keeps_running_flag
           (defaultConfig "model.bin" "whisper-server")
           (exitsAt 1 "" "error: failed to load model") _ _ 4242 1).
  - repeat split.
  - lia.
  - intros j Hj. assert (j = 0%nat) as -> by lia. split; reflexivity.
  - reflexivity.
Defined.

(** X20.  A start that fails before the process runs (executable missing, log file
    not created, or [cmd.Start] failing) returns an error at once: nothing is
    awaited or requested, no monitor is spawned, the service stays not
    running, and the log file, when it was created, is closed again. *)
Theorem initialize_failed_start_leaves_service_stopped config w pw s :
  isRunning s = false ->
  statOk w = false \/ createLogOk w = false \/ startPid w = None ->
  exists s' e out,
    Initialize config w pw s = (Returned s' (Some e), out)
    /\ isRunning s' = false
    /\ gets out = [] /\ pauses out = []
    /\ ~ In SpawnMonitor out
    /\ (In CreateLogFile out <-> In CloseLogFile out)
    /\ Whisper.Cleanup pw s' = (s', None, []).
Proof.
  intros Hrun Hfail. unfold Initialize. rewrite Hrun.
  assert (Hclean : forall c u, Whisper.Cleanup pw (mkWhisper c u false (maxRetries s))
                               = (mkWhisper c u false (maxRetries s), None, [])).
  { intros c u. reflexivity. }
  destruct (statOk w) eqn:Hstat; simpl.
  2:{ exists s, ErrExecutableNotFound, []. split; [reflexivity |].
      split; [exact Hrun |]. split; [reflexivity |]. split; [reflexivity |].
      split; [intros [] |]. split; [split; intros [] |].
      unfold Whisper.Cleanup. rewrite Hrun. reflexivity. }
  destruct (createLogOk w) eqn:Hlog; simpl.
  2:{ eexists. eexists. eexists. split; [reflexivity |]. simpl.
      split; [exact Hrun |]. split; [reflexivity |]. split; [reflexivity |].
      split; [intros [H | []]; discriminate |].
      split; [split; intros [H | []]; discriminate |].
      unfold Whisper.Cleanup. simpl. rewrite Hrun. reflexivity. }
  destruct (startPid w) as [pid |] eqn:Hpid; simpl.
  { destruct Hfail as [H | [H | H]]; discriminate. }
  eexists. eexists. eexists. split; [reflexivity |]. simpl.
  split; [exact Hrun |]. split; [reflexivity |]. split; [reflexivity |].
  split; [intros [H | [H | [H | [H | []]]]]; discriminate |].
  split; [split; intros _; auto |].
  unfold Whisper.Cleanup. simpl. rewrite Hrun. reflexivity.
Qed.

Lemma initialize_failed_start_witness :
  exists s' e out,
    Initialize (defaultConfig "model.bin" "whisper-server")
      (mkStartWorld true true None (fun _ => false) (fun _ => true) "" "")
      (mkProcWorld true true true true true) NewWhisperServerService
      = (Returned s' (Some e), out)
    /\ isRunning s' = false
    /\ gets out = [] /\ pauses out = []
    /\ ~ In SpawnMonitor out
    /\ (In CreateLogFile out <-> In CloseLogFile out)
    /\ Whisper.Cleanup (mkProcWorld true true true true true) s' = (s', None, []).
Proof.
  apply initialize_failed_start_leaves_service_stopped.
  - reflexivity.
  - right. right. reflexivity.
Defined.

End ServerStart.

(** ** The SDL callback and its buffer *)

Section CallbackBuffer.

Import Speech.
Import Callback.

Lemma length_copy (dst src : list Z) : length (copy dst src) = length dst.
Proof.
  unfold copy. rewrite length_app, length_take, length_drop. lia.
Qed.

Lemma copy_short (dst src : list Z) :
  (length src <= length dst)%nat -> copy dst src = src ++ drop (length src) dst.
Proof.
  intros H. unfold copy. rewrite take_ge by lia. reflexivity.
Qed.

(** Writing [src] at position [k] of [b], when it fits. *)
Lemma copy_at_position (b src : list Z) (k : nat) :
  (k + length src <= length b)%nat ->
  take k b ++ copy (drop k b) src = take k b ++ src ++ drop (k + length src) b.
Proof.
  intros H. rewrite copy_short by (rewrite length_drop; lia).
  rewrite drop_drop. reflexivity.
Qed.

Lemma take_front (front src rest : list Z) (k : nat) :
  k = (length front + length src)%nat ->
  take k (front ++ src ++ rest) = front ++ src.
Proof.
  intros ->. rewrite app_assoc. rewrite take_app_length'; [reflexivity |].
  rewrite length_app. reflexivity.
Qed.

(** What one call stores, on natural-number sizes. *)
Lemma store_appends (b samples : list Z) (k : nat) :
  (k + length samples <= length b)%nat ->
  let b' := take k b ++ copy (drop k b) samples in
  length b' = length b /\ take (k + length samples) b' = take k b ++ samples.
Proof.
  intros H. simpl. split.
  - rewrite length_app, length_copy, length_take, length_drop. lia.
  - rewrite copy_at_position by lia. apply take_front.
    rewrite length_take. lia.
Qed.

Lemma store_shifts (b samples : list Z) (k : nat) :
  (length samples <= k <= length b)%nat ->
  let n := length samples in
  let b1 := copy b (drop n (take k b)) in
  let b' := take (k - n) b1 ++ copy (drop (k - n) b1) samples in
  length b' = length b /\ take k b' = drop n (take k b ++ samples).
Proof.
  intros H. simpl.
  set (n := length samples). set (oldest := drop n (take k b)).
  assert (Hold : length oldest = (k - n)%nat).
  { unfold oldest. rewrite length_drop, length_take. lia. }
  assert (Hb1 : copy b oldest = oldest ++ drop (k - n) b).
  { rewrite copy_short by lia. rewrite Hold. reflexivity. }
  rewrite Hb1.
  assert (Htake : take (k - n) (oldest ++ drop (k - n) b) = oldest).
  { rewrite take_app_length'; [reflexivity | symmetry; exact Hold]. }
  assert (Hdrop : drop (k - n) (oldest ++ drop (k - n) b) = drop (k - n) b).
  { rewrite drop_app_length'; [reflexivity | symmetry; exact Hold]. }
  rewrite Htake, Hdrop. split.
  - rewrite length_app, length_copy, length_drop. lia.
  - rewrite copy_short by (rewrite length_drop; fold n; lia).
    rewrite (take_front oldest samples) by (rewrite Hold; fold n; lia).
    unfold oldest. rewrite drop_app_le by (rewrite length_take; lia).
    reflexivity.
Qed.

#[local] Arguments VadThreshold : simpl never.
#[local] Arguments VadSilenceFrames : simpl never.

Lemma slice_in_range (b : list Z) (lo hi : nat) :
  (lo <= hi <= length b)%nat ->
  slice b (Z.of_nat lo) (Z.of_nat hi) = Some (drop lo (take hi b)).
Proof.
  intros H. unfold slice.
  replace (0 <=? Z.of_nat lo) with true by (symmetry; apply Z.leb_le; lia).
  replace (Z.of_nat lo <=? Z.of_nat hi) with true by (symmetry; apply Z.leb_le; lia).
  replace (Z.of_nat hi <=? Z.of_nat (length b)) with true by (symmetry; apply Z.leb_le; lia).
  simpl. rewrite !Nat2Z.id. reflexivity.
Qed.

Lemma copyAt_in_range (b src : list Z) (k : nat) :
  (k <= length b)%nat ->
  copyAt b (Z.of_nat k) src = Some (take k b ++ copy (drop k b) src).
Proof.
  intros H. unfold copyAt.
  replace (0 <=? Z.of_nat k) with true by (symmetry; apply Z.leb_le; lia).
  replace (Z.of_nat k <=? Z.of_nat (length b)) with true by (symmetry; apply Z.leb_le; lia).
  simpl. rewrite Nat2Z.id. reflexivity.
Qed.

(** The storing half of the callback, on a buffer [b] holding [k] samples. *)
Lemma store_ok (b samples : list Z) (k : nat) (sf : Z) (act : bool) :
  (2 * length samples <= length b)%nat -> (k <= length b)%nat ->
  Z.of_nat (length b) < 2 ^ 62 ->
  exists b' k',
    match
      (if Z.of_nat (length b) <? wrapInt (Z.of_nat k + Z.of_nat (length samples)) then
         match slice b (Z.of_nat (length samples)) (Z.of_nat k) with
         | None => None
         | Some oldest =>
           Some (mkCallback (copy b oldest)
                   (wrapInt (Z.of_nat k - Z.of_nat (length samples))) sf act)
         end
       else Some (mkCallback b (Z.of_nat k) sf act))
    with
    | None => None
    | Some callback =>
      match copyAt (buffer callback) (bufferSize callback) samples with
      | None => None
      | Some b0 =>
        Some (mkCallback b0 (wrapInt (bufferSize callback + Z.of_nat (length samples)))
                (silentFrames callback) (isActive callback))
      end
    end = Some (mkCallback b' (Z.of_nat k') sf act)
    /\ length b' = length b
    /\ (k' <= length b)%nat
    /\ take k' b'
       = drop (if (length b <? k + length samples)%nat then length samples else 0%nat)
           (take k b ++ samples).
Proof.
  intros Hfit Hk HL.
  assert (H62 : 2 ^ 62 = 4611686018427387904) by reflexivity.
  unfold wrapInt. rewrite (wrap64_small (Z.of_nat k + _)) by lia.
  destruct (Z.ltb_spec (Z.of_nat (length b)) (Z.of_nat k + Z.of_nat (length samples)))
    as [Hfull | Hroom].
  - rewrite slice_in_range by lia. simpl.
    rewrite wrap64_small by lia.
    replace (Z.of_nat k - Z.of_nat (length samples))
      with (Z.of_nat (k - length samples)) by lia.
    rewrite copyAt_in_range by (rewrite length_copy; lia).
    rewrite wrap64_small by lia.
    replace (Z.of_nat (k - length samples) + Z.of_nat (length samples))
      with (Z.of_nat k) by lia.
    destruct (store_shifts b samples k ltac:(lia)) as [Hlen Htake].
    eexists. exists k. split; [reflexivity |]. split; [exact Hlen |]. split; [exact Hk |].
    replace (length b <? k + length samples)%nat with true
      by (symmetry; apply Nat.ltb_lt; lia).
    exact Htake.
  - simpl. rewrite copyAt_in_range by lia.
    rewrite wrap64_small by lia.
    replace (Z.of_nat k + Z.of_nat (length samples))
      with (Z.of_nat (k + length samples)) by lia.
    destruct (store_appends b samples k ltac:(lia)) as [Hlen Htake].
    eexists. exists (k + length samples)%nat.
    split; [reflexivity |]. split; [exact Hlen |]. split; [lia |].
    replace (length b <? k + length samples)%nat with false
      by (symmetry; apply Nat.ltb_ge; lia).
    exact Htake.
Qed.

(** One call on a frame that fits, in full: the activity flag, the silence
    count and the samples held afterwards. *)
Lemma audioCallback_step (cb : AudioCallback) (samples : list Z) :
  consistent cb -> fits cb samples ->
  Z.of_nat (length (buffer cb)) < 2 ^ 62 ->
  exists cb' voice,
    audioCallback samples cb = Some cb'
    /\ detectVoice samples = Some voice
    /\ consistent cb'
    /\ length (buffer cb') = length (buffer cb)
    /\ isActive cb'
       = (voice || (isActive cb && (silentFrames cb + 1 <=? VadSilenceFrames)))
    /\ silentFrames cb'
       = (if voice then 0
          else if isActive cb then silentFrames cb + 1 else silentFrames cb)
    /\ held cb'
       = if isActive cb' then
           drop (if (length (buffer cb) <? length (held cb) + length samples)%nat
                 then length samples else 0%nat)
             (held cb ++ samples)
         else held cb.
Proof.
  intros (Hbs & Hsf & Hact) (Hne & Hfit) HL.
  destruct cb as [b bs sf act]. unfold held. simpl in *.
  assert (Hk : exists k, bs = Z.of_nat k /\ (k <= length b)%nat).
  { exists (Z.to_nat bs). split; lia. }
  destruct Hk as (k & -> & Hk). rewrite Nat2Z.id.
  rewrite length_take, (Nat.min_l k) by lia.
  unfold VadSilenceFrames in Hsf, Hact.
  unfold audioCallback, detectVoice.
  destruct (averageLevel samples) as [avg |] eqn:Havg;
    [| destruct samples; [congruence | discriminate]].
  destruct (VadThreshold <? avg).
  - simpl.
    destruct (store_ok b samples k 0 true Hfit Hk HL) as (b' & k' & Heq & Hlen & Hk' & Htake).
    rewrite Heq. eexists. exists true. split; [reflexivity |]. split; [reflexivity |].
    unfold consistent, held, VadSilenceFrames. simpl. rewrite Nat2Z.id.
    split; [lia |]. split; [exact Hlen |].
    split; [reflexivity |]. split; [reflexivity | exact Htake].
  - destruct act; simpl.
    + unfold wrapInt. rewrite wrap64_small by lia.
      destruct (VadSilenceFrames <? sf + 1) eqn:Hover; simpl.
      * eexists. exists false. split; [reflexivity |]. split; [reflexivity |].
        unfold consistent, held. simpl. rewrite Nat2Z.id.
        specialize (Hact eq_refl).
        split; [unfold VadSilenceFrames; split; [lia |]; split; [lia | discriminate] |].
        split; [reflexivity |].
        split; [symmetry; apply Z.leb_gt; apply Z.ltb_lt; exact Hover |].
        split; reflexivity.
      * destruct (store_ok b samples k (sf + 1) true Hfit Hk HL)
          as (b' & k' & Heq & Hlen & Hk' & Htake).
        unfold wrapInt in Heq. rewrite Heq. eexists. exists false.
        split; [reflexivity |]. split; [reflexivity |].
        unfold consistent, held. simpl. rewrite Nat2Z.id.
        apply Z.ltb_ge in Hover.
        split; [unfold VadSilenceFrames in *; lia |]. split; [exact Hlen |].
        split; [symmetry; apply Z.leb_le; exact Hover |].
        split; [reflexivity | exact Htake].
    + eexists. exists false. split; [reflexivity |]. split; [reflexivity |].
      unfold consistent, held, VadSilenceFrames. simpl. rewrite Nat2Z.id.
      split; [split; [lia |]; split; [lia | discriminate] |].
      split; [reflexivity |]. split; [reflexivity |]. split; reflexivity.
Qed.

(** X21.  One call of the callback on a frame that fits never panics and keeps
    the state consistent and the buffer's length.  While the callback is
    active the frame is appended to the samples held; when that would pass
    the end of the buffer, as many of the oldest samples are dropped first.
    While it is not active, the samples held stay as they are. *)
Theorem callback_keeps_newest_samples (cb : AudioCallback) (samples : list Z) :
  consistent cb -> fits cb samples ->
  Z.of_nat (length (buffer cb)) < 2 ^ 62 ->
  exists cb',
    audioCallback samples cb = Some cb'
    /\ consistent cb'
    /\ length (buffer cb') = length (buffer cb)
    /\ held cb'
       = if isActive cb' then
           drop (if (length (buffer cb) <? length (held cb) + length samples)%nat
                 then length samples else 0%nat)
             (held cb ++ samples)
         else held cb.
Proof.
  intros Hc Hf HL.
  destruct (audioCallback_step cb samples Hc Hf HL)
    as (cb' & voice & Heq & _ & Hc' & Hlen & _ & _ & Hheld).
  exists cb'. split; [exact Heq |]. split; [exact Hc' |]. split; [exact Hlen | exact Hheld].
Qed.

Lemma callback_keeps_newest_samples_witness :
  exists cb',
    audioCallback [1000; -1000] (mkCallback [1; 2; 3; 4] 4 0 true) = Some cb'
    /\ consistent cb'
    /\ length (buffer cb') = 4%nat
    /\ held cb' = [3; 4; 1000; -1000].
Proof.
  destruct (callback_keeps_newest_samples (mkCallback [1; 2; 3; 4] 4 0 true) [1000; -1000])
    as (cb' & Heq & Hc & Hl & Hh).
  - unfold consistent. simpl. unfold VadSilenceFrames. lia.
  - split; [discriminate | simpl; lia].
  - reflexivity.
  - exists cb'. split; [exact Heq |]. split; [exact Hc |]. split; [exact Hl |].
    rewrite Hh. vm_compute in Heq. injection Heq as <-. reflexivity.
Defined.

(** While the callback is idle, silent frames change nothing. *)
Lemma feed_idle (fs : list (list Z)) (cb : AudioCallback) :
  isActive cb = false ->
  Forall (fun f => detectVoice f = Some false) fs ->
  feed fs cb = Some cb.
Proof.
  intros Hidle Hfs. induction Hfs as [| f fs Hf _ IH]; simpl; [reflexivity |].
  unfold audioCallback. unfold detectVoice in Hf.
  destruct (averageLevel f) as [avg |]; [| discriminate].
  injection Hf as Hf. rewrite Hf, Hidle. simpl. rewrite Hidle. exact IH.
Qed.

(** Silent frames while the callback is active, with room in the buffer:
    those that keep the count within the limit are stored, the next one
    makes the callback idle. *)
Lemma feed_silent (L : nat) : forall (fs : list (list Z)) (cb : AudioCallback),
  consistent cb -> length (buffer cb) = L -> Z.of_nat L < 2 ^ 62 ->
  isActive cb = true ->
  Forall (fun f => (f <> [] /\ (2 * length f <= L)%nat) /\ detectVoice f = Some false) fs ->
  (length (held cb)
   + length (concat (take (Z.to_nat (VadSilenceFrames - silentFrames cb)) fs)) <= L)%nat ->
  exists cb',
    feed fs cb = Some cb'
    /\ isActive cb' = (silentFrames cb + Z.of_nat (length fs) <=? VadSilenceFrames)
    /\ held cb'
       = held cb ++ concat (take (Z.to_nat (VadSilenceFrames - silentFrames cb)) fs).
Proof.
  induction fs as [| f fs IH]; intros cb Hc HL H62 Hactive Hfs Hroom.
  - exists cb. split; [reflexivity |]. simpl.
    destruct Hc as (_ & _ & Hlim). specialize (Hlim Hactive).
    rewrite Z.add_0_r. split; [rewrite Hactive; symmetry; apply Z.leb_le; exact Hlim |].
    rewrite take_nil. simpl. rewrite app_nil_r. reflexivity.
  - inversion Hfs as [| ? ? [Hfit Hsil] Hrest]; subst.
    destruct (audioCallback_step cb f Hc) as
      (cb1 & voice & Heq & Hvoice & Hc1 & Hlen1 & Hact1 & Hsf1 & Hheld1).
    { exact Hfit. }
    { exact H62. }
    rewrite Hsil in Hvoice. injection Hvoice as <-.
    rewrite Hactive in Hact1, Hsf1. simpl in Hact1.
    simpl. rewrite Heq.
    pose proof Hc as (_ & Hsf & _).
    destruct (Z.leb_spec (silentFrames cb + 1) VadSilenceFrames) as [Hin | Hout].
    + assert (Htake : take (Z.to_nat (VadSilenceFrames - silentFrames cb)) (f :: fs)
                      = f :: take (Z.to_nat (VadSilenceFrames - silentFrames cb1)) fs).
      { rewrite Hsf1.
        replace (Z.to_nat (VadSilenceFrames - silentFrames cb))
          with (S (Z.to_nat (VadSilenceFrames - (silentFrames cb + 1)))) by lia.
        reflexivity. }
      rewrite Htake in Hroom |- *. simpl in Hroom. rewrite length_app in Hroom.
      rewrite Hact1 in Hheld1.
      replace (length (buffer cb) <? length (held cb) + length f)%nat with false in Hheld1
        by (symmetry; apply Nat.ltb_ge; lia).
      rewrite drop_0 in Hheld1.
      destruct (IH cb1 Hc1) as (cb' & Hfeed & Hact' & Hheld'); try assumption.
      { rewrite Hheld1, length_app. lia. }
      exists cb'. split; [exact Hfeed |]. split.
      * rewrite Hact', Hsf1. f_equal. lia.
      * rewrite Hheld', Hheld1. simpl. rewrite <- app_assoc. reflexivity.
    + rewrite Hact1 in Hheld1.
      rewrite (feed_idle fs cb1); [| exact Hact1 |].
      2:{ eapply Forall_impl; [exact Hrest |]. intros x [_ Hx]. exact Hx. }
      exists cb1. split; [reflexivity |]. split.
      * rewrite Hact1. symmetry. apply Z.leb_gt. lia.
      * rewrite Hheld1.
        replace (Z.to_nat (VadSilenceFrames - silentFrames cb)) with 0%nat by lia.
        simpl. rewrite app_nil_r. reflexivity.
Qed.

(** X22.  After a voiced frame the callback stays active through ten silent
    frames and goes idle on the eleventh: with room in the buffer it has then
    stored the voiced frame and the first ten silent frames, and none of the
    later ones. *)
Theorem callback_stores_ten_frames_of_trailing_silence
  (cb : AudioCallback) (v : list Z) (fs : list (list Z)) :
  consistent cb ->
  Z.of_nat (length (buffer cb)) < 2 ^ 62 ->
  fits cb v -> detectVoice v = Some true ->
  Forall (fun f => fits cb f /\ detectVoice f = Some false) fs ->
  (length (held cb) + length v + length (concat (take 10 fs)) <= length (buffer cb))%nat ->
  exists cb',
    feed (v :: fs) cb = Some cb'
    /\ isActive cb' = (length fs <=? 10)%nat
    /\ held cb' = held cb ++ v ++ concat (take 10 fs).
Proof.
  intros Hc H62 Hv Hvoiced Hfs Hroom.
  destruct (audioCallback_step cb v Hc Hv H62)
    as (cb1 & voice & Heq & Hvoice & Hc1 & Hlen1 & Hact1 & Hsf1 & Hheld1).
  rewrite Hvoiced in Hvoice. injection Hvoice as <-. simpl in Hact1, Hsf1.
  rewrite Hact1 in Hheld1.
  replace (length (buffer cb) <? length (held cb) + length v)%nat with false in Hheld1
    by (symmetry; apply Nat.ltb_ge; lia).
  rewrite drop_0 in Hheld1.
  destruct (feed_silent (length (buffer cb)) fs cb1 Hc1 Hlen1 H62 Hact1)
    as (cb' & Hfeed & Hact' & Hheld').
  { eapply Forall_impl; [exact Hfs |]. intros f [Hf Hs]. split; [exact Hf | exact Hs]. }
  { rewrite Hsf1, Hheld1, length_app.
    change (Z.to_nat (VadSilenceFrames - 0)) with 10%nat. lia. }
  exists cb'. simpl. rewrite Heq. split; [exact Hfeed |]. split.
  - rewrite Hact', Hsf1. unfold VadSilenceFrames.
    destruct (Nat.leb_spec (length fs) 10); [apply Z.leb_le | apply Z.leb_gt]; lia.
  - rewrite Hheld', Hheld1, Hsf1, <- app_assoc. reflexivity.
Qed.

Lemma callback_trailing_silence_witness :
  exists cb',
    feed ([1000; -1000] :: replicate 12 [0; 0]) (newCallback 64) = Some cb'
    /\ isActive cb' = false
    /\ held cb' = [1000; -1000] ++ replicate 20 0.
Proof.
  apply (callback_stores_ten_frames_of_trailing_silence
           (newCallback 64) [1000; -1000] (replicate 12 [0; 0])).
  - unfold consistent. simpl. unfold VadSilenceFrames. split; [lia |]. split; [lia | discriminate].
  - reflexivity.
  - split; [discriminate | simpl; lia].
  - reflexivity.
  - apply Forall_replicate. split; [split; [discriminate | simpl; lia] | reflexivity].
  - simpl. lia.
Defined.

End CallbackBuffer.

(** ** The end of a shutdown pass *)

Section CoordinatorMore.

Import Common.

Lemma says_snoc (l : list LogEvent) (e : LogEvent) (f : LogEvent -> bool) :
  existsb f (l ++ [e]) = existsb f l || f e.
Proof. rewrite existsb_app. simpl. rewrite orb_false_r. reflexivity. Qed.

Lemma all_done_no_spawned (ws : list Worker) (i ref : nat) :
  forallb isDone ws = true -> ws !! i = Some (WSpawned ref) -> False.
Proof.
  intros Hall Hi. rewrite forallb_forall in Hall.
  assert (Hin : In (WSpawned ref) ws).
  { apply list_elem_of_In. eapply list_elem_of_lookup_2. exact Hi. }
  specialize (Hall _ Hin). discriminate Hall.
Qed.

Lemma settled_step a st : settled st -> settled (step a st).
Proof.
  intros H. unfold step. case_eq (crashed st); intros Ec; [exact H |].
  pose proof H as (Hdone & Hall & Hend & Hcount).
  destruct a as [ref | | i | | |].
  - unfold Register. destruct (heap st !! ref); [| exact H].
    unfold settled, saysAllDown, saysTimedOut, returned, spawnedAll in *. simpl.
    rewrite !says_snoc. simpl. rewrite !orb_false_r.
    split; [exact Hdone |]. split; [exact Hall |]. split; [exact Hend | exact Hcount].
  - unfold mainStep.
    destruct (pc st) as [| svcs next | svcs | svcs] eqn:Epc.
    + assert (Hopen : doneChan st = false).
      { destruct (doneChan st); [| reflexivity].
        destruct (Hdone eq_refl) as [Hs _]. unfold spawnedAll in Hs. rewrite Epc in Hs.
        discriminate Hs. }
      unfold settled, saysAllDown, saysTimedOut, returned, spawnedAll in *.
      rewrite ?Epc in *. destruct Hend as [Ha Ht].
      destruct (length (services st) =? 0)%nat eqn:E; simpl.
      * apply Nat.eqb_eq in E. rewrite Ha, Ht, Hopen, Hcount, E.
        repeat split; discriminate.
      * rewrite !says_snoc, Ha, Ht, Hopen, Hcount. simpl.
        repeat split; try discriminate; lia.
    + assert (Hopen : doneChan st = false).
      { destruct (doneChan st); [| reflexivity].
        destruct (Hdone eq_refl) as [Hs _]. unfold spawnedAll in Hs. rewrite Epc in Hs.
        discriminate Hs. }
      unfold settled, saysAllDown, saysTimedOut, returned, spawnedAll in *.
      rewrite ?Epc in *. destruct Hend as [Ha Ht]. destruct Hcount as [Hlen Hle].
      destruct (svcs !! next) as [ref |] eqn:El; simpl.
      * rewrite Ha, Ht, Hopen, length_app. simpl. apply lookup_lt_Some in El.
        repeat split; try discriminate; lia.
      * rewrite Ha, Ht, Hopen. apply lookup_ge_None_1 in El.
        repeat split; try discriminate; lia.
    + exact H.
    + exact H.
  - unfold workerStep.
    destruct (workers st !! i) as [[ref | ref | ref | ref] |] eqn:Ew; try exact H.
    destruct (heap st !! ref) as [v |]; [| exact H].
    assert (Hopen : doneChan st = false).
    { destruct (doneChan st); [| reflexivity].
      destruct (Hdone eq_refl) as [_ Hd]. destruct (all_done_no_spawned _ _ _ Hd Ew). }
    unfold settled, saysAllDown, saysTimedOut, returned, spawnedAll in *.
    rewrite Hopen in *.
    assert (Ha : existsb isAllDown (log st) = false).
    { destruct (existsb isAllDown (log st)); [| reflexivity].
      specialize (Hall eq_refl). discriminate Hall. }
    destruct (shutdownOf v) as [v' [[err |] | |]]; simpl;
      rewrite ?says_snoc, ?length_insert, ?Ha; simpl; rewrite ?orb_false_r;
      (split; [intros Hf; discriminate Hf |]);
      (split; [intros Hf; discriminate Hf |]);
      (split;
       [destruct (pc st); simpl in *;
        first [reflexivity | split; [reflexivity | apply Hend]]
       | destruct (pc st); simpl in *;
         first [exact Hcount | rewrite Hcount in Ew; discriminate Ew]]).
  - unfold waiterStep. destruct (pc st) as [| svcs next | svcs | svcs] eqn:Epc; try exact H.
    destruct (forallb isDone (workers st) && negb (doneChan st)) eqn:E; [| exact H].
    apply andb_true_iff in E. destruct E as [Hd _].
    unfold settled, saysAllDown, saysTimedOut, returned, spawnedAll in *. simpl.
    rewrite ?Epc in *.
    split; [intros _; split; [reflexivity | exact Hd] |].
    split; [intros _; reflexivity |]. split; [exact Hend | exact Hcount].
  - unfold selectDone. destruct (pc st) as [| svcs next | svcs | svcs] eqn:Epc; try exact H.
    destruct (doneChan st) eqn:Ed; [| exact H].
    unfold settled, saysAllDown, saysTimedOut, returned, spawnedAll in *. simpl.
    rewrite ?Epc in *. rewrite ?Ed, !says_snoc. destruct Hend as [Ha Ht]. rewrite Ha, Ht.
    destruct (Hdone eq_refl) as [_ Hd]. simpl.
    split; [intros _; split; [reflexivity | exact Hd] |].
    split; [intros _; reflexivity |]. split; [reflexivity | exact Hcount].
  - unfold selectTimeout. destruct (pc st) as [| svcs next | svcs | svcs] eqn:Epc; try exact H.
    unfold settled, saysAllDown, saysTimedOut, returned, spawnedAll in *. simpl.
    rewrite ?Epc in *. rewrite !says_snoc. destruct Hend as [Ha Ht]. rewrite Ha, Ht. simpl.
    split; [exact Hdone |]. split; [discriminate |]. split; [reflexivity | exact Hcount].
Qed.

(** X23.  In every interleaving of one call of [shutdown()] with its goroutines
    and with registrations, "All services shut down successfully" is logged
    only when the call has returned, a goroutine was started for every entry
    of the snapshot and every one of them finished its [Shutdown] call; it is
    never logged together with the timeout line. *)
Theorem shutdown_reports_success_only_when_all_returned
  (h : list Service) (t : Z) (sched : list Action) :
  let st := run sched (NewGracefulShutdown h t) in
  (saysAllDown st = true ->
   returned st = true
   /\ (exists svcs, snapshot st = Some svcs /\ length (workers st) = length svcs)
   /\ forallb isDone (workers st) = true
   /\ saysTimedOut st = false)
  /\ (saysTimedOut st = true -> returned st = true /\ saysAllDown st = false).
Proof.
  intros st.
  assert (Hinv : settled st).
  { subst st. apply run_ind; [apply settled_step |].
    unfold settled, saysAllDown, saysTimedOut. simpl.
    repeat split; discriminate. }
  destruct Hinv as (Hdone & Hall & Hend & Hcount).
  unfold returned, snapshot, spawnedAll in *.
  split.
  - intros Ha. destruct (Hdone (Hall Ha)) as [_ Hd].
    destruct (pc st) as [| svcs next | svcs | svcs];
      try (rewrite (proj1 Hend) in Ha; discriminate Ha).
    rewrite Ha in Hend. simpl in Hend.
    split; [reflexivity |]. split; [exists svcs; split; [reflexivity | exact Hcount] |].
    split; [exact Hd | exact Hend].
  - intros Ht.
    destruct (pc st) as [| svcs next | svcs | svcs];
      try (rewrite (proj2 Hend) in Ht; discriminate Ht).
    rewrite Ht, andb_true_r in Hend. split; [reflexivity | exact Hend].
Qed.

Lemma shutdown_reports_success_witness :
  let st := run (registerThree ++ wholePass) (NewGracefulShutdown conchServices 10) in
  saysAllDown st = true
  /\ returned st = true
  /\ (exists svcs, snapshot st = Some svcs /\ length (workers st) = length svcs)
  /\ forallb isDone (workers st) = true
  /\ saysTimedOut st = false.
Proof.
  intros st.
  assert (Ha : saysAllDown st = true) by (vm_compute; reflexivity).
  split; [exact Ha |].
  exact (proj1 (shutdown_reports_success_only_when_all_returned
                  conchServices 10 (registerThree ++ wholePass)) Ha).
Defined.

End CoordinatorMore.

(** ** The history of the terminal *)

Section TerminalHistory.

Import Terminal.

Variable TrimSpace : string -> string.

Lemma noRepeat_snoc (ts : list string) (x : string) :
  noRepeat ts -> last ts <> Some x -> noRepeat (ts ++ [x]).
Proof.
  induction ts as [| a ts IH]; intros Hts Hlast; [exact I |].
  destruct ts as [| b ts].
  - simpl. split; [| exact I]. intros ->. apply Hlast. reflexivity.
  - destruct Hts as [Hab Hrest]. split; [exact Hab |].
    apply IH; [exact Hrest | exact Hlast].
Qed.

Lemma noRepeat_tail (a : string) (ts : list string) : noRepeat (a :: ts) -> noRepeat ts.
Proof. destruct ts as [| b ts]; [intros _; exact I | intros [_ H]; exact H]. Qed.

Lemma noRepeat_drop (k : nat) : forall ts : list string, noRepeat ts -> noRepeat (drop k ts).
Proof.
  induction k as [| k IH]; intros ts H; [rewrite drop_0; exact H |].
  destruct ts as [| a ts]; [exact I |].
  simpl. apply IH. exact (noRepeat_tail a ts H).
Qed.

Lemma last_drop (k : nat) : forall ts : list string,
  (k < length ts)%nat -> last (drop k ts) = last ts.
Proof.
  induction k as [| k IH]; intros ts Hk; [rewrite drop_0; reflexivity |].
  destruct ts as [| a ts]; [simpl in Hk; lia |].
  simpl in Hk. simpl drop. rewrite IH by lia.
  destruct ts as [| b ts]; [simpl in Hk; lia | reflexivity].
Qed.

(** The history as [Update] keeps it. *)
Lemma remember_keeps (text : string) (m : terminalModel) :
  text <> ""%string ->
  (length (transcriptions m) <= 5)%nat ->
  Forall (fun t => t <> ""%string) (transcriptions m) ->
  noRepeat (transcriptions m) ->
  let m' := remember text m in
  (length (transcriptions m') <= 5)%nat
  /\ Forall (fun t => t <> ""%string) (transcriptions m')
  /\ noRepeat (transcriptions m')
  /\ last (transcriptions m') = Some text
  /\ clipboardText m' = clipboardText m
  /\ lastCtrlC m' = lastCtrlC m.
Proof.
  intros Htext Hlen Hne Hnr. unfold remember.
  assert (Hnew : last (transcriptions m) <> Some text ->
                 let ts := transcriptions m ++ [text] in
                 let m' := if (5 <? length ts)%nat
                           then set_transcriptions (drop (length ts - 5) ts) m
                           else set_transcriptions ts m in
                 (length (transcriptions m') <= 5)%nat
                 /\ Forall (fun t => t <> ""%string) (transcriptions m')
                 /\ noRepeat (transcriptions m')
                 /\ last (transcriptions m') = Some text
                 /\ clipboardText m' = clipboardText m
                 /\ lastCtrlC m' = lastCtrlC m).
  { intros Hlast. simpl.
    assert (Hne' : Forall (fun t => t <> ""%string) (transcriptions m ++ [text])).
    { apply Forall_app. split; [exact Hne |]. apply Forall_singleton. exact Htext. }
    pose proof (noRepeat_snoc _ _ Hnr Hlast) as Hnr'.
    destruct (Nat.ltb_spec 5 (length (transcriptions m ++ [text]))) as [Hover | Hfit]; simpl.
    - rewrite length_drop. split; [lia |].
      split; [apply Forall_drop; exact Hne' |].
      split; [apply noRepeat_drop; exact Hnr' |].
      split; [| split; reflexivity].
      rewrite last_drop by lia. apply last_snoc.
    - split; [exact Hfit |]. split; [exact Hne' |]. split; [exact Hnr' |].
      split; [apply last_snoc | split; reflexivity]. }
  destruct (last (transcriptions m)) as [latest |] eqn:Elast.
  - destruct (String.eqb_spec latest text) as [-> | Hdiff]; simpl.
    + repeat split; assumption.
    + apply Hnew. intros [= H]. contradiction.
  - apply Hnew. discriminate.
Qed.

Lemma lastCtrlC_remember (text : string) (m : terminalModel) :
  lastCtrlC (remember text m) = lastCtrlC m.
Proof.
  unfold remember.
  destruct (last (transcriptions m)) as [latest |];
    [destruct (negb (String.eqb latest text)) |];
    try destruct (5 <? length (transcriptions m ++ [text]))%nat; reflexivity.
Qed.

#[local] Arguments remember : simpl never.

Lemma session_snoc (msgs : list (World * Msg)) (w : World) (msg : Msg) :
  session TrimSpace (msgs ++ [(w, msg)])
  = fst (Update TrimSpace w msg (session TrimSpace msgs)).
Proof. unfold session. rewrite fold_left_app. reflexivity. Qed.

Lemma tidy_Update (w : World) (msg : Msg) (m : terminalModel) :
  tidy m -> tidy (fst (Update TrimSpace w msg m)).
Proof.
  intros Hm. pose proof Hm as (Hlen & Hne & Hnr & Hclip).
  destruct msg as [key | text | text | err | W H |]; simpl; try exact Hm.
  - destruct (String.eqb key "ctrl+c").
    { destruct (Since (nowSince w) (lastCtrlC m) <? Second); exact Hm. }
    destruct (String.eqb key "c" || String.eqb key "C").
    { unfold tidy. simpl. repeat split; try assumption. left. reflexivity. }
    destruct (String.eqb key "enter"); [| exact Hm].
    destruct (String.eqb_spec (clipboardText m) "") as [Hempty | Hfull]; simpl; [exact Hm |].
    destruct (clipboardErr w); [exact Hm |].
    destruct (remember_keeps (clipboardText m) (set_statusMessage "Copied to clipboard" m))
      as (H1 & H2 & H3 & H4 & H5 & _); try assumption.
    unfold tidy. simpl. rewrite H5. simpl.
    split; [exact H1 |]. split; [exact H2 |]. split; [exact H3 |]. right. exact H4.
  - destruct (String.eqb_spec (TrimSpace text) "") as [Hempty | Hfull]; simpl; [exact Hm |].
    destruct (remember_keeps (TrimSpace text) (set_clipboardText (TrimSpace text) m))
      as (H1 & H2 & H3 & H4 & H5 & _); try assumption.
    unfold tidy. simpl. rewrite H5. simpl.
    split; [exact H1 |]. split; [exact H2 |]. split; [exact H3 |]. right. exact H4.
Qed.

Lemma tidy_session (msgs : list (World * Msg)) : tidy (session TrimSpace msgs).
Proof.
  induction msgs as [| [w msg] msgs IH] using rev_ind.
  - unfold tidy. simpl. repeat split; try lia; [apply Forall_nil_2 | left; reflexivity].
  - rewrite session_snoc. apply tidy_Update. exact IH.
Qed.

(** X24.  Whatever messages arrive, the history never holds more than 5 entries,
    an empty entry, or two equal entries in a row, and the text offered for
    copying, when there is one, is the latest entry. *)
Theorem history_keeps_five_distinct_entries (msgs : list (World * Msg)) :
  let m := session TrimSpace msgs in
  (length (transcriptions m) <= 5)%nat
  /\ Forall (fun t => t <> ""%string) (transcriptions m)
  /\ noRepeat (transcriptions m)
  /\ (clipboardText m = ""%string \/ last (transcriptions m) = Some (clipboardText m)).
Proof.
  intros m. destruct (tidy_session msgs) as (Hlen & Hne & Hnr & Hclip).
  split; [exact Hlen |]. split; [exact Hne |]. split; [exact Hnr | exact Hclip].
Qed.

(** X25.  Pressing Enter never changes the history, whether the copy succeeds or
    not: the text it would add is already the latest entry. *)
Theorem enter_never_changes_history (msgs : list (World * Msg)) (w : World) :
  transcriptions (fst (Update TrimSpace w (KeyMsg "enter") (session TrimSpace msgs)))
  = transcriptions (session TrimSpace msgs).
Proof.
  destruct (tidy_session msgs) as (_ & _ & _ & Hclip).
  set (m := session TrimSpace msgs) in *. simpl.
  destruct (String.eqb_spec (clipboardText m) "") as [Hempty | Hfull]; simpl; [reflexivity |].
  destruct (clipboardErr w); [reflexivity |].
  destruct Hclip as [Hempty | Hlast]; [contradiction |].
  unfold remember. simpl. rewrite Hlast, String.eqb_refl. reflexivity.
Qed.

(** The time of the last Ctrl+C, when there is one, is that of a Ctrl+C of
    the session. *)
Lemma lastCtrlC_session (msgs : list (World * Msg)) (t : Z) :
  lastCtrlC (session TrimSpace msgs) = Some t ->
  exists w0 msg0, In (w0, msg0) msgs /\ isCtrlC msg0 = true /\ nowSet w0 = t.
Proof.
  induction msgs as [| [w msg] msgs IH] using rev_ind; [discriminate |].
  rewrite session_snoc.
  assert (Hold : lastCtrlC (session TrimSpace msgs) = Some t ->
                 exists w0 msg0,
                   In (w0, msg0) (msgs ++ [(w, msg)]) /\ isCtrlC msg0 = true /\ nowSet w0 = t).
  { intros H. destruct (IH H) as (w0 & msg0 & Hin & Hc & Ht).
    exists w0, msg0. split; [apply in_or_app; left; exact Hin | split; assumption]. }
  set (m := session TrimSpace msgs) in *.
  destruct msg as [key | text | text | err | W H |]; simpl; try exact Hold.
  - destruct (String.eqb key "ctrl+c") eqn:Ekey.
    { destruct (Since (nowSince w) (lastCtrlC m) <? Second); simpl; [exact Hold |].
      intros [= <-]. exists w, (KeyMsg key).
      split; [apply in_or_app; right; left; reflexivity |]. split; [exact Ekey | reflexivity]. }
    destruct (String.eqb key "c" || String.eqb key "C"); [exact Hold |].
    destruct (String.eqb key "enter"); [| exact Hold].
    destruct (negb (String.eqb (clipboardText m) "")); [| exact Hold].
    destruct (clipboardErr w); [exact Hold |].
    simpl. rewrite lastCtrlC_remember. exact Hold.
  - destruct (negb (String.eqb (TrimSpace text) "")); [| exact Hold].
    simpl. rewrite lastCtrlC_remember. exact Hold.
Qed.

(** X26.  [Update] asks to quit only on a Ctrl+C that comes less than a second
    after an earlier Ctrl+C of the session; no other message, and no first
    Ctrl+C, ends the program. *)
Theorem quit_needs_second_ctrl_c_within_a_second
  (msgs : list (World * Msg)) (w : World) (msg : Msg) :
  In Quit (snd (Update TrimSpace w msg (session TrimSpace msgs))) ->
  isCtrlC msg = true
  /\ exists w0 msg0,
       In (w0, msg0) msgs /\ isCtrlC msg0 = true /\ nowSince w - nowSet w0 < Second.
Proof.
  pose proof (lastCtrlC_session msgs) as Hlast.
  set (m := session TrimSpace msgs) in *.
  assert (Hno : ~ In Quit [CheckStatus]) by (intros [H | []]; discriminate H).
  assert (Hno2 : ~ In Quit [CheckForRecording; CheckStatus])
    by (intros [H | [H | []]]; discriminate H).
  destruct msg as [key | text | text | err | W H |]; simpl;
    try (intros Hq; contradiction).
  - destruct (String.eqb key "ctrl+c") eqn:Ekey.
    + destruct (Z.ltb_spec (Since (nowSince w) (lastCtrlC m)) Second) as [Hlt | Hge]; simpl;
        [| intros Hq; contradiction].
      intros _. split; [reflexivity |].
      unfold Since, Second, maxDuration, minDuration in Hlt.
      destruct (lastCtrlC m) as [t |] eqn:Et; [| lia].
      destruct (Hlast t eq_refl) as (w0 & msg0 & Hin & Hc & Ht).
      exists w0, msg0. split; [exact Hin |]. split; [exact Hc |].
      unfold Second. lia.
    + destruct (String.eqb key "c" || String.eqb key "C"); [intros Hq; contradiction |].
      destruct (String.eqb key "enter"); [| intros Hq; contradiction].
      destruct (negb (String.eqb (clipboardText m) "")); [| intros Hq; contradiction].
      destruct (clipboardErr w); intros Hq; contradiction.
  - destruct (negb (String.eqb (TrimSpace text) "")); intros Hq; contradiction.
Qed.

End TerminalHistory.

(** ** A session at the terminal *)

Section TerminalSession.

Import Terminal.

Lemma quit_needs_second_ctrl_c_witness :
  isCtrlC (KeyMsg "ctrl+c") = true
  /\ exists w0 msg0,
       In (w0, msg0) [(mkWorld 0 1000 None, transcriptionMsg " ls -la ");
                      (mkWorld 2000 3000 None, KeyMsg "ctrl+c")]
       /\ isCtrlC msg0 = true
       /\ nowSince (mkWorld 500003000 500004000 None) - nowSet w0 < Second.
Proof.
  apply (quit_needs_second_ctrl_c_within_a_second trimBlanks
           [(mkWorld 0 1000 None, transcriptionMsg " ls -la ");
            (mkWorld 2000 3000 None, KeyMsg "ctrl+c")]
           (mkWorld 500003000 500004000 None) (KeyMsg "ctrl+c")).
  vm_compute. left. reflexivity.
Defined.

End TerminalSession.
